(** * FLeapWrapper: the LeapC connection wrapper of the Ultraleap plugin

    A shallow embedding of [Source/UltraleapTrackingCore/Private/LeapWrapper.cpp].

    The C++ class is modelled by a record of its data members; every member
    function becomes a computation in a state-and-fault monad over a [World]
    that holds the process-wide context pointer, the live wrapper objects,
    the C heap, the queue of lambdas posted to the game thread and the trace
    of externally visible effects.  Calls into LeapC and the answers of the
    tracking service are inputs of the functions that make them; the memory
    in which the service keeps the events that its messages point to is part
    of the heap.  [UE_LOG] and
    [printf] lines have no effect on the modelled state and are left out, and
    so are the configuration pass-throughs ([SetTrackingMode], [SetPolicy],
    [SetPolicyFlagFromBoolean]) and [Millisleep].  The click handler of the
    editor details panel is modelled in a module of its own. *)

From Stdlib Require Import NArith ZArith Lia List.
From stdpp Require Import base option numbers gmap list strings.

Local Open Scope N_scope.

(** ** Pointers and LeapC data *)

(** Addresses are natural numbers; [nullptr] is address 0. *)
Abbreviation ptr := N.
Definition nullptr : ptr := 0.

Definition is_null (p : ptr) : bool := p =? nullptr.

(** [eLeapRS], with the members [ResultString] enumerates. *)
Inductive eLeapRS :=
| eLeapRS_Success
| eLeapRS_UnknownError
| eLeapRS_InvalidArgument
| eLeapRS_InsufficientResources
| eLeapRS_InsufficientBuffer
| eLeapRS_Timeout
| eLeapRS_NotConnected
| eLeapRS_HandshakeIncomplete
| eLeapRS_BufferSizeOverflow
| eLeapRS_ProtocolError
| eLeapRS_InvalidClientID
| eLeapRS_UnexpectedClosed
| eLeapRS_UnknownImageFrameRequest
| eLeapRS_UnknownTrackingFrameID
| eLeapRS_RoutineIsNotSeer
| eLeapRS_TimestampTooEarly
| eLeapRS_ConcurrentPoll
| eLeapRS_NotAvailable
| eLeapRS_NotStreaming
| eLeapRS_CannotOpenDevice.

#[global] Instance eLeapRS_eq_dec : EqDecision eLeapRS.
Proof. solve_decision. Defined.

Definition is_Success (r : eLeapRS) : bool := bool_decide (r = eLeapRS_Success).
Definition is_InsufficientBuffer (r : eLeapRS) : bool :=
  bool_decide (r = eLeapRS_InsufficientBuffer).

(** [LEAP_DEVICE_INFO]: the struct size, the serial buffer and its length are
    the fields the wrapper reads or writes; the remaining capability fields
    travel together as [info_caps]. *)
Record LEAP_DEVICE_INFO := {
  info_size : N;
  info_caps : N;
  serial_length : N;
  serial : ptr;
}.

(** [LEAP_TRACKING_EVENT]: a fixed header and [nHands] hand records behind the
    [pHands] pointer. *)
Record LEAP_TRACKING_EVENT := {
  tracking_frame_id : Z;
  nHands : N;
  pHands : ptr;
}.

(** [LEAP_IMAGE_FRAME_DESCRIPTION]: [buffer_len] is an unsigned integer field
    and [pBuffer] the image buffer. *)
Record LEAP_IMAGE_FRAME_DESCRIPTION := {
  buffer_len : N;
  pBuffer : ptr;
}.

Record LEAP_DEVICE_EVENT := { device : N }.
Record LEAP_DEVICE_FAILURE_EVENT := { failure_status : N; hDevice : ptr }.
Record LEAP_IMAGE_EVENT := { image_frame_id : Z }.
Record LEAP_LOG_EVENT := { severity : N; timestamp : Z; message : ptr }.
Record LEAP_POLICY_EVENT := { current_policy : N }.
Record LEAP_TRACKING_MODE_EVENT := { current_tracking_mode : N }.
Record LEAP_CONFIG_CHANGE_EVENT := { change_requestID : N; change_status : bool }.
Record LEAP_CONFIG_RESPONSE_EVENT := { response_requestID : N; response_value : Z }.

(** [LEAP_CONNECTION_MESSAGE]: the event type tag with the matching member of
    the union; [Msg_Other] stands for every type the switch of
    [ServiceMessageLoop] sends to [default].  The members of the union are
    pointers into memory of the tracking service.  Where the handler reads the
    event while it runs, the message is given with what the pointer reads at
    that time; where only the lambda that the handler posts reads the event,
    later and on another thread, the message is given with the pointer. *)
Inductive LEAP_CONNECTION_MESSAGE :=
| Msg_Connection
| Msg_ConnectionLost
| Msg_Device (device_event : LEAP_DEVICE_EVENT)
| Msg_DeviceLost (device_event : LEAP_DEVICE_EVENT)
| Msg_DeviceFailure (device_failure_event : ptr)
| Msg_Tracking (tracking_event : LEAP_TRACKING_EVENT)
| Msg_Image (image_event : LEAP_IMAGE_EVENT)
| Msg_LogEvent (log_event : ptr)
| Msg_Policy (policy_event : LEAP_POLICY_EVENT)
| Msg_TrackingMode (tracking_mode_event : LEAP_TRACKING_MODE_EVENT)
| Msg_ConfigChange (config_change_event : ptr)
| Msg_ConfigResponse (config_response_event : ptr)
| Msg_Other (type : N).

(** ** The wrapper object *)

(** The data members of [FLeapWrapper] that the member functions use.  The
    [TaskRef...] members only receive the handle of the last posted task and
    are never read; they are left out. *)
Record FLeapWrapper := {
  bIsRunning : bool;
  bIsConnected : bool;
  CallbackDelegate : ptr;
  ConnectionHandle : ptr;
  DeviceHandle : ptr;
  LatestFrame : ptr;
  CurrentDeviceInfo : ptr;
  InterpolatedFrame : ptr;
  InterpolatedFrameSize : N;
  DataLock : ptr;
  ImageDescription : ptr;
  ProducerLambdaFuture : bool;   (* true: the future refers to a running task *)
}.

Definition set_bIsRunning (v : bool) (o : FLeapWrapper) : FLeapWrapper :=
  {| bIsRunning := v; bIsConnected := bIsConnected o;
     CallbackDelegate := CallbackDelegate o; ConnectionHandle := ConnectionHandle o;
     DeviceHandle := DeviceHandle o; LatestFrame := LatestFrame o;
     CurrentDeviceInfo := CurrentDeviceInfo o; InterpolatedFrame := InterpolatedFrame o;
     InterpolatedFrameSize := InterpolatedFrameSize o; DataLock := DataLock o;
     ImageDescription := ImageDescription o;
     ProducerLambdaFuture := ProducerLambdaFuture o |}.

Definition set_bIsConnected (v : bool) (o : FLeapWrapper) : FLeapWrapper :=
  {| bIsRunning := bIsRunning o; bIsConnected := v;
     CallbackDelegate := CallbackDelegate o; ConnectionHandle := ConnectionHandle o;
     DeviceHandle := DeviceHandle o; LatestFrame := LatestFrame o;
     CurrentDeviceInfo := CurrentDeviceInfo o; InterpolatedFrame := InterpolatedFrame o;
     InterpolatedFrameSize := InterpolatedFrameSize o; DataLock := DataLock o;
     ImageDescription := ImageDescription o;
     ProducerLambdaFuture := ProducerLambdaFuture o |}.

Definition set_CallbackDelegate (v : ptr) (o : FLeapWrapper) : FLeapWrapper :=
  {| bIsRunning := bIsRunning o; bIsConnected := bIsConnected o;
     CallbackDelegate := v; ConnectionHandle := ConnectionHandle o;
     DeviceHandle := DeviceHandle o; LatestFrame := LatestFrame o;
     CurrentDeviceInfo := CurrentDeviceInfo o; InterpolatedFrame := InterpolatedFrame o;
     InterpolatedFrameSize := InterpolatedFrameSize o; DataLock := DataLock o;
     ImageDescription := ImageDescription o;
     ProducerLambdaFuture := ProducerLambdaFuture o |}.

Definition set_ConnectionHandle (v : ptr) (o : FLeapWrapper) : FLeapWrapper :=
  {| bIsRunning := bIsRunning o; bIsConnected := bIsConnected o;
     CallbackDelegate := CallbackDelegate o; ConnectionHandle := v;
     DeviceHandle := DeviceHandle o; LatestFrame := LatestFrame o;
     CurrentDeviceInfo := CurrentDeviceInfo o; InterpolatedFrame := InterpolatedFrame o;
     InterpolatedFrameSize := InterpolatedFrameSize o; DataLock := DataLock o;
     ImageDescription := ImageDescription o;
     ProducerLambdaFuture := ProducerLambdaFuture o |}.

Definition set_DeviceHandle (v : ptr) (o : FLeapWrapper) : FLeapWrapper :=
  {| bIsRunning := bIsRunning o; bIsConnected := bIsConnected o;
     CallbackDelegate := CallbackDelegate o; ConnectionHandle := ConnectionHandle o;
     DeviceHandle := v; LatestFrame := LatestFrame o;
     CurrentDeviceInfo := CurrentDeviceInfo o; InterpolatedFrame := InterpolatedFrame o;
     InterpolatedFrameSize := InterpolatedFrameSize o; DataLock := DataLock o;
     ImageDescription := ImageDescription o;
     ProducerLambdaFuture := ProducerLambdaFuture o |}.

Definition set_LatestFrame (v : ptr) (o : FLeapWrapper) : FLeapWrapper :=
  {| bIsRunning := bIsRunning o; bIsConnected := bIsConnected o;
     CallbackDelegate := CallbackDelegate o; ConnectionHandle := ConnectionHandle o;
     DeviceHandle := DeviceHandle o; LatestFrame := v;
     CurrentDeviceInfo := CurrentDeviceInfo o; InterpolatedFrame := InterpolatedFrame o;
     InterpolatedFrameSize := InterpolatedFrameSize o; DataLock := DataLock o;
     ImageDescription := ImageDescription o;
     ProducerLambdaFuture := ProducerLambdaFuture o |}.

Definition set_CurrentDeviceInfo (v : ptr) (o : FLeapWrapper) : FLeapWrapper :=
  {| bIsRunning := bIsRunning o; bIsConnected := bIsConnected o;
     CallbackDelegate := CallbackDelegate o; ConnectionHandle := ConnectionHandle o;
     DeviceHandle := DeviceHandle o; LatestFrame := LatestFrame o;
     CurrentDeviceInfo := v; InterpolatedFrame := InterpolatedFrame o;
     InterpolatedFrameSize := InterpolatedFrameSize o; DataLock := DataLock o;
     ImageDescription := ImageDescription o;
     ProducerLambdaFuture := ProducerLambdaFuture o |}.

Definition set_InterpolatedFrame (v : ptr) (o : FLeapWrapper) : FLeapWrapper :=
  {| bIsRunning := bIsRunning o; bIsConnected := bIsConnected o;
     CallbackDelegate := CallbackDelegate o; ConnectionHandle := ConnectionHandle o;
     DeviceHandle := DeviceHandle o; LatestFrame := LatestFrame o;
     CurrentDeviceInfo := CurrentDeviceInfo o; InterpolatedFrame := v;
     InterpolatedFrameSize := InterpolatedFrameSize o; DataLock := DataLock o;
     ImageDescription := ImageDescription o;
     ProducerLambdaFuture := ProducerLambdaFuture o |}.

Definition set_InterpolatedFrameSize (v : N) (o : FLeapWrapper) : FLeapWrapper :=
  {| bIsRunning := bIsRunning o; bIsConnected := bIsConnected o;
     CallbackDelegate := CallbackDelegate o; ConnectionHandle := ConnectionHandle o;
     DeviceHandle := DeviceHandle o; LatestFrame := LatestFrame o;
     CurrentDeviceInfo := CurrentDeviceInfo o; InterpolatedFrame := InterpolatedFrame o;
     InterpolatedFrameSize := v; DataLock := DataLock o;
     ImageDescription := ImageDescription o;
     ProducerLambdaFuture := ProducerLambdaFuture o |}.

Definition set_DataLock (v : ptr) (o : FLeapWrapper) : FLeapWrapper :=
  {| bIsRunning := bIsRunning o; bIsConnected := bIsConnected o;
     CallbackDelegate := CallbackDelegate o; ConnectionHandle := ConnectionHandle o;
     DeviceHandle := DeviceHandle o; LatestFrame := LatestFrame o;
     CurrentDeviceInfo := CurrentDeviceInfo o; InterpolatedFrame := InterpolatedFrame o;
     InterpolatedFrameSize := InterpolatedFrameSize o; DataLock := v;
     ImageDescription := ImageDescription o;
     ProducerLambdaFuture := ProducerLambdaFuture o |}.

Definition set_ImageDescription (v : ptr) (o : FLeapWrapper) : FLeapWrapper :=
  {| bIsRunning := bIsRunning o; bIsConnected := bIsConnected o;
     CallbackDelegate := CallbackDelegate o; ConnectionHandle := ConnectionHandle o;
     DeviceHandle := DeviceHandle o; LatestFrame := LatestFrame o;
     CurrentDeviceInfo := CurrentDeviceInfo o; InterpolatedFrame := InterpolatedFrame o;
     InterpolatedFrameSize := InterpolatedFrameSize o; DataLock := DataLock o;
     ImageDescription := v;
     ProducerLambdaFuture := ProducerLambdaFuture o |}.

Definition set_ProducerLambdaFuture (v : bool) (o : FLeapWrapper) : FLeapWrapper :=
  {| bIsRunning := bIsRunning o; bIsConnected := bIsConnected o;
     CallbackDelegate := CallbackDelegate o; ConnectionHandle := ConnectionHandle o;
     DeviceHandle := DeviceHandle o; LatestFrame := LatestFrame o;
     CurrentDeviceInfo := CurrentDeviceInfo o; InterpolatedFrame := InterpolatedFrame o;
     InterpolatedFrameSize := InterpolatedFrameSize o; DataLock := DataLock o;
     ImageDescription := ImageDescription o;
     ProducerLambdaFuture := v |}.

(** ** Heap, deferred tasks and effects *)

(** What a block of memory holds.  The last four are events that the
    tracking service keeps in memory of its own. *)
Inductive Data :=
| Uninit
| DDeviceInfo (d : LEAP_DEVICE_INFO)
| DTrackingEvent (e : LEAP_TRACKING_EVENT)
| DImageDescription (d : LEAP_IMAGE_FRAME_DESCRIPTION)
| DCriticalSection
| DDeviceFailureEvent (e : LEAP_DEVICE_FAILURE_EVENT)
| DLogEvent (e : LEAP_LOG_EVENT)
| DConfigChangeEvent (e : LEAP_CONFIG_CHANGE_EVENT)
| DConfigResponseEvent (e : LEAP_CONFIG_RESPONSE_EVENT).

Record Block := { blk_size : N; blk_data : Data }.

(** The lambdas handed to [FLeapAsync::RunShortLambdaOnGameThread], with what
    each one captures and uses: [DeviceProperties], [CurrentPolicy] and
    [CurrentMode] are copies taken by the handler; [DeviceFailureEvent],
    [LogEvent], [ConfigChangeEvent] and [ConfigResponseEvent] are the event
    pointers the handler was called with. *)
Inductive Task :=
| TaskDeviceFound (Context : ptr) (DeviceProperties : LEAP_DEVICE_INFO)
| TaskDeviceLost (Context : ptr)
| TaskDeviceFailure (Context : ptr) (DeviceFailureEvent : ptr)
| TaskLog (Context : ptr) (LogEvent : ptr)
| TaskPolicy (Context : ptr) (CurrentPolicy : N)
| TaskTrackingMode (Context : ptr) (CurrentMode : N)
| TaskConfigChange (Context : ptr) (ConfigChangeEvent : ptr)
| TaskConfigResponse (Context : ptr) (ConfigResponseEvent : ptr).

(** The calls of [LeapWrapperCallbackInterface]. *)
Inductive Callback :=
| OnConnect
| OnConnectionLost
| OnDeviceFound (info : LEAP_DEVICE_INFO)
| OnDeviceLost (serial_id : ptr)
| OnDeviceFailure (status : N) (device_handle : ptr)
| OnFrame (e : LEAP_TRACKING_EVENT)
| OnImage (e : LEAP_IMAGE_EVENT)
| OnLog (sev : N) (time : Z) (msg : ptr)
| OnPolicy (flags : N)
| OnTrackingMode (mode : N)
| OnConfigChange (request : N) (ok : bool)
| OnConfigResponse (request : N) (value : Z).

(** Where a piece of code runs: the message pump runs on the background
    thread, posted lambdas run on the game thread. *)
Inductive Thread := PumpThread | GameThread.

(** Externally visible effects, in program order. *)
Inductive Event :=
| EvMalloc (p : ptr) (len : N)
| EvFree (p : ptr)
| EvContextStore (p : ptr)
| EvDelegateStore (this : ptr) (delegate : ptr)
| EvLeapCreateConnection
| EvLeapOpenConnection (h : ptr)
| EvLeapDestroyConnection (h : ptr)
| EvLeapOpenDevice (ref : N)
| EvLeapGetDeviceInfo (h : ptr) (buffer : ptr) (len : N)
| EvLeapCloseDevice (h : ptr)
| EvLeapGetFrameSize (h : ptr) (time : Z)
| EvLeapInterpolateFrame (h : ptr) (time : Z) (buffer : ptr) (len : N)
| EvLeapPollConnection (h : ptr) (timeout_ms : N)
| EvSleep (ms : N)
| EvLock (l : ptr)
| EvUnlock (l : ptr)
| EvMemcpy (dst src : ptr) (len : N)
| EvRunOnBackGroundThread (this : ptr)
| EvRunOnGameThread (t : Task)
| EvWaitFor (seconds : N)
| EvWaitTimedOut
| EvFutureReset
| EvCall (th : Thread) (delegate : ptr) (c : Callback).

Record World := {
  LeapContextAtomic : ptr;            (* static std::atomic<FLeapWrapper*> *)
  wrappers : gmap N FLeapWrapper;     (* live FLeapWrapper objects by address *)
  heap : gmap N Block;                (* live malloc/new blocks by address *)
  brk : N;                            (* next address malloc hands out *)
  game_thread : list Task;            (* lambdas posted and not yet run *)
  trace : list Event;
}.

(** ** The monad of member functions: state with faults

    [None] is a fault: a dereference of a dead object or block, or a free of
    an address that is not a live block. *)
Definition M (A : Type) : Type := World → option (A * World).

#[global] Instance M_ret : MRet M := λ A a w, Some (a, w).
#[global] Instance M_bind : MBind M := λ A B f m w,
  match m w with
  | Some (a, w') => f a w'
  | None => None
  end.

Definition fault {A} : M A := λ _, None.

Definition emit (e : Event) : M unit := λ w,
  Some (tt, {| LeapContextAtomic := LeapContextAtomic w; wrappers := wrappers w;
               heap := heap w; brk := brk w; game_thread := game_thread w;
               trace := trace w ++ [e] |}).

(** [*this] read as a whole. *)
Definition deref (this : ptr) : M FLeapWrapper := λ w,
  match wrappers w !! this with
  | Some o => Some (o, w)
  | None => None
  end.

(** [this->field = v], with [f] the setter of the field. *)
Definition assign (this : ptr) (f : FLeapWrapper → FLeapWrapper) : M unit := λ w,
  match wrappers w !! this with
  | Some o =>
      Some (tt, {| LeapContextAtomic := LeapContextAtomic w;
                   wrappers := <[this := f o]> (wrappers w);
                   heap := heap w; brk := brk w; game_thread := game_thread w;
                   trace := trace w |})
  | None => None
  end.

Definition set_heap (h : gmap N Block) (w : World) : World :=
  {| LeapContextAtomic := LeapContextAtomic w; wrappers := wrappers w;
     heap := h; brk := brk w; game_thread := game_thread w; trace := trace w |}.

(** [malloc(len)] and [new T]: a fresh block with indeterminate contents.
    Allocation is taken to succeed. *)
Definition malloc (len : N) : M ptr := λ w,
  Some (brk w,
        {| LeapContextAtomic := LeapContextAtomic w; wrappers := wrappers w;
           heap := <[brk w := {| blk_size := len; blk_data := Uninit |}]> (heap w);
           brk := brk w + 1; game_thread := game_thread w;
           trace := trace w ++ [EvMalloc (brk w) len] |}).

(** [free(p)] and [delete p]: nothing on a null pointer, a fault on an address
    that is not a live block. *)
Definition free (p : ptr) : M unit := λ w,
  if is_null p then Some (tt, w)
  else match heap w !! p with
       | Some _ =>
           Some (tt, {| LeapContextAtomic := LeapContextAtomic w;
                        wrappers := wrappers w; heap := delete p (heap w);
                        brk := brk w; game_thread := game_thread w;
                        trace := trace w ++ [EvFree p] |})
       | None => None
       end.

(** [*p] read. *)
Definition load (p : ptr) : M Data := λ w,
  match heap w !! p with
  | Some b => Some (blk_data b, w)
  | None => None
  end.

(** [*p = d]. *)
Definition store (p : ptr) (d : Data) : M unit := λ w,
  match heap w !! p with
  | Some b =>
      Some (tt, set_heap (<[p := {| blk_size := blk_size b; blk_data := d |}]> (heap w)) w)
  | None => None
  end.

(** [LeapContextAtomic.store] and [.load]. *)
Definition SetLeapContextPtr (InContext : ptr) : M unit := λ w,
  Some (tt, {| LeapContextAtomic := InContext; wrappers := wrappers w;
               heap := heap w; brk := brk w; game_thread := game_thread w;
               trace := trace w ++ [EvContextStore InContext] |}).

(** [CallbackDelegate = d]: the member is read by the pump thread and by the
    game thread, so the write is recorded as an effect. *)
Definition store_CallbackDelegate (this : ptr) (d : ptr) : M unit :=
  assign this (set_CallbackDelegate d);;
  emit (EvDelegateStore this d).

Definition LeapContextAtomic_load : M ptr := λ w, Some (LeapContextAtomic w, w).

(** [FLeapAsync::RunShortLambdaOnGameThread]: the lambda is queued. *)
Definition RunShortLambdaOnGameThread (t : Task) : M unit := λ w,
  Some (tt, {| LeapContextAtomic := LeapContextAtomic w; wrappers := wrappers w;
               heap := heap w; brk := brk w; game_thread := game_thread w ++ [t];
               trace := trace w ++ [EvRunOnGameThread t] |}).

(** ** The context validity guard *)

Definition GetCallbackDelegate (this : ptr) : M ptr :=
  o ← deref this; mret (CallbackDelegate o).

(** [IsLeapContextValid]: [&&] evaluates its right operand, which dereferences
    [InContext], only when the pointers are equal. *)
Definition IsLeapContextValid (InContext : ptr) : M bool :=
  CachedContext ← LeapContextAtomic_load;
  if InContext =? CachedContext
  then d ← GetCallbackDelegate InContext; mret (negb (is_null d))
  else mret false.

(** Typed reads: a fault when the block holds something else. *)
Definition load_DeviceInfo (p : ptr) : M LEAP_DEVICE_INFO :=
  d ← load p;
  match d with DDeviceInfo i => mret i | _ => fault end.

Definition load_ImageDescription (p : ptr) : M LEAP_IMAGE_FRAME_DESCRIPTION :=
  d ← load p;
  match d with DImageDescription i => mret i | _ => fault end.

Definition load_DeviceFailureEvent (p : ptr) : M LEAP_DEVICE_FAILURE_EVENT :=
  d ← load p;
  match d with DDeviceFailureEvent e => mret e | _ => fault end.

Definition load_LogEvent (p : ptr) : M LEAP_LOG_EVENT :=
  d ← load p;
  match d with DLogEvent e => mret e | _ => fault end.

Definition load_ConfigChangeEvent (p : ptr) : M LEAP_CONFIG_CHANGE_EVENT :=
  d ← load p;
  match d with DConfigChangeEvent e => mret e | _ => fault end.

Definition load_ConfigResponseEvent (p : ptr) : M LEAP_CONFIG_RESPONSE_EVENT :=
  d ← load p;
  match d with DConfigResponseEvent e => mret e | _ => fault end.

(** [FCriticalSection::Lock] and [Unlock] through the [DataLock] pointer. *)
Definition Lock (l : ptr) : M unit :=
  d ← load l;
  match d with DCriticalSection => emit (EvLock l) | _ => fault end.

Definition Unlock (l : ptr) : M unit :=
  d ← load l;
  match d with DCriticalSection => emit (EvUnlock l) | _ => fault end.

(** ** What the sources do not declare

    [LeapC.h] and [LeapWrapper.h] are not among the sources.  The sizes of
    the structs that the wrapper allocates with [sizeof], and the width of the
    unsigned [buffer_len] field, are parameters of the model. *)
Record ABI := {
  sizeof_LEAP_DEVICE_INFO : N;
  sizeof_LEAP_TRACKING_EVENT : N;
  sizeof_LEAP_HAND : N;
  sizeof_LEAP_IMAGE_FRAME_DESCRIPTION : N;
  sizeof_FCriticalSection : N;
  buffer_len_bits : N;
}.

(** The answers of the tracking service to the calls a member function makes. *)
Record ConnectionService := {
  create_result : eLeapRS;          (* of LeapCreateConnection *)
  created_handle : option ptr;      (* written to ConnectionHandle, if written *)
  open_result : eLeapRS;            (* of LeapOpenConnection *)
}.

Record DeviceInfoAnswer := {
  info_result : eLeapRS;            (* of LeapGetDeviceInfo *)
  answered_length : N;              (* serial_length after the call *)
  answered_caps : N;                (* the capability fields after the call *)
}.

Record DeviceService := {
  open_device_result : eLeapRS;     (* of LeapOpenDevice *)
  opened_device : option ptr;       (* written to DeviceHandle, if written *)
  first_info : DeviceInfoAnswer;
  second_info : DeviceInfoAnswer;
}.

(** [&ConnectionHandle], the value [OpenConnection] returns. *)
Inductive member_address := AddressOf_ConnectionHandle (this : ptr).

(** ** The member functions *)

Section LeapWrapper.

Context (abi : ABI).

(** [FLeapWrapper::FLeapWrapper].  [members] is the state of the data members
    when the constructor body starts: what the default member initialisers of
    the class declaration, which is not among the sources, leave in them. *)
Definition FLeapWrapper_ctor (this : ptr) (members : FLeapWrapper) : M unit :=
  (λ w, Some (tt, {| LeapContextAtomic := LeapContextAtomic w;
                     wrappers := <[this := set_bIsRunning false members]> (wrappers w);
                     heap := heap w; brk := brk w; game_thread := game_thread w;
                     trace := trace w |}));;
  assign this (set_InterpolatedFrame nullptr);;
  assign this (set_InterpolatedFrameSize 0);;
  l ← malloc (sizeof_FCriticalSection abi);
  store l DCriticalSection;;
  assign this (set_DataLock l).

(** The end of the object's lifetime, after the destructor body. *)
Definition end_of_lifetime (this : ptr) : M unit := λ w,
  Some (tt, {| LeapContextAtomic := LeapContextAtomic w;
               wrappers := delete this (wrappers w);
               heap := heap w; brk := brk w; game_thread := game_thread w;
               trace := trace w |}).

Definition SetCallbackDelegate (this : ptr) (InCallbackDelegate : ptr) : M unit :=
  store_CallbackDelegate this InCallbackDelegate;;
  SetLeapContextPtr this.

(** [FLeapWrapper::OpenConnection].  The background lambda is recorded as
    started; its body is [ServiceMessageLoop] followed by
    [CloseConnectionHandle]. *)
Definition OpenConnection (this : ptr) (InCallbackDelegate : ptr)
    (svc : ConnectionService) : M member_address :=
  SetCallbackDelegate this InCallbackDelegate;;
  emit EvLeapCreateConnection;;
  match created_handle svc with
  | Some h => assign this (set_ConnectionHandle h)
  | None => mret tt
  end;;
  (if is_Success (create_result svc) then
     o ← deref this;
     emit (EvLeapOpenConnection (ConnectionHandle o));;
     if is_Success (open_result svc) then
       assign this (set_bIsRunning true);;
       emit (EvRunOnBackGroundThread this);;
       assign this (set_ProducerLambdaFuture true)
     else mret tt
   else mret tt);;
  mret (AddressOf_ConnectionHandle this).

Definition CleanupLastDevice (this : ptr) : M unit :=
  o ← deref this;
  (if negb (is_null (CurrentDeviceInfo o)) then
     d ← load_DeviceInfo (CurrentDeviceInfo o);
     free (serial d)
   else mret tt);;
  assign this (set_CurrentDeviceInfo nullptr).

(** [ProducerLambdaFuture.WaitFor(span)]: the caller blocks until the lambda
    of the pump has returned, for at most the given time span.  That lambda
    returns once [ServiceMessageLoop] has left its loop, which it does only
    after it has read a cleared [bIsRunning].  A wait on a running task that
    starts while the flag is still set is therefore bound to run out of time,
    and is recorded as such; of a wait that starts with the flag cleared
    nothing is recorded beyond the wait itself. *)
Definition WaitFor (this : ptr) (seconds : N) : M unit :=
  emit (EvWaitFor seconds);;
  o ← deref this;
  if bIsRunning o && ProducerLambdaFuture o then emit EvWaitTimedOut else mret tt.

(** [FLeapWrapper::CloseConnection].  [Reset] leaves the future invalid. *)
Definition CloseConnection (this : ptr) : M unit :=
  o ← deref this;
  if negb (bIsConnected o) then mret tt
  else
    assign this (set_bIsConnected false);;
    assign this (set_bIsRunning false);;
    CleanupLastDevice this;;
    WaitFor this 3;;
    emit EvFutureReset;;
    assign this (set_ProducerLambdaFuture false);;
    store_CallbackDelegate this nullptr.

Definition CloseConnectionHandle (this : ptr) (InConnectionHandle : member_address)
    : M unit :=
  assign this (set_bIsRunning false);;
  assign this (set_bIsConnected false);;
  let 'AddressOf_ConnectionHandle obj := InConnectionHandle in
  o ← deref obj;
  emit (EvLeapDestroyConnection (ConnectionHandle o)).

(** [FLeapWrapper::~FLeapWrapper]. *)
Definition FLeapWrapper_dtor (this : ptr) : M unit :=
  o ← deref this;
  free (DataLock o);;
  assign this (set_DataLock nullptr);;
  assign this (set_bIsRunning false);;
  SetLeapContextPtr nullptr;;
  store_CallbackDelegate this nullptr;;
  assign this (set_LatestFrame nullptr);;
  assign this (set_ConnectionHandle nullptr);;
  o ← deref this;
  (if bIsConnected o then CloseConnection this else mret tt);;
  o ← deref this;
  (if negb (is_null (ImageDescription o)) then
     d ← load_ImageDescription (ImageDescription o);
     (if negb (is_null (pBuffer d)) then free (pBuffer d) else mret tt);;
     free (ImageDescription o)
   else mret tt);;
  end_of_lifetime this.

Definition GetFrame (this : ptr) : M ptr :=
  o ← deref this;
  Lock (DataLock o);;
  o ← deref this;
  let currentFrame := LatestFrame o in
  Unlock (DataLock o);;
  mret currentFrame.

Definition GetDeviceProperties (this : ptr) : M ptr :=
  o ← deref this;
  Lock (DataLock o);;
  o ← deref this;
  let currentDevice := CurrentDeviceInfo o in
  Unlock (DataLock o);;
  mret currentDevice.

(** [FLeapWrapper::GetInterpolatedFrameAtTime].  [FrameSize] is the value of
    the local of that name after [LeapGetFrameSize] returned: the size the
    service reported, 0 when it reported none. *)
Definition GetInterpolatedFrameAtTime (this : ptr) (TimeStamp : Z) (FrameSize : N)
    : M ptr :=
  o ← deref this;
  emit (EvLeapGetFrameSize (ConnectionHandle o) TimeStamp);;
  (if 0 <? FrameSize then
     (if negb (FrameSize =? InterpolatedFrameSize o) then
        (if negb (is_null (InterpolatedFrame o))
         then free (InterpolatedFrame o) else mret tt);;
        p ← malloc FrameSize;
        assign this (set_InterpolatedFrame p)
      else mret tt);;
     assign this (set_InterpolatedFrameSize FrameSize);;
     o ← deref this;
     emit (EvLeapInterpolateFrame (ConnectionHandle o) TimeStamp
             (InterpolatedFrame o) (InterpolatedFrameSize o))
   else mret tt);;
  o ← deref this;
  mret (InterpolatedFrame o).

(** Conversion of an unsigned value to [int] (32 bits, two's complement). *)
Definition to_int (v : N) : Z :=
  ((Z.of_N v + 2 ^ 31) mod 2 ^ 32 - 2 ^ 31)%Z.

(** [ImageDescription->buffer_len != OldLength]: an unsigned field narrower
    than [int] is promoted to [int]; otherwise [OldLength] is converted to the
    unsigned type of the field. *)
Definition buffer_len_differs (len : N) (OldLength : Z) : bool :=
  if buffer_len_bits abi <? 32
  then negb (Z.of_N len =? OldLength)%Z
  else negb (Z.of_N len =? OldLength mod 2 ^ Z.of_N (buffer_len_bits abi))%Z.

(** [FLeapWrapper::EnableImageStream].  [indeterminate] is what the members of
    a freshly allocated description hold before they are assigned. *)
Definition EnableImageStream (this : ptr) (bEnable : bool)
    (indeterminate : LEAP_IMAGE_FRAME_DESCRIPTION) : M unit :=
  o ← deref this;
  (if is_null (ImageDescription o) then
     p ← malloc (sizeof_LEAP_IMAGE_FRAME_DESCRIPTION abi);
     store p (DImageDescription indeterminate);;
     assign this (set_ImageDescription p);;
     store p (DImageDescription {| buffer_len := buffer_len indeterminate;
                                   pBuffer := nullptr |})
   else mret tt);;
  o ← deref this;
  d ← load_ImageDescription (ImageDescription o);
  let OldLength := to_int (buffer_len d) in
  if buffer_len_differs (buffer_len d) OldLength then
    (if negb (is_null (pBuffer d)) then free (pBuffer d) else mret tt);;
    b ← malloc (buffer_len d);
    store (ImageDescription o)
          (DImageDescription {| buffer_len := buffer_len d; pBuffer := b |})
  else mret tt.

Definition with_serial (s : ptr) (d : LEAP_DEVICE_INFO) : LEAP_DEVICE_INFO :=
  {| info_size := info_size d; info_caps := info_caps d;
     serial_length := serial_length d; serial := s |}.

(** [FLeapWrapper::SetDevice]; [DeviceProps] is the struct behind the pointer
    argument.  [memcpy] is recorded with its destination, its source and its
    length.  Whether the source holds that many bytes is up to the caller's
    buffer and is not decided here: it is read off the trace
    ([copies_within]). *)
Definition SetDevice (this : ptr) (DeviceProps : LEAP_DEVICE_INFO) : M unit :=
  o ← deref this;
  Lock (DataLock o);;
  (if negb (is_null (CurrentDeviceInfo o)) then
     d ← load_DeviceInfo (CurrentDeviceInfo o);
     free (serial d)
   else
     p ← malloc (sizeof_LEAP_DEVICE_INFO abi);
     assign this (set_CurrentDeviceInfo p));;
  o ← deref this;
  store (CurrentDeviceInfo o) (DDeviceInfo DeviceProps);;
  s ← malloc (serial_length DeviceProps);
  store (CurrentDeviceInfo o) (DDeviceInfo (with_serial s DeviceProps));;
  emit (EvMemcpy s (serial DeviceProps) (serial_length DeviceProps));;
  Unlock (DataLock o).

Definition SetFrame (this : ptr) (Frame : LEAP_TRACKING_EVENT) : M unit :=
  o ← deref this;
  Lock (DataLock o);;
  (if is_null (LatestFrame o) then
     p ← malloc (sizeof_LEAP_TRACKING_EVENT abi);
     assign this (set_LatestFrame p)
   else mret tt);;
  o ← deref this;
  store (LatestFrame o) (DTrackingEvent Frame);;
  Unlock (DataLock o).

(** *** Event handlers *)

(** A direct call through [CallbackDelegate], guarded by [if (CallbackDelegate)]. *)
Definition call_if_delegate (this : ptr) (th : Thread) (c : Callback) : M unit :=
  o ← deref this;
  if negb (is_null (CallbackDelegate o))
  then emit (EvCall th (CallbackDelegate o) c)
  else mret tt.

Definition HandleConnectionEvent (this : ptr) : M unit :=
  assign this (set_bIsConnected true);;
  call_if_delegate this PumpThread OnConnect.

Definition HandleConnectionLostEvent (this : ptr) : M unit :=
  assign this (set_bIsConnected false);;
  CleanupLastDevice this;;
  call_if_delegate this PumpThread OnConnectionLost.

(** [LeapGetDeviceInfo(DeviceHandle, &DeviceProperties)]: the service answers
    with a result and fills the struct; the [serial] pointer stays. *)
Definition LeapGetDeviceInfo (h : ptr) (props : LEAP_DEVICE_INFO)
    (a : DeviceInfoAnswer) : M (eLeapRS * LEAP_DEVICE_INFO) :=
  emit (EvLeapGetDeviceInfo h (serial props) (serial_length props));;
  mret (info_result a,
        {| info_size := info_size props; info_caps := answered_caps a;
           serial_length := answered_length a; serial := serial props |}).

(** The tail of [HandleDeviceEvent], from [SetDevice] on. *)
Definition deliver_device (this : ptr) (DeviceProperties : LEAP_DEVICE_INFO)
    : M unit :=
  SetDevice this DeviceProperties;;
  o ← deref this;
  (if negb (is_null (CallbackDelegate o))
   then RunShortLambdaOnGameThread (TaskDeviceFound this DeviceProperties)
   else free (serial DeviceProperties));;
  o ← deref this;
  emit (EvLeapCloseDevice (DeviceHandle o)).

(** [FLeapWrapper::HandleDeviceEvent]. *)
Definition HandleDeviceEvent (this : ptr) (DeviceEvent : LEAP_DEVICE_EVENT)
    (svc : DeviceService) : M unit :=
  emit (EvLeapOpenDevice (device DeviceEvent));;
  match opened_device svc with
  | Some h => assign this (set_DeviceHandle h)
  | None => mret tt
  end;;
  if negb (is_Success (open_device_result svc)) then mret tt
  else
    o ← deref this;
    buf ← malloc 64;
    let DeviceProperties :=
      {| info_size := sizeof_LEAP_DEVICE_INFO abi; info_caps := 0;
         serial_length := 64; serial := buf |} in
    '(Result, DeviceProperties) ←
      LeapGetDeviceInfo (DeviceHandle o) DeviceProperties (first_info svc);
    if is_InsufficientBuffer Result then
      free (serial DeviceProperties);;
      buf ← malloc (serial_length DeviceProperties);
      let DeviceProperties := with_serial buf DeviceProperties in
      '(Result, DeviceProperties) ←
        LeapGetDeviceInfo (DeviceHandle o) DeviceProperties (second_info svc);
      if negb (is_Success Result) then
        free (serial DeviceProperties)
      else deliver_device this DeviceProperties
    else deliver_device this DeviceProperties.

(** The handlers that only post a lambda to the game thread. *)
Definition post_if_delegate (this : ptr) (t : Task) : M unit :=
  o ← deref this;
  if negb (is_null (CallbackDelegate o))
  then RunShortLambdaOnGameThread t
  else mret tt.

Definition HandleDeviceLostEvent (this : ptr) (DeviceEvent : LEAP_DEVICE_EVENT)
    : M unit :=
  post_if_delegate this (TaskDeviceLost this).

Definition HandleDeviceFailureEvent (this : ptr) (DeviceFailureEvent : ptr)
    : M unit :=
  post_if_delegate this (TaskDeviceFailure this DeviceFailureEvent).

Definition HandleTrackingEvent (this : ptr) (TrackingEvent : LEAP_TRACKING_EVENT)
    : M unit :=
  SetFrame this TrackingEvent;;
  call_if_delegate this PumpThread (OnFrame TrackingEvent).

Definition HandleImageEvent (this : ptr) (ImageEvent : LEAP_IMAGE_EVENT) : M unit :=
  call_if_delegate this PumpThread (OnImage ImageEvent).

Definition HandleLogEvent (this : ptr) (LogEvent : ptr) : M unit :=
  post_if_delegate this (TaskLog this LogEvent).

Definition HandlePolicyEvent (this : ptr) (PolicyEvent : LEAP_POLICY_EVENT)
    : M unit :=
  post_if_delegate this (TaskPolicy this (current_policy PolicyEvent)).

Definition HandleTrackingModeEvent (this : ptr)
    (TrackingModeEvent : LEAP_TRACKING_MODE_EVENT) : M unit :=
  post_if_delegate this
    (TaskTrackingMode this (current_tracking_mode TrackingModeEvent)).

Definition HandleConfigChangeEvent (this : ptr) (ConfigChangeEvent : ptr)
    : M unit :=
  post_if_delegate this (TaskConfigChange this ConfigChangeEvent).

Definition HandleConfigResponseEvent (this : ptr) (ConfigResponseEvent : ptr)
    : M unit :=
  post_if_delegate this (TaskConfigResponse this ConfigResponseEvent).

(** *** The lambdas, run on the game thread *)

(** [if (IsLeapContextValid(Context)) Context->CallbackDelegate->c]. *)
Definition guarded_call (Context : ptr) (c : M Callback) : M unit :=
  ok ← IsLeapContextValid Context;
  if (ok : bool) then
    o ← deref Context;
    cb ← c;
    emit (EvCall GameThread (CallbackDelegate o) cb)
  else mret tt.

(** The bodies of the lambdas.  The arguments of a call are evaluated when the
    lambda runs: a captured event pointer is read then. *)
Definition run_task (t : Task) : M unit :=
  match t with
  | TaskDeviceFound Context DeviceProperties =>
      guarded_call Context (mret (OnDeviceFound DeviceProperties));;
      free (serial DeviceProperties)
  | TaskDeviceLost Context =>
      guarded_call Context
        (o ← deref Context;
         d ← load_DeviceInfo (CurrentDeviceInfo o);
         mret (OnDeviceLost (serial d)))
  | TaskDeviceFailure Context DeviceFailureEvent =>
      guarded_call Context
        (e ← load_DeviceFailureEvent DeviceFailureEvent;
         mret (OnDeviceFailure (failure_status e) (hDevice e)))
  | TaskLog Context LogEvent =>
      guarded_call Context
        (e ← load_LogEvent LogEvent;
         mret (OnLog (severity e) (timestamp e) (message e)))
  | TaskPolicy Context CurrentPolicy =>
      guarded_call Context (mret (OnPolicy CurrentPolicy))
  | TaskTrackingMode Context CurrentMode =>
      guarded_call Context (mret (OnTrackingMode CurrentMode))
  | TaskConfigChange Context ConfigChangeEvent =>
      guarded_call Context
        (e ← load_ConfigChangeEvent ConfigChangeEvent;
         mret (OnConfigChange (change_requestID e) (change_status e)))
  | TaskConfigResponse Context ConfigResponseEvent =>
      guarded_call Context
        (e ← load_ConfigResponseEvent ConfigResponseEvent;
         mret (OnConfigResponse (response_requestID e) (response_value e)))
  end.

Fixpoint run_tasks (ts : list Task) : M unit :=
  match ts with
  | [] => mret tt
  | t :: ts => run_task t;; run_tasks ts
  end.

(** The game thread takes the lambdas posted so far and runs them in order. *)
Definition game_thread_tick : M unit := λ w,
  run_tasks (game_thread w)
    {| LeapContextAtomic := LeapContextAtomic w; wrappers := wrappers w;
       heap := heap w; brk := brk w; game_thread := []; trace := trace w |}.

(** *** The message pump *)

(** One return of [LeapPollConnection], with what happens around it: the
    result and message, the event the service has placed behind the event
    pointer of the message (for the messages given with their pointer), the
    answers of the service to the calls a device handler makes, and whether
    another thread clears [bIsRunning] while the poll blocks or while the
    message is handled. *)
Record Poll := {
  poll_result : eLeapRS;
  poll_msg : LEAP_CONNECTION_MESSAGE;
  poll_event : Data;
  poll_device_service : DeviceService;
  stop_during_poll : bool;
  stop_during_dispatch : bool;
}.

(** The event pointer of a message that is given with its pointer. *)
Definition event_pointer (Msg : LEAP_CONNECTION_MESSAGE) : option ptr :=
  match Msg with
  | Msg_DeviceFailure p | Msg_LogEvent p | Msg_ConfigChange p
  | Msg_ConfigResponse p => Some p
  | _ => None
  end.

Definition is_event (d : Data) : bool :=
  match d with
  | DDeviceFailureEvent _ | DLogEvent _ | DConfigChangeEvent _
  | DConfigResponseEvent _ => true
  | _ => false
  end.

(** The service writes an event into memory of its own: a block that holds
    an event is overwritten; the service does not write anywhere else, so a
    pointer to anything else keeps pointing to what was there. *)
Definition service_store (p : ptr) (d : Data) : M unit := λ w,
  match heap w !! p with
  | Some b =>
      if is_event (blk_data b) && is_event d
      then Some (tt, set_heap (<[p := {| blk_size := blk_size b; blk_data := d |}]>
                                 (heap w)) w)
      else Some (tt, w)
  | None => Some (tt, w)
  end.

(** [LeapPollConnection(Handle, Timeout, &Msg)] returning [poll_result]: on
    success [Msg] is the message, and its event is in the memory its event
    pointer refers to. *)
Definition LeapPollConnection (Handle : ptr) (Timeout : N) (p : Poll) : M unit :=
  emit (EvLeapPollConnection Handle Timeout);;
  if is_Success (poll_result p) then
    match event_pointer (poll_msg p) with
    | Some q => service_store q (poll_event p)
    | None => mret tt
    end
  else mret tt.

(** [bIsRunning = false], written by another thread. *)
Definition stop_request (this : ptr) (b : bool) : M unit :=
  if b then assign this (set_bIsRunning false) else mret tt.

(** The [switch (Msg.type)] of [ServiceMessageLoop]. *)
Definition dispatch (this : ptr) (Msg : LEAP_CONNECTION_MESSAGE)
    (svc : DeviceService) : M unit :=
  match Msg with
  | Msg_Connection => HandleConnectionEvent this
  | Msg_ConnectionLost => HandleConnectionLostEvent this
  | Msg_Device e => HandleDeviceEvent this e svc
  | Msg_DeviceLost e => HandleDeviceLostEvent this e
  | Msg_DeviceFailure e => HandleDeviceFailureEvent this e
  | Msg_Tracking e => HandleTrackingEvent this e
  | Msg_Image e => HandleImageEvent this e
  | Msg_LogEvent e => HandleLogEvent this e
  | Msg_Policy e => HandlePolicyEvent this e
  | Msg_TrackingMode e => HandleTrackingModeEvent this e
  | Msg_ConfigChange e => HandleConfigChangeEvent this e
  | Msg_ConfigResponse e => HandleConfigResponseEvent this e
  | Msg_Other _ => mret tt
  end.

(** How a run of the loop over a finite sequence of polls ends: the loop was
    left, with the polls that were not made, or every poll of the sequence
    returned and the loop is about to poll again. *)
Inductive LoopEnd :=
| LoopLeft (unused : list Poll)
| LoopPolling.

Definition Timeout : N := 200.

(** The [while (bIsRunning)] loop of [ServiceMessageLoop]. *)
Fixpoint message_loop (this : ptr) (Handle : ptr) (polls : list Poll)
    : M LoopEnd :=
  o ← deref this;
  if negb (bIsRunning o) then mret (LoopLeft polls)
  else
    match polls with
    | [] => mret LoopPolling
    | p :: rest =>
        LeapPollConnection Handle Timeout p;;
        stop_request this (stop_during_poll p);;
        o ← deref this;
        if negb (bIsRunning o) then mret (LoopLeft rest)
        else if negb (is_Success (poll_result p)) then
          (if negb (bIsConnected o) then emit (EvSleep 100) else mret tt);;
          message_loop this Handle rest
        else
          dispatch this (poll_msg p) (poll_device_service p);;
          stop_request this (stop_during_dispatch p);;
          message_loop this Handle rest
    end.

Definition ServiceMessageLoop (this : ptr) (polls : list Poll) : M LoopEnd :=
  o ← deref this;
  let Handle := ConnectionHandle o in
  message_loop this Handle polls.

End LeapWrapper.

(** ** Observations on traces and heaps *)

Definition is_malloc (e : Event) : bool :=
  match e with EvMalloc _ _ => true | _ => false end.

Definition is_close_device (e : Event) : bool :=
  match e with EvLeapCloseDevice _ => true | _ => false end.

(** The allocations of a trace. *)
Definition mallocs (t : list Event) : list Event := List.filter is_malloc t.

(** The size of the live block at [p]; 0 when there is none. *)
Definition block_size (w : World) (p : ptr) : N :=
  match heap w !! p with
  | Some b => blk_size b
  | None => 0
  end.

(** Modelled from the spec: the size of a tracking frame as the service
    produces it, a "fixed-plus-variable-size record": the fixed event struct
    followed by one hand record for each hand.  The sources hold no
    computation of it. *)
Definition tracking_frame_size (abi : ABI) (e : LEAP_TRACKING_EVENT) : N :=
  sizeof_LEAP_TRACKING_EVENT abi + nHands e * sizeof_LEAP_HAND abi.

(** ** Invariants of a wrapper between calls *)

(** [malloc] hands out addresses that are not null and not in use. *)
Definition heap_ok (w : World) : Prop :=
  brk w ≠ nullptr ∧ ∀ p, brk w ≤ p → heap w !! p = None.

Definition lock_ok (o : FLeapWrapper) (w : World) : Prop :=
  ∃ sz, heap w !! DataLock o = Some {| blk_size := sz; blk_data := DCriticalSection |}.

(** [LatestFrame] is null or the block [SetFrame] allocated and filled. *)
Definition frame_ok (abi : ABI) (o : FLeapWrapper) (w : World) : Prop :=
  LatestFrame o = nullptr ∨
  ∃ e, heap w !! LatestFrame o =
         Some {| blk_size := sizeof_LEAP_TRACKING_EVENT abi;
                 blk_data := DTrackingEvent e |}.

(** [CurrentDeviceInfo] is null or the struct [SetDevice] filled, whose
    [serial] is null or a live buffer of its own. *)
Definition device_ok (o : FLeapWrapper) (w : World) : Prop :=
  CurrentDeviceInfo o = nullptr ∨
  ∃ sz d, heap w !! CurrentDeviceInfo o =
            Some {| blk_size := sz; blk_data := DDeviceInfo d |} ∧
          (serial d = nullptr ∨
           ∃ len, heap w !! serial d = Some {| blk_size := len; blk_data := Uninit |}).

(** [InterpolatedFrame] is null with a recorded size of 0, or a live block of
    the recorded size. *)
Definition interpolation_ok (o : FLeapWrapper) (w : World) : Prop :=
  (InterpolatedFrame o = nullptr ∧ InterpolatedFrameSize o = 0) ∨
  ∃ b, heap w !! InterpolatedFrame o = Some b ∧
       blk_size b = InterpolatedFrameSize o.

(** What the message pump relies on. *)
Definition pump_ok (abi : ABI) (this : ptr) (w : World) : Prop :=
  ∃ o, wrappers w !! this = Some o ∧ heap_ok w ∧ lock_ok o w ∧
       frame_ok abi o w ∧ device_ok o w.


Definition no_stop (p : Poll) : Prop :=
  stop_during_poll p = false ∧ stop_during_dispatch p = false.

(** ** Example inputs *)

(** An instance of the parameters: a 64-bit target, with [buffer_len] the
    [uint64_t] field of LeapC. *)
Definition x64 : ABI :=
  {| sizeof_LEAP_DEVICE_INFO := 48; sizeof_LEAP_TRACKING_EVENT := 56;
     sizeof_LEAP_HAND := 456; sizeof_LEAP_IMAGE_FRAME_DESCRIPTION := 32;
     sizeof_FCriticalSection := 40; buffer_len_bits := 64 |}.

(** A world with no object and an empty heap. *)
Definition boot : World :=
  {| LeapContextAtomic := nullptr; wrappers := ∅; heap := ∅; brk := 1;
     game_thread := []; trace := [] |}.

(** Data members that are all null, false or zero. *)
Definition zeroed : FLeapWrapper :=
  {| bIsRunning := false; bIsConnected := false; CallbackDelegate := nullptr;
     ConnectionHandle := nullptr; DeviceHandle := nullptr; LatestFrame := nullptr;
     CurrentDeviceInfo := nullptr; InterpolatedFrame := nullptr;
     InterpolatedFrameSize := 0; DataLock := nullptr; ImageDescription := nullptr;
     ProducerLambdaFuture := false |}.

(** The address of the example wrapper and of its callback sink. *)
Definition session : ptr := 1000.
Definition sink : ptr := 500.

(** The world [m] leaves when run from [w]; [w] itself on a fault. *)
Definition after (m : M unit) (w : World) : World :=
  match m w with
  | Some (_, w') => w'
  | None => w
  end.

(** The running flag of a wrapper is the same in two worlds. *)
Definition running_same (this : ptr) (w w' : World) : Prop :=
  bIsRunning <$> wrappers w !! this = bIsRunning <$> wrappers w' !! this.

(** The buffer-length field that [EnableImageStream] reads compares equal to
    its [int] copy: the one of the description in place, or the
    indeterminate one of the description about to be allocated. *)
Definition description_converts (abi : ABI) (o : FLeapWrapper) (w : World)
    (indeterminate : LEAP_IMAGE_FRAME_DESCRIPTION) : Prop :=
  if is_null (ImageDescription o)
  then buffer_len_differs abi (buffer_len indeterminate)
         (to_int (buffer_len indeterminate)) = false
  else ∃ sz d, heap w !! ImageDescription o =
                 Some {| blk_size := sz; blk_data := DImageDescription d |} ∧
               buffer_len_differs abi (buffer_len d) (to_int (buffer_len d)) = false.

(** The device-info queries of a trace. *)
Definition is_get_device_info (e : Event) : bool :=
  match e with EvLeapGetDeviceInfo _ _ _ => true | _ => false end.

(** The service answers of a successful connection and of a device whose
    serial fits the first buffer. *)
Definition service_up : ConnectionService :=
  {| create_result := eLeapRS_Success; created_handle := Some 7000;
     open_result := eLeapRS_Success |}.

Definition service_down : ConnectionService :=
  {| create_result := eLeapRS_UnknownError; created_handle := None;
     open_result := eLeapRS_Success |}.

Definition device_up : DeviceService :=
  {| open_device_result := eLeapRS_Success; opened_device := Some 77;
     first_info := {| info_result := eLeapRS_Success; answered_length := 12;
                      answered_caps := 5 |};
     second_info := {| info_result := eLeapRS_Success; answered_length := 12;
                       answered_caps := 5 |} |}.

(** A device whose first query asks for a larger buffer and whose second
    query fails. *)
Definition device_retry_fails : DeviceService :=
  {| open_device_result := eLeapRS_Success; opened_device := Some 77;
     first_info := {| info_result := eLeapRS_InsufficientBuffer;
                      answered_length := 100; answered_caps := 0 |};
     second_info := {| info_result := eLeapRS_UnknownError;
                       answered_length := 100; answered_caps := 0 |} |}.

(** A device whose first query fails outright. *)
Definition device_query_fails : DeviceService :=
  {| open_device_result := eLeapRS_Success; opened_device := Some 77;
     first_info := {| info_result := eLeapRS_UnknownError;
                      answered_length := 64; answered_caps := 0 |};
     second_info := {| info_result := eLeapRS_UnknownError;
                       answered_length := 64; answered_caps := 0 |} |}.

Definition no_hands : LEAP_TRACKING_EVENT :=
  {| tracking_frame_id := 1; nHands := 0; pHands := nullptr |}.
Definition two_hands : LEAP_TRACKING_EVENT :=
  {| tracking_frame_id := 2; nHands := 2; pHands := 9000 |}.

(** A wrapper right after construction. *)
Definition fresh : World := after (FLeapWrapper_ctor x64 session zeroed) boot.

(** The wrapper after a successful [OpenConnection]. *)
Definition running : World :=
  after (OpenConnection session sink service_up ≫= λ _, mret tt) fresh.

(** The wrapper after the pump handled a connection and a device event. *)
Definition connected : World :=
  after (HandleConnectionEvent session;;
         HandleDeviceEvent x64 session {| device := 1 |} device_up) running.

(** The wrapper after the game thread ran, a tracking event was handled, an
    interpolated frame was requested and the image stream was enabled. *)
Definition in_use : World :=
  after (game_thread_tick;;
         HandleTrackingEvent x64 session no_hands;;
         (GetInterpolatedFrameAtTime session 0 128 ≫= λ _, mret tt);;
         EnableImageStream x64 session true {| buffer_len := 0; pBuffer := 99 |})
        connected.

(** The wrapper object of a world; [zeroed] when there is none. *)
Definition object_of (this : ptr) (w : World) : FLeapWrapper :=
  default zeroed (wrappers w !! this).

(** The wrapper after a first tracking event. *)
Definition tracked : World :=
  after (HandleTrackingEvent x64 session no_hands) running.

(** The events a computation added to the trace. *)
Definition added (w w' : World) : list Event :=
  drop (length (trace w)) (trace w').

(** A garbage description whose length does not fit an [int]. *)
Definition garbage : LEAP_IMAGE_FRAME_DESCRIPTION :=
  {| buffer_len := 2 ^ 32; pBuffer := 99 |}.

(** * Result names, lambdas, example inputs and the details panel *)

(** ** Result names *)

(** A value of the C enum [eLeapRS]: one of the enumerators, or some other
    integer. *)
Inductive eLeapRS_value :=
| Enumerator (r : eLeapRS)
| OtherValue (raw : Z).

(** [FLeapWrapper::ResultString]. *)
Definition ResultString (Result : eLeapRS_value) : string :=
  match Result with
  | Enumerator eLeapRS_Success => "eLeapRS_Success"
  | Enumerator eLeapRS_UnknownError => "eLeapRS_UnknownError"
  | Enumerator eLeapRS_InvalidArgument => "eLeapRS_InvalidArgument"
  | Enumerator eLeapRS_InsufficientResources => "eLeapRS_InsufficientResources"
  | Enumerator eLeapRS_InsufficientBuffer => "eLeapRS_InsufficientBuffer"
  | Enumerator eLeapRS_Timeout => "eLeapRS_Timeout"
  | Enumerator eLeapRS_NotConnected => "eLeapRS_NotConnected"
  | Enumerator eLeapRS_HandshakeIncomplete => "eLeapRS_HandshakeIncomplete"
  | Enumerator eLeapRS_BufferSizeOverflow => "eLeapRS_BufferSizeOverflow"
  | Enumerator eLeapRS_ProtocolError => "eLeapRS_ProtocolError"
  | Enumerator eLeapRS_InvalidClientID => "eLeapRS_InvalidClientID"
  | Enumerator eLeapRS_UnexpectedClosed => "eLeapRS_UnexpectedClosed"
  | Enumerator eLeapRS_UnknownImageFrameRequest => "eLeapRS_UnknownImageFrameRequest"
  | Enumerator eLeapRS_UnknownTrackingFrameID => "eLeapRS_UnknownTrackingFrameID"
  | Enumerator eLeapRS_RoutineIsNotSeer => "eLeapRS_RoutineIsNotSeer"
  | Enumerator eLeapRS_TimestampTooEarly => "eLeapRS_TimestampTooEarly"
  | Enumerator eLeapRS_ConcurrentPoll => "eLeapRS_ConcurrentPoll"
  | Enumerator eLeapRS_NotAvailable => "eLeapRS_NotAvailable"
  | Enumerator eLeapRS_NotStreaming => "eLeapRS_NotStreaming"
  | Enumerator eLeapRS_CannotOpenDevice => "eLeapRS_CannotOpenDevice"
  | OtherValue _ => "unknown result type."
  end%string.

(** ** Deferred tasks and what they deliver *)

(** The [Context] a lambda captured. *)
Definition task_context (t : Task) : ptr :=
  match t with
  | TaskDeviceFound c _ | TaskDeviceLost c | TaskDeviceFailure c _
  | TaskLog c _ | TaskPolicy c _ | TaskTrackingMode c _
  | TaskConfigChange c _ | TaskConfigResponse c _ => c
  end.

(** The serial buffers that pending [OnDeviceFound] lambdas own. *)
Fixpoint pending_serials (ts : list Task) : list ptr :=
  match ts with
  | [] => []
  | TaskDeviceFound _ d :: ts => serial d :: pending_serials ts
  | _ :: ts => pending_serials ts
  end.

(** [free] on each pointer in turn. *)
Fixpoint free_all (ps : list ptr) : M unit :=
  match ps with
  | [] => mret tt
  | p :: ps => free p;; free_all ps
  end.

Definition is_free (e : Event) : bool :=
  match e with EvFree _ => true | _ => false end.

(** An event that hands something to the callback sink: a call, or a lambda
    posted to the game thread. *)
Definition is_delivery (e : Event) : bool :=
  match e with
  | EvCall _ _ _ | EvRunOnGameThread _ => true
  | _ => false
  end.

(** The lambda that the handler of a message posts, for the messages whose
    lambda delivers the event. *)
Definition deferred_task (this : ptr) (Msg : LEAP_CONNECTION_MESSAGE) : option Task :=
  match Msg with
  | Msg_DeviceFailure p => Some (TaskDeviceFailure this p)
  | Msg_LogEvent p => Some (TaskLog this p)
  | Msg_Policy e => Some (TaskPolicy this (current_policy e))
  | Msg_TrackingMode e => Some (TaskTrackingMode this (current_tracking_mode e))
  | Msg_ConfigChange p => Some (TaskConfigChange this p)
  | Msg_ConfigResponse p => Some (TaskConfigResponse this p)
  | _ => None
  end.

(** What memory holds at an address. *)
Definition data_at (h : gmap N Block) (p : ptr) : option Data := blk_data <$> h !! p.

(** The callback that the lambda of such a message makes when it runs on the
    heap [h]: with the copy the handler took, for a policy or tracking-mode
    message; with the fields of the event that is behind the event pointer
    at that time, for the others, and none when no such event is there. *)
Definition deferred_callback (Msg : LEAP_CONNECTION_MESSAGE) (h : gmap N Block)
    : option Callback :=
  match Msg with
  | Msg_DeviceFailure p =>
      match data_at h p with
      | Some (DDeviceFailureEvent e) =>
          Some (OnDeviceFailure (failure_status e) (hDevice e))
      | _ => None
      end
  | Msg_LogEvent p =>
      match data_at h p with
      | Some (DLogEvent e) => Some (OnLog (severity e) (timestamp e) (message e))
      | _ => None
      end
  | Msg_Policy e => Some (OnPolicy (current_policy e))
  | Msg_TrackingMode e => Some (OnTrackingMode (current_tracking_mode e))
  | Msg_ConfigChange p =>
      match data_at h p with
      | Some (DConfigChangeEvent e) =>
          Some (OnConfigChange (change_requestID e) (change_status e))
      | _ => None
      end
  | Msg_ConfigResponse p =>
      match data_at h p with
      | Some (DConfigResponseEvent e) =>
          Some (OnConfigResponse (response_requestID e) (response_value e))
      | _ => None
      end
  | _ => None
  end.

(** The callback a message leads to directly, on the pump thread. *)
Definition direct_callback (Msg : LEAP_CONNECTION_MESSAGE) : option Callback :=
  match Msg with
  | Msg_Connection => Some OnConnect
  | Msg_ConnectionLost => Some OnConnectionLost
  | Msg_Tracking e => Some (OnFrame e)
  | Msg_Image e => Some (OnImage e)
  | _ => None
  end.

(** What a sequence of failed polls adds to the trace: the poll, and the
    100 ms sleep when the wrapper is not connected. *)
Definition failed_poll_events (Handle : ptr) (connected : bool)
    (polls : list Poll) : list Event :=
  flat_map (λ _, EvLeapPollConnection Handle Timeout ::
                 (if connected then [] else [EvSleep 100])) polls.

(** The image description is null or a live description whose buffer is null
    or a live block of its own. *)
Definition image_ok (o : FLeapWrapper) (w : World) : Prop :=
  ImageDescription o = nullptr ∨
  ∃ sz d, heap w !! ImageDescription o =
            Some {| blk_size := sz; blk_data := DImageDescription d |} ∧
          (pBuffer d = nullptr ∨
           ∃ len, heap w !! pBuffer d = Some {| blk_size := len; blk_data := Uninit |}).

(** The image buffer is not the serial buffer of the cached device. *)
Definition image_apart (o : FLeapWrapper) (w : World) : Prop :=
  ∀ sz d sz' d',
    heap w !! ImageDescription o =
      Some {| blk_size := sz; blk_data := DImageDescription d |} →
    heap w !! CurrentDeviceInfo o =
      Some {| blk_size := sz'; blk_data := DDeviceInfo d' |} →
    pBuffer d ≠ nullptr → pBuffer d ≠ serial d'.

(** ** The editor details panel

    [FUltraleapAnimCustomDetailsPanel::ClickedOnButton] of
    [Source/UltraleapTrackingEditor/Private/FUltraleapAnimCustomDetailsPanel.cpp]. *)
Module DetailsPanel.

Inductive UClass := UBodyStateAnimInstance | UOtherClass.

Record UObject := { object_id : N; object_class : UClass }.

(** [TWeakObjectPtr<UObject>]: [Get] gives the object, or null when it is
    gone. *)
Definition TWeakObjectPtr := option UObject.

(** [Cast<UBodyStateAnimInstance>(Object.Get())]. *)
Definition Cast_UBodyStateAnimInstance (Object : TWeakObjectPtr) : option UObject :=
  match Object with
  | Some obj =>
      match object_class obj with
      | UBodyStateAnimInstance => Some obj
      | UOtherClass => None
      end
  | None => None
  end.

Inductive FReply := Handled | Unhandled.

(** The loop over [SelectedObjects]; the result lists the objects on which
    [ExecuteAutoMapping] is called, in call order. *)
Fixpoint auto_map_selected (SelectedObjects : list TWeakObjectPtr) : list N :=
  match SelectedObjects with
  | [] => []
  | Object :: rest =>
      match Cast_UBodyStateAnimInstance Object with
      | Some AnimInstance => object_id AnimInstance :: auto_map_selected rest
      | None => auto_map_selected rest
      end
  end.

Definition ClickedOnButton (GEngine : bool) (SelectedObjects : list TWeakObjectPtr)
    : list N * FReply :=
  (if GEngine then auto_map_selected SelectedObjects else [], Handled).

End DetailsPanel.

(** The device-info query of [HandleDeviceEvent] ends in success or is taken
    for one: the first result is not [eLeapRS_InsufficientBuffer], or the
    retry succeeds. *)
Definition reaches_delivery (svc : DeviceService) : bool :=
  negb (is_InsufficientBuffer (info_result (first_info svc))) ||
  is_Success (info_result (second_info svc)).

(** The serial length that [SetDevice] copies does not exceed the buffer the
    last query was given: 64 bytes for the first query, the length the first
    query answered for the retry. *)
Definition serial_fits (svc : DeviceService) : bool :=
  if is_InsufficientBuffer (info_result (first_info svc))
  then answered_length (second_info svc) <=? answered_length (first_info svc)
  else answered_length (first_info svc) <=? 64.

(** The answers to a device event do not make [SetDevice] read past the
    buffer: the event is dropped before, or the serial fits. *)
Definition copy_fits (svc : DeviceService) : bool :=
  negb (is_Success (open_device_result svc) && reaches_delivery svc) ||
  serial_fits svc.

Definition poll_fits (p : Poll) : Prop :=
  match poll_msg p with
  | Msg_Device _ => copy_fits (poll_device_service p) = true
  | _ => True
  end.

Definition is_memcpy (e : Event) : bool :=
  match e with EvMemcpy _ _ _ => true | _ => false end.

(** Among the events [seen], the block at [p] was allocated with at least
    [len] bytes. *)
Definition allocated (seen : list Event) (p : ptr) (len : N) : Prop :=
  ∃ n, In (EvMalloc p n) seen ∧ len ≤ n.

(** Every copy of [evs] stays within the blocks it reads and writes: both
    were allocated, among the events before the copy ([seen], then [evs] up
    to the copy), with at least the copied length. *)
Fixpoint copies_within (seen evs : list Event) : Prop :=
  match evs with
  | [] => True
  | e :: evs' =>
      match e with
      | EvMemcpy dst src len => allocated seen src len ∧ allocated seen dst len
      | _ => True
      end ∧ copies_within (e :: seen) evs'
  end.

(** The world with the game-thread queue emptied, as [game_thread_tick]
    takes it. *)
Definition queue_taken (w : World) : World :=
  {| LeapContextAtomic := LeapContextAtomic w; wrappers := wrappers w;
     heap := heap w; brk := brk w; game_thread := []; trace := trace w |}.

(** ** More example inputs *)

(** A second wrapper, constructed beside the running one. *)
Definition second_session : ptr := 2000.
Definition two_wrappers : World :=
  after (FLeapWrapper_ctor x64 second_session zeroed) running.

(** A device that cannot be opened. *)
Definition device_closed : DeviceService :=
  {| open_device_result := eLeapRS_CannotOpenDevice; opened_device := None;
     first_info := {| info_result := eLeapRS_Success; answered_length := 12;
                      answered_caps := 5 |};
     second_info := {| info_result := eLeapRS_Success; answered_length := 12;
                       answered_caps := 5 |} |}.

Definition sample_props : LEAP_DEVICE_INFO :=
  {| info_size := 48; info_caps := 5; serial_length := 12; serial := 2 |}.

(** A poll that times out, a poll that brings a tracking event and a poll
    that brings a device event. *)
Definition timeout_poll : Poll :=
  {| poll_result := eLeapRS_Timeout; poll_msg := Msg_Other 0;
     poll_event := Uninit; poll_device_service := device_up;
     stop_during_poll := false; stop_during_dispatch := false |}.

Definition tracking_poll : Poll :=
  {| poll_result := eLeapRS_Success; poll_msg := Msg_Tracking two_hands;
     poll_event := Uninit; poll_device_service := device_up;
     stop_during_poll := false; stop_during_dispatch := false |}.

Definition device_poll : Poll :=
  {| poll_result := eLeapRS_Success; poll_msg := Msg_Device {| device := 1 |};
     poll_event := Uninit; poll_device_service := device_retry_fails;
     stop_during_poll := false; stop_during_dispatch := true |}.

(** A poll that brings a log event, which the service keeps at [LogEvent]. *)
Definition log_poll (LogEvent : ptr) (e : LEAP_LOG_EVENT) : Poll :=
  {| poll_result := eLeapRS_Success; poll_msg := Msg_LogEvent LogEvent;
     poll_event := DLogEvent e; poll_device_service := device_up;
     stop_during_poll := false; stop_during_dispatch := false |}.

Definition first_log : LEAP_LOG_EVENT :=
  {| severity := 1; timestamp := 10; message := 8000 |}.
Definition second_log : LEAP_LOG_EVENT :=
  {| severity := 2; timestamp := 20; message := 8001 |}.
Definition third_log : LEAP_LOG_EVENT :=
  {| severity := 3; timestamp := 30; message := 8002 |}.

(** The running wrapper beside a block of service memory that holds a log
    event. *)
Definition logging : World :=
  after (p ← malloc 24; store p (DLogEvent first_log)) running.

(** A device whose first query fails and leaves a length of 100 in the
    struct. *)
Definition device_query_overlong : DeviceService :=
  {| open_device_result := eLeapRS_Success; opened_device := Some 77;
     first_info := {| info_result := eLeapRS_UnknownError;
                      answered_length := 100; answered_caps := 0 |};
     second_info := {| info_result := eLeapRS_UnknownError;
                       answered_length := 100; answered_caps := 0 |} |}.

(** The connected wrapper after [CloseConnection]; the lambda of its device
    event is still queued. *)
Definition closed : World := after (CloseConnection session) connected.

(** Lambdas left in the queue of a wrapper. *)
Definition orphan_tasks : list Task :=
  [TaskPolicy session 3; TaskDeviceFound session sample_props;
   TaskDeviceLost session].

(** * Proofs *)

(** ** Symbolic execution of member functions *)

Create HintDb exec discriminated.
#[local] Hint Unfold mbind M_bind mret M_ret fault emit deref assign malloc free
  load store set_heap SetLeapContextPtr store_CallbackDelegate
  LeapContextAtomic_load RunShortLambdaOnGameThread GetCallbackDelegate
  load_DeviceInfo load_ImageDescription load_DeviceFailureEvent load_LogEvent
  load_ConfigChangeEvent load_ConfigResponseEvent Lock Unlock WaitFor
  call_if_delegate post_if_delegate stop_request : exec.

Lemma is_null_true (p : ptr) : p = nullptr → is_null p = true.
Proof. intros ->. reflexivity. Qed.

Lemma is_null_false (p : ptr) : p ≠ nullptr → is_null p = false.
Proof. intros H. unfold is_null. by apply N.eqb_neq. Qed.

Lemma is_null_spec (p : ptr) : reflect (p = nullptr) (is_null p).
Proof. unfold is_null. apply N.eqb_spec. Qed.

Lemma heap_ok_lt (w : World) (p : ptr) (b : Block) :
  heap_ok w → heap w !! p = Some b → p < brk w.
Proof.
  intros [_ H] Hp. destruct (N.lt_ge_cases p (brk w)) as [|Hge]; [done|].
  rewrite (H p Hge) in Hp. discriminate.
Qed.

Ltac ptr_neq := unfold nullptr in *; (lia || congruence).

Lemma run_bind {A B} (m : M A) (f : A → M B) (w : World) :
  (m ≫= f) w = match m w with Some (a, w') => f a w' | None => None end.
Proof. reflexivity. Qed.

Ltac exec_red :=
  autounfold with exec;
  cbn beta iota delta
      [LeapContextAtomic wrappers heap brk game_thread trace
       bIsRunning bIsConnected CallbackDelegate ConnectionHandle DeviceHandle
       LatestFrame CurrentDeviceInfo InterpolatedFrame InterpolatedFrameSize
       DataLock ImageDescription ProducerLambdaFuture
       set_bIsRunning set_bIsConnected set_CallbackDelegate set_ConnectionHandle
       set_DeviceHandle set_LatestFrame set_CurrentDeviceInfo set_InterpolatedFrame
       set_InterpolatedFrameSize set_DataLock set_ImageDescription
       set_ProducerLambdaFuture with_serial
       blk_size blk_data serial serial_length info_size info_caps
       buffer_len pBuffer negb andb orb].

Ltac exec_step :=
  match goal with
  | |- context [ <[?k := ?v]> ?m !! ?k ] => rewrite (lookup_insert_eq m k v)
  | |- context [ delete ?k ?m !! ?k ] => rewrite (lookup_delete_eq m k)
  | H : ?m !! ?k = _ |- context [ ?m !! ?k ] => rewrite H
  | |- context [ <[?k := ?v]> ?m !! ?k' ] =>
      rewrite (lookup_insert_ne m k k' v) by ptr_neq
  | |- context [ delete ?k ?m !! ?k' ] =>
      rewrite (lookup_delete_ne m k k') by ptr_neq
  | |- context [ is_null ?p ] =>
      first [ rewrite (is_null_false p) by ptr_neq
            | rewrite (is_null_true p) by ptr_neq ]
  end.

(** Every live address lies below [brk]. *)
Ltac note_bounds :=
  repeat match goal with
  | Hh : heap_ok ?w, H : heap ?w !! ?p = Some _ |- _ =>
      tryif (match goal with _ : p < brk w |- _ => idtac end)
      then fail
      else pose proof (heap_ok_lt _ _ _ Hh H)
  end.

Ltac exec := note_bounds; repeat (exec_red; try exec_step).

(** Closing a goal about the heap of a world reached by execution. *)
Ltac heap_ok_tac :=
  match goal with
  | H : heap_ok ?w |- heap_ok _ =>
      let H1 := fresh in let H2 := fresh in
      destruct H as [H1 H2]; split; cbn [brk heap];
      [ ptr_neq
      | let q := fresh "q" in let Hq := fresh "Hq" in
        intros q Hq;
        repeat first [ rewrite lookup_insert_ne by ptr_neq
                     | rewrite lookup_delete_ne by ptr_neq ];
        apply H2; lia ]
  end.

Ltac use_pump_ok H :=
  let o := fresh "o" in
  let Ho := fresh "Ho" in let Hh := fresh "Hh" in let Hl := fresh "Hl" in
  let Hf := fresh "Hf" in let Hd := fresh "Hd" in
  let sz := fresh "sz" in let Hlt := fresh "Hlt" in
  destruct H as (o & Ho & Hh & Hl & Hf & Hd);
  pose proof Hl as [sz Hlk].

Ltac inv_close :=
  exec;
  first
    [ done
    | left; done
    | eexists; exec; (reflexivity || done)
    | right; eexists; exec; (reflexivity || done)
    | right; do 2 eexists; split;
      [ exec; (reflexivity || done)
      | first [ left; done
              | right; eexists; exec; (reflexivity || done) ] ] ].

Ltac inv_solve :=
  unfold lock_ok, frame_ok, device_ok in *;
  repeat match goal with
         | H : _ ∨ _ |- _ => destruct H
         | H : ∃ _, _ |- _ => destruct H
         | H : _ ∧ _ |- _ => destruct H
         end;
  inv_close.

Ltac finish_ok :=
  eexists; split; [reflexivity|]; split;
  [ eexists; split; [exec; reflexivity|];
    split; [heap_ok_tac|]; split; [inv_solve|]; split; inv_solve
  | unfold running_same; exec; try reflexivity ].

(** ** The handlers keep the pump going

    Every handler runs without a fault on a wrapper that satisfies [pump_ok],
    re-establishes [pump_ok] and leaves the running flag as it found it. *)

Section Proofs.

Context (abi : ABI).

Lemma HandleConnectionEvent_ok (this : ptr) (w : World) :
  pump_ok abi this w →
  ∃ w', HandleConnectionEvent this w = Some (tt, w') ∧
        pump_ok abi this w' ∧ running_same this w w'.
Proof.
  intros H. use_pump_ok H. unfold HandleConnectionEvent. exec.
  destruct (is_null_spec (CallbackDelegate o)); exec; finish_ok.
Qed.

Lemma HandleConnectionLostEvent_ok (this : ptr) (w : World) :
  pump_ok abi this w →
  ∃ w', HandleConnectionLostEvent this w = Some (tt, w') ∧
        pump_ok abi this w' ∧ running_same this w w'.
Proof.
  intros H. use_pump_ok H. unfold HandleConnectionLostEvent, CleanupLastDevice. exec.
  destruct (is_null_spec (CurrentDeviceInfo o)) as [E|E]; exec.
  - destruct (is_null_spec (CallbackDelegate o)); exec; finish_ok.
  - destruct Hd as [Hd|(sz' & d & Hd & Hs)]; [done|]. exec.
    destruct (is_null_spec (serial d)) as [E2|E2]; exec.
    + destruct (is_null_spec (CallbackDelegate o)); exec; finish_ok.
    + destruct Hs as [Hs|[len Hs]]; [done|]. exec.
      destruct (is_null_spec (CallbackDelegate o)); exec; finish_ok.
Qed.

Lemma post_if_delegate_ok (this : ptr) (t : Task) (w : World) :
  pump_ok abi this w →
  ∃ w', post_if_delegate this t w = Some (tt, w') ∧
        pump_ok abi this w' ∧ running_same this w w'.
Proof.
  intros H. use_pump_ok H. exec.
  destruct (is_null_spec (CallbackDelegate o)); exec; finish_ok.
Qed.

Lemma HandleImageEvent_ok (this : ptr) (e : LEAP_IMAGE_EVENT) (w : World) :
  pump_ok abi this w →
  ∃ w', HandleImageEvent this e w = Some (tt, w') ∧
        pump_ok abi this w' ∧ running_same this w w'.
Proof.
  intros H. use_pump_ok H. unfold HandleImageEvent. exec.
  destruct (is_null_spec (CallbackDelegate o)); exec; finish_ok.
Qed.

Lemma HandleTrackingEvent_ok (this : ptr) (e : LEAP_TRACKING_EVENT) (w : World) :
  pump_ok abi this w →
  ∃ w', HandleTrackingEvent abi this e w = Some (tt, w') ∧
        pump_ok abi this w' ∧ running_same this w w'.
Proof.
  intros H. use_pump_ok H. unfold HandleTrackingEvent, SetFrame. exec.
  destruct (is_null_spec (LatestFrame o)) as [E|E]; exec.
  - destruct (is_null_spec (CallbackDelegate o)); exec; finish_ok.
  - pose proof Hf as [?|[e' Hf']]; [done|]. exec.
    destruct (is_null_spec (CallbackDelegate o)); exec; finish_ok.
Qed.

Lemma HandleDeviceEvent_ok (this : ptr) (e : LEAP_DEVICE_EVENT)
    (svc : DeviceService) (w : World) :
  pump_ok abi this w →
  ∃ w', HandleDeviceEvent abi this e svc w = Some (tt, w') ∧
        pump_ok abi this w' ∧ running_same this w w'.
Proof.
  intros H. use_pump_ok H.
  unfold HandleDeviceEvent, deliver_device, SetDevice, LeapGetDeviceInfo.
  destruct (opened_device svc) as [h|]; exec;
  (destruct (is_Success (open_device_result svc)); exec; [|finish_ok]);
  (destruct (is_InsufficientBuffer (info_result (first_info svc))); exec;
   [destruct (is_Success (info_result (second_info svc))); exec; [|finish_ok]|]).
  all: destruct (is_null_spec (CurrentDeviceInfo o)) as [E|E]; exec.
  all: try (destruct Hd as [Hd|(sz' & d & Hd & Hs)]; [done|];
            exec;
            destruct (is_null_spec (serial d)) as [E2|E2]; exec;
            [|destruct Hs as [Hs|[len Hs]]; [done|];
              exec]).
  all: destruct (is_null_spec (CallbackDelegate o)); exec.
  all: finish_ok.
Qed.

Lemma dispatch_ok (this : ptr) (Msg : LEAP_CONNECTION_MESSAGE)
    (svc : DeviceService) (w : World) :
  pump_ok abi this w →
  ∃ w', dispatch abi this Msg svc w = Some (tt, w') ∧
        pump_ok abi this w' ∧ running_same this w w'.
Proof.
  intros H. destruct Msg; cbn [dispatch].
  - by apply HandleConnectionEvent_ok.
  - by apply HandleConnectionLostEvent_ok.
  - by apply HandleDeviceEvent_ok.
  - by apply post_if_delegate_ok.
  - by apply post_if_delegate_ok.
  - by apply HandleTrackingEvent_ok.
  - by apply HandleImageEvent_ok.
  - by apply post_if_delegate_ok.
  - by apply post_if_delegate_ok.
  - by apply post_if_delegate_ok.
  - by apply post_if_delegate_ok.
  - by apply post_if_delegate_ok.
  - exists w. by split.
Qed.

Lemma pump_ok_ext (this : ptr) (w w' : World) :
  wrappers w' = wrappers w → heap w' = heap w → brk w' = brk w →
  pump_ok abi this w → pump_ok abi this w'.
Proof.
  intros Hw Hp Hb (o & Ho & [Hh1 Hh2] & Hl & Hf & Hd).
  exists o. unfold heap_ok, lock_ok, frame_ok, device_ok in *.
  rewrite Hw, Hp, Hb. done.
Qed.

Lemma pump_ok_flag (this : ptr) (w : World) (o : FLeapWrapper) (b : bool) :
  wrappers w !! this = Some o → pump_ok abi this w →
  pump_ok abi this
    {| LeapContextAtomic := LeapContextAtomic w;
       wrappers := <[this := set_bIsRunning b o]> (wrappers w);
       heap := heap w; brk := brk w; game_thread := game_thread w;
       trace := trace w |}.
Proof.
  intros Ho (o' & Ho' & Hh & Hl & Hf & Hd).
  assert (o' = o) as -> by congruence.
  eexists. split; [exec; reflexivity|]. done.
Qed.

(** The service writes to its own memory only: what the wrapper owns stays
    as it is. *)
Lemma service_store_ok (this : ptr) (q : ptr) (d : Data) (w : World) :
  pump_ok abi this w →
  ∃ w', service_store q d w = Some (tt, w') ∧ pump_ok abi this w' ∧
        LeapContextAtomic w' = LeapContextAtomic w ∧ wrappers w' = wrappers w ∧
        brk w' = brk w ∧ game_thread w' = game_thread w ∧ trace w' = trace w ∧
        ∀ p, p ≠ q → heap w' !! p = heap w !! p.
Proof.
  intros Hok. unfold service_store.
  destruct (heap w !! q) as [b|] eqn:Hq; [|by exists w].
  destruct (is_event (blk_data b) && is_event d) eqn:He; [|by exists w].
  apply andb_prop in He as [Hb _].
  eexists. split; [reflexivity|]. cbn.
  split; [|repeat split; try done; intros p Hp; by rewrite lookup_insert_ne].
  destruct Hok as (o & Ho & [Hh1 Hh2] & [lsz Hl] & Hf & Hd).
  assert (Hother : ∀ p b', heap w !! p = Some b' → is_event (blk_data b') = false →
            <[q := {| blk_size := blk_size b; blk_data := d |}]> (heap w) !! p = Some b').
  { intros p b' Hp Hb'. rewrite lookup_insert_ne; [done|].
    intros <-. rewrite Hq in Hp. injection Hp as <-. congruence. }
  exists o. split; [done|]. split.
  { split; [done|]. cbn. intros p Hp.
    rewrite lookup_insert_ne; [by apply Hh2|].
    intros <-. rewrite (Hh2 q Hp) in Hq. discriminate. }
  split; [exists lsz; cbn; by apply Hother|].
  split.
  - destruct Hf as [Hf|[e Hf]]; [by left|]. right. exists e. cbn. by apply Hother.
  - destruct Hd as [Hd|(sz & i & Hd & Hs)]; [by left|]. right. exists sz, i. cbn.
    split; [by apply Hother|].
    destruct Hs as [Hs|[len Hs]]; [by left|]. right. exists len. by apply Hother.
Qed.

Lemma LeapPollConnection_ok (this Handle : ptr) (T : N) (p : Poll) (w : World) :
  pump_ok abi this w →
  ∃ w', LeapPollConnection Handle T p w = Some (tt, w') ∧ pump_ok abi this w' ∧
        LeapContextAtomic w' = LeapContextAtomic w ∧ wrappers w' = wrappers w ∧
        brk w' = brk w ∧ game_thread w' = game_thread w ∧
        trace w' = trace w ++ [EvLeapPollConnection Handle T] ∧
        ∀ q, event_pointer (poll_msg p) ≠ Some q → heap w' !! q = heap w !! q.
Proof.
  intros Hok. unfold LeapPollConnection. rewrite run_bind. exec.
  set (w0 := {| trace := trace w ++ _ |}).
  assert (Hok0 : pump_ok abi this w0) by (by apply (pump_ok_ext this w)).
  destruct (is_Success (poll_result p)); [|by exists w0].
  destruct (event_pointer (poll_msg p)) as [q|]; [|by exists w0].
  destruct (service_store_ok this q (poll_event p) w0 Hok0)
    as (w' & -> & Hok' & Hc & Hw & Hb & Hg & Ht & Hh).
  exists w'. repeat split; try done. intros q' Hq'. rewrite Hh; [done|]. congruence.
Qed.

(** The loop over polls during which nobody asks to stop: it handles every
    one of them, stays in the loop, and what follows runs from the world it
    reached. *)
Lemma message_loop_app (this Handle : ptr) (pre rest : list Poll) :
  Forall no_stop pre →
  ∀ w o, pump_ok abi this w → wrappers w !! this = Some o → bIsRunning o = true →
    ∃ w1 o1, message_loop abi this Handle pre w = Some (LoopPolling, w1) ∧
      pump_ok abi this w1 ∧ wrappers w1 !! this = Some o1 ∧
      bIsRunning o1 = true ∧
      message_loop abi this Handle (pre ++ rest) w =
      message_loop abi this Handle rest w1.
Proof.
  induction 1 as [|p pre [Hp1 Hp2] Hpre IH]; intros w o Hok Ho Hrun.
  - exists w, o. cbn [message_loop app]. exec. rewrite Hrun. done.
  - destruct (LeapPollConnection_ok this Handle Timeout p w Hok)
      as (w0 & HLP & Hok0 & _ & Hw0 & _).
    assert (Ho0 : wrappers w0 !! this = Some o) by (by rewrite Hw0).
    cbn [message_loop app]. exec. rewrite Hrun. exec. rewrite HLP, Hp1, Hp2. exec.
    rewrite Hrun. exec.
    destruct (is_Success (poll_result p)); exec.
    + destruct (dispatch_ok this (poll_msg p) (poll_device_service p) w0 Hok0)
        as (w2 & -> & Hok2 & Hsame).
      unfold running_same in Hsame.
      rewrite Ho0 in Hsame. cbn in Hsame.
      destruct (wrappers w2 !! this) as [o2|] eqn:Ho2; [|done].
      cbn in Hsame. apply (IH w2 o2); [done..|]. congruence.
    + destruct (bIsConnected o); exec.
      * eapply IH; [|done..]. by apply (pump_ok_ext this w0).
      * eapply IH; [|done..]. by apply (pump_ok_ext this w0).
Qed.

End Proofs.

(** ** The copies of the pump stay within their buffers *)

Lemma copies_within_mono (evs seen seen' : list Event) :
  (∀ e, In e seen → In e seen') →
  copies_within seen evs → copies_within seen' evs.
Proof.
  revert seen seen'. induction evs as [|a evs IH]; intros seen seen' Hsub; [done|].
  cbn. intros [H1 H2]. split.
  - destruct a; try done.
    destruct H1 as [(n & Hn & ?) (m & Hm & ?)]. split; eexists; eauto.
  - apply (IH (a :: seen)); [|done]. intros e [->|?]; [by left|right; auto].
Qed.

Lemma copies_within_app (e1 e2 seen : list Event) :
  copies_within seen e1 → copies_within [] e2 → copies_within seen (e1 ++ e2).
Proof.
  revert seen. induction e1 as [|a e1 IH]; intros seen; cbn.
  - intros _ H. eapply copies_within_mono; [|exact H]. intros ? [].
  - intros [H1 H2] H3. split; [done|]. by apply IH.
Qed.

Section Copies.

Context (abi : ABI).

Ltac copies_solve :=
  cbn [copies_within];
  repeat split;
  try (eexists; split; [cbn; eauto 20|]; (reflexivity || done)).

Lemma dispatch_copies (this : ptr) (Msg : LEAP_CONNECTION_MESSAGE)
    (svc : DeviceService) (w : World) :
  pump_ok abi this w →
  match Msg with Msg_Device _ => copy_fits svc = true | _ => True end →
  ∃ w' evs, dispatch abi this Msg svc w = Some (tt, w') ∧
    trace w' = trace w ++ evs ∧ copies_within [] evs.
Proof.
  intros H Hfit. use_pump_ok H. pose proof Hh as [Hb _].
  destruct Msg; cbn [dispatch];
    unfold HandleConnectionEvent, HandleConnectionLostEvent, CleanupLastDevice,
      HandleTrackingEvent, SetFrame, HandleImageEvent,
      HandleDeviceLostEvent, HandleDeviceFailureEvent, HandleLogEvent,
      HandlePolicyEvent, HandleTrackingModeEvent, HandleConfigChangeEvent,
      HandleConfigResponseEvent,
      HandleDeviceEvent, deliver_device, SetDevice, LeapGetDeviceInfo; exec.
  3:{ unfold copy_fits, reaches_delivery, serial_fits in Hfit. revert Hfit.
      destruct (opened_device svc) as [h|]; exec;
      (destruct (is_Success (open_device_result svc)); exec;
       [destruct (is_InsufficientBuffer (info_result (first_info svc))); exec;
        try (destruct (is_Success (info_result (second_info svc))); exec)|]).
      all: try (destruct (is_null_spec (CurrentDeviceInfo o)) as [E|E]; exec;
                [|destruct Hd as [Hd|(sz' & d & Hd & Hs)]; [done|]; exec;
                  destruct (is_null_spec (serial d)) as [E2|E2]; exec;
                  [|destruct Hs as [Hs|[len Hs]]; [done|]; exec]]).
      all: destruct (is_null_spec (CallbackDelegate o)) as [Ec|Ec]; exec.
      all: cbn [negb andb orb]; intros Hfit; try apply N.leb_le in Hfit.
      all: eexists _, _; split; [reflexivity|]; cbn [trace];
           split; [first [symmetry; apply app_nil_r
                         | rewrite <- ?app_assoc; reflexivity]|]; copies_solve. }
  2:{ destruct (is_null_spec (CurrentDeviceInfo o)) as [E|E]; exec;
        [|destruct Hd as [Hd|(sz' & d & Hd & Hs)]; [done|]; exec;
          destruct (is_null_spec (serial d)) as [E2|E2]; exec;
          [|destruct Hs as [Hs|[len Hs]]; [done|]; exec]].
      all: destruct (is_null_spec (CallbackDelegate o)) as [Ec|Ec]; exec.
      all: eexists _, _; split; [reflexivity|]; cbn [trace];
           split; [first [symmetry; apply app_nil_r
                         | rewrite <- ?app_assoc; reflexivity]|]; copies_solve. }
  4:{ destruct (is_null_spec (LatestFrame o)) as [E|E]; exec;
        [|destruct Hf as [Hf|[e Hf]]; [done|]; exec].
      all: destruct (is_null_spec (CallbackDelegate o)) as [Ec|Ec]; exec.
      all: eexists _, _; split; [reflexivity|]; cbn [trace];
           split; [first [symmetry; apply app_nil_r
                         | rewrite <- ?app_assoc; reflexivity]|]; copies_solve. }
  all: destruct (is_null_spec (CallbackDelegate o)) as [Ec|Ec]; exec.
  all: eexists _, _; split; [reflexivity|]; cbn [trace];
       split; [first [symmetry; apply app_nil_r
                     | rewrite <- ?app_assoc; reflexivity]|]; copies_solve.
Qed.

(** Over polls whose device answers fit, the loop returns, keeps the
    invariants, and adds to the trace only copies that stay within their
    buffers. *)
Lemma message_loop_copies (this Handle : ptr) (polls : list Poll) :
  Forall poll_fits polls →
  ∀ w, pump_ok abi this w →
    ∃ r w' evs, message_loop abi this Handle polls w = Some (r, w') ∧
      pump_ok abi this w' ∧ trace w' = trace w ++ evs ∧ copies_within [] evs.
Proof.
  induction 1 as [|p polls Hp _ IH]; intros w Hok;
    pose proof Hok as (o & Ho & _); cbn [message_loop]; exec;
    destruct (bIsRunning o) eqn:Hrun; exec;
    try (eexists _, w, []; rewrite app_nil_r; done).
  destruct (LeapPollConnection_ok abi this Handle Timeout p w Hok)
    as (w0 & HLP & Hok0 & _ & Hw0 & _ & _ & Ht0 & _).
  assert (Ho0 : wrappers w0 !! this = Some o) by (by rewrite Hw0).
  rewrite HLP.
  assert (Hrest : ∀ w1, pump_ok abi this w1 →
    ∀ evs1, trace w1 = trace w ++ evs1 → copies_within [] evs1 →
    ∃ r w' evs, message_loop abi this Handle polls w1 = Some (r, w') ∧
      pump_ok abi this w' ∧ trace w' = trace w ++ evs ∧ copies_within [] evs).
  { intros w1 Hok1 evs1 Ht1 Hc1.
    destruct (IH w1 Hok1) as (r & w' & evs & Hr & Hok' & Ht & Hc).
    exists r, w', (evs1 ++ evs). split; [done|]. split; [done|].
    split; [by rewrite Ht, Ht1, app_assoc|]. by apply copies_within_app. }
  destruct (stop_during_poll p); exec.
  - eexists _, _, _. split; [reflexivity|].
    split; [by apply pump_ok_flag|]. split; [exact Ht0|]. cbn. done.
  - rewrite Hrun. exec. destruct (is_Success (poll_result p)); exec.
    + destruct (dispatch_copies this (poll_msg p) (poll_device_service p) w0 Hok0)
        as (w2 & evs2 & Hd2 & Ht2 & Hc2).
      { unfold poll_fits in Hp. by destruct (poll_msg p). }
      destruct (dispatch_ok abi this (poll_msg p) (poll_device_service p) w0 Hok0)
        as (w2' & Hd2' & Hok2 & _).
      assert (w2' = w2) as -> by congruence. rewrite Hd2.
      pose proof Hok2 as (o2 & Ho2 & _).
      assert (Ht2' : trace w2 = trace w ++
                [EvLeapPollConnection Handle Timeout] ++ evs2)
        by (by rewrite Ht2, Ht0, <- app_assoc).
      assert (Hc2' : copies_within []
                ([EvLeapPollConnection Handle Timeout] ++ evs2))
        by (by apply copies_within_app).
      destruct (stop_during_dispatch p); exec.
      * eapply Hrest; [|exact Ht2'|exact Hc2']. by apply pump_ok_flag.
      * eapply Hrest; [exact Hok2|exact Ht2'|exact Hc2'].
    + destruct (bIsConnected o); exec.
      * eapply (Hrest _ Hok0 [EvLeapPollConnection Handle Timeout]);
          [exact Ht0|cbn; done].
      * eapply (Hrest _ _ [EvLeapPollConnection Handle Timeout; EvSleep 100]);
          [cbn [trace]; by rewrite Ht0, <- app_assoc|cbn; done].
        Unshelve. by apply (pump_ok_ext abi this w0).
Qed.

End Copies.

(** ** The claims *)

Section Claims.

Context (abi : ABI).

(** C8.  While the running flag is set and nobody clears it, the message loop
    handles every poll and stays in the loop, whatever the polls return, as
    long as the serial lengths the service answers to device queries fit the
    buffers, and then every copy it makes stays within its buffers; when the
    flag is cleared while a poll blocks, the loop is left right after that
    poll with nothing but the poll itself added to what came before, so the
    message just polled is not dispatched and no further poll is made; and
    the loop is left only if some poll of the sequence came with a stop
    request. *)
Theorem ServiceMessageLoop_leaves_only_on_stop (this : ptr) (w : World)
    (o : FLeapWrapper) :
  pump_ok abi this w → wrappers w !! this = Some o → bIsRunning o = true →
  (∀ polls, Forall no_stop polls → Forall poll_fits polls →
     ∃ w' o' evs, ServiceMessageLoop abi this polls w = Some (LoopPolling, w') ∧
       wrappers w' !! this = Some o' ∧ bIsRunning o' = true ∧
       trace w' = trace w ++ evs ∧ copies_within [] evs) ∧
  (∀ pre p post, Forall no_stop pre → Forall poll_fits pre →
     stop_during_poll p = true →
     ∃ w1 o1 w2, ServiceMessageLoop abi this pre w = Some (LoopPolling, w1) ∧
       wrappers w1 !! this = Some o1 ∧
       LeapPollConnection (ConnectionHandle o) Timeout p w1 = Some (tt, w2) ∧
       LeapContextAtomic w2 = LeapContextAtomic w1 ∧ wrappers w2 = wrappers w1 ∧
       brk w2 = brk w1 ∧ game_thread w2 = game_thread w1 ∧
       trace w2 = trace w1 ++ [EvLeapPollConnection (ConnectionHandle o) Timeout] ∧
       (∀ q, event_pointer (poll_msg p) ≠ Some q → heap w2 !! q = heap w1 !! q) ∧
       ServiceMessageLoop abi this (pre ++ p :: post) w =
       Some (LoopLeft post,
             {| LeapContextAtomic := LeapContextAtomic w2;
                wrappers := <[this := set_bIsRunning false o1]> (wrappers w2);
                heap := heap w2; brk := brk w2; game_thread := game_thread w2;
                trace := trace w2 |})) ∧
  (∀ polls rest w', ServiceMessageLoop abi this polls w = Some (LoopLeft rest, w') →
     Exists (λ p, stop_during_poll p = true ∨ stop_during_dispatch p = true) polls).
Proof.
  intros Hok Ho Hrun.
  assert (Hstay : ∀ polls, Forall no_stop polls →
     ∃ w' o', ServiceMessageLoop abi this polls w = Some (LoopPolling, w') ∧
       wrappers w' !! this = Some o' ∧ bIsRunning o' = true).
  { intros polls Hp. unfold ServiceMessageLoop. exec.
    destruct (message_loop_app abi this (ConnectionHandle o) polls [] Hp w o)
      as (w1 & o1 & H1 & _ & Ho1 & Hr1 & _); [done..|].
    exists w1, o1. done. }
  split.
  { intros polls Hp Hfit. destruct (Hstay polls Hp) as (w' & o' & Hr & Ho' & Hr').
    destruct (message_loop_copies abi this (ConnectionHandle o) polls Hfit w Hok)
      as (r & w'' & evs & Hr2 & _ & Ht & Hc).
    exists w', o', evs. do 3 (split; [done|]).
    revert Hr. unfold ServiceMessageLoop. exec. rewrite Hr2. by intros [= _ <-]. }
  split.
  - intros pre p post Hp _ Hstop. unfold ServiceMessageLoop. exec.
    destruct (message_loop_app abi this (ConnectionHandle o) pre (p :: post) Hp w o)
      as (w1 & o1 & H1 & Hok1 & Ho1 & Hr1 & Happ); [done..|].
    destruct (LeapPollConnection_ok abi this (ConnectionHandle o) Timeout p w1 Hok1)
      as (w2 & HLP & _ & Hc2 & Hw2 & Hb2 & Hg2 & Ht2 & Hh2).
    assert (Ho2 : wrappers w2 !! this = Some o1) by (by rewrite Hw2).
    exists w1, o1, w2. do 9 (split; [done|]).
    rewrite Happ. cbn [message_loop]. exec. rewrite Hr1. exec.
    rewrite HLP, Hstop. exec. done.
  - intros polls rest w' Hleft.
    destruct (decide (Forall no_stop polls)) as [Hall|Hnot].
    + destruct (Hstay polls Hall) as (w2 & o2 & H2 & _). congruence.
    + apply not_Forall_Exists in Hnot; [|apply _].
      eapply Exists_impl; [exact Hnot|]. intros p Hp. cbn in Hp.
      unfold no_stop in Hp.
      destruct (stop_during_poll p), (stop_during_dispatch p); tauto.
Qed.



(** One call of [GetInterpolatedFrameAtTime], on a wrapper whose interpolation
    buffer and recorded size agree. *)
Lemma GetInterpolatedFrameAtTime_step (this : ptr) (w : World)
    (o : FLeapWrapper) (TimeStamp : Z) (FrameSize : N) :
  wrappers w !! this = Some o → interpolation_ok o w →
  ∃ p w' o' evs,
    GetInterpolatedFrameAtTime this TimeStamp FrameSize w = Some (p, w') ∧
    wrappers w' !! this = Some o' ∧ InterpolatedFrame o' = p ∧
    interpolation_ok o' w' ∧
    trace w' = trace w ++ evs ∧
    (mallocs evs ≠ [] ↔ 0 < FrameSize ∧ FrameSize ≠ InterpolatedFrameSize o) ∧
    (FrameSize = InterpolatedFrameSize o ∨ FrameSize = 0 →
       heap w' = heap w ∧ p = InterpolatedFrame o) ∧
    FrameSize ≤ block_size w' p ∧
    InterpolatedFrameSize o' =
      (if 0 <? FrameSize then FrameSize else InterpolatedFrameSize o).
Proof.
  intros Ho Hi. unfold GetInterpolatedFrameAtTime, interpolation_ok, block_size.
  exec.
  destruct (N.ltb_spec 0 FrameSize) as [Hpos|Hpos]; exec.
  - destruct (N.eqb_spec FrameSize (InterpolatedFrameSize o)) as [Heq|Hne]; exec.
    + destruct Hi as [[_ Hz]|(b & Hb & Hsz)]; [lia|].
      eexists _, _, _, _. split; [reflexivity|].
      split; [exec; reflexivity|]. exec.
      split; [done|]. split; [right; eexists; split; [reflexivity|congruence]|].
      split; [rewrite <- !app_assoc; reflexivity|]. cbn.
      split; [split; [done|lia]|]. split; [done|]. split; [lia|done].
    + destruct (is_null_spec (InterpolatedFrame o)) as [E|E]; exec.
      * eexists _, _, _, _. split; [reflexivity|].
        split; [exec; reflexivity|]. exec.
        split; [done|]. split; [right; eexists; done|].
        split; [rewrite <- !app_assoc; reflexivity|]. cbn.
        split; [split; [intros _; split; [lia|done]|done]|].
        split; [intros [?|?]; [done|lia]|]. split; [lia|done].
      * destruct Hi as [[Hz _]|(b & Hb & Hsz)]; [done|]. exec.
        eexists _, _, _, _. split; [reflexivity|].
        split; [exec; reflexivity|]. exec.
        split; [done|]. split; [right; eexists; done|].
        split; [rewrite <- !app_assoc; reflexivity|]. cbn.
        split; [split; [intros _; split; [lia|done]|done]|].
        split; [intros [?|?]; [done|lia]|]. split; [lia|done].
  - eexists _, _, _, _. split; [reflexivity|].
    split; [done|]. split; [done|]. split; [done|]. split; [reflexivity|]. cbn.
    split; [split; [done|lia]|]. split; [done|]. split; [lia|done].
Qed.

(** A call that reports the recorded size, or none, leaves the wrapper and the
    heap as they are. *)
Lemma GetInterpolatedFrameAtTime_same_size (this : ptr) (w : World)
    (o : FLeapWrapper) (TimeStamp : Z) (FrameSize : N) :
  wrappers w !! this = Some o →
  FrameSize = InterpolatedFrameSize o ∨ FrameSize = 0 →
  ∃ w' evs,
    GetInterpolatedFrameAtTime this TimeStamp FrameSize w =
      Some (InterpolatedFrame o, w') ∧
    wrappers w' !! this = Some o ∧ heap w' = heap w ∧
    trace w' = trace w ++ evs ∧ mallocs evs = [].
Proof.
  intros Ho Hsame. unfold GetInterpolatedFrameAtTime. exec.
  destruct (N.ltb_spec 0 FrameSize) as [Hpos|Hpos]; exec.
  - destruct Hsame as [-> | ->]; [|lia]. rewrite N.eqb_refl. exec.
    eexists _, _. split; [reflexivity|]. exec.
    split; [by destruct o|]. split; [done|].
    split; [rewrite <- !app_assoc; reflexivity|]. done.
  - eexists _, _. split; [reflexivity|]. done.
Qed.

(** C6.  [GetInterpolatedFrameAtTime] returns the interpolation buffer.  It
    allocates exactly when the reported size is positive and differs from
    the recorded one, and then records the reported size; with an unchanged
    (or no) reported size the heap stays as it is and the same buffer is
    returned; the returned buffer is never smaller than the size just
    reported and has the recorded size; and however often the call is
    repeated with the same reported size, nothing is allocated and the same
    buffer is returned. *)
Theorem GetInterpolatedFrameAtTime_reuses_buffer (this : ptr) (w : World)
    (o : FLeapWrapper) (TimeStamp : Z) (FrameSize : N) :
  wrappers w !! this = Some o → interpolation_ok o w →
  ∃ p w' o' evs,
    GetInterpolatedFrameAtTime this TimeStamp FrameSize w = Some (p, w') ∧
    wrappers w' !! this = Some o' ∧ InterpolatedFrame o' = p ∧
    interpolation_ok o' w' ∧
    trace w' = trace w ++ evs ∧
    (mallocs evs ≠ [] ↔ 0 < FrameSize ∧ FrameSize ≠ InterpolatedFrameSize o) ∧
    (FrameSize = InterpolatedFrameSize o ∨ FrameSize = 0 →
       heap w' = heap w ∧ p = InterpolatedFrame o) ∧
    FrameSize ≤ block_size w' p ∧
    InterpolatedFrameSize o' =
      (if 0 <? FrameSize then FrameSize else InterpolatedFrameSize o) ∧
    (p ≠ nullptr → block_size w' p = InterpolatedFrameSize o') ∧
    (∀ TimeStamp', ∃ w'' evs',
       GetInterpolatedFrameAtTime this TimeStamp' FrameSize w' = Some (p, w'') ∧
       wrappers w'' !! this = Some o' ∧ heap w'' = heap w' ∧
       trace w'' = trace w' ++ evs' ∧ mallocs evs' = []).
Proof.
  intros Ho Hi.
  destruct (GetInterpolatedFrameAtTime_step this w o TimeStamp FrameSize Ho Hi)
    as (p & w' & o' & evs & Hrun & Ho' & Hp & Hi' & Ht & Hm & Hsame & Hle & Hsz).
  exists p, w', o', evs. do 9 (split; [done|]). split.
  - intros Hnn. unfold block_size.
    destruct Hi' as [[Hnull _]|(b & Hb & Hbs)]; [congruence|].
    rewrite <- Hp, Hb. done.
  - intros TimeStamp'.
    destruct (GetInterpolatedFrameAtTime_same_size this w' o' TimeStamp' FrameSize Ho')
      as (w'' & evs' & Hrun' & H'); [|exists w'', evs'; by rewrite <- Hp].
    rewrite Hsz. destruct (N.ltb_spec 0 FrameSize); [by left|right; lia].
Qed.

(** C5, as amended.  [OpenConnection] first stores the callback sink and
    registers the wrapper as the current context, whatever the service
    answers; it always returns the address of its connection handle; and it
    sets the running flag and starts the pump on a background thread exactly
    when both the create and the open call report success. *)
Theorem OpenConnection_registers_then_opens (this : ptr) (InCallbackDelegate : ptr)
    (svc : ConnectionService) (w : World) (o : FLeapWrapper) :
  wrappers w !! this = Some o →
  ∃ w' o',
    OpenConnection this InCallbackDelegate svc w =
      Some (AddressOf_ConnectionHandle this, w') ∧
    wrappers w' !! this = Some o' ∧
    LeapContextAtomic w' = this ∧ CallbackDelegate o' = InCallbackDelegate ∧
    heap w' = heap w ∧ game_thread w' = game_thread w ∧
    let both := is_Success (create_result svc) && is_Success (open_result svc) in
    bIsRunning o' = both || bIsRunning o ∧
    ProducerLambdaFuture o' = both || ProducerLambdaFuture o ∧
    trace w' =
      trace w ++
      [EvDelegateStore this InCallbackDelegate; EvContextStore this;
       EvLeapCreateConnection] ++
      (if is_Success (create_result svc)
       then EvLeapOpenConnection (ConnectionHandle o') ::
            (if is_Success (open_result svc)
             then [EvRunOnBackGroundThread this] else [])
       else []).
Proof.
  intros Ho. unfold OpenConnection, SetCallbackDelegate. exec.
  destruct (created_handle svc) as [h|]; exec;
    destruct (is_Success (create_result svc)); exec;
    try destruct (is_Success (open_result svc)); exec;
    (eexists _, _; split; [reflexivity|]; exec;
     repeat (split; [reflexivity|]); cbn; rewrite <- ?app_assoc; reflexivity).
Qed.

(** A length that is representable as a non-negative [int] survives the
    conversion to [int] and back, whatever the width of the field. *)
Lemma buffer_len_fits (v : N) :
  v < 2 ^ 31 → buffer_len_differs abi v (to_int v) = false.
Proof.
  intros Hv. unfold buffer_len_differs, to_int.
  change (2 ^ 31) with 2147483648 in Hv.
  assert (E : ((Z.of_N v + 2 ^ 31) mod 2 ^ 32 - 2 ^ 31 = Z.of_N v)%Z).
  { rewrite Z.mod_small; lia. }
  rewrite E. destruct (N.ltb_spec (buffer_len_bits abi) 32) as [Hb|Hb].
  - by rewrite Z.eqb_refl.
  - rewrite Z.mod_small, Z.eqb_refl; [done|]. split; [lia|].
    apply Z.lt_le_trans with (2 ^ 32)%Z; [lia|].
    apply Z.pow_le_mono_r; lia.
Qed.

(** With the 64-bit length field of LeapC, the lengths that differ from
    their [int] copy are those from 2^31 up to 2^64 - 2^31. *)
Lemma buffer_len_differs_wide (v : N) :
  buffer_len_bits abi = 64 → v < 2 ^ 64 →
  buffer_len_differs abi v (to_int v) = true ↔ 2 ^ 31 ≤ v < 2 ^ 64 - 2 ^ 31.
Proof.
  intros Hb Hv. unfold buffer_len_differs, to_int. rewrite Hb.
  change (64 <? 32) with false. cbn beta iota.
  change (2 ^ 64) with 18446744073709551616 in *.
  change (2 ^ 31) with 2147483648.
  change (2 ^ 31)%Z with 2147483648%Z. change (2 ^ 32)%Z with 4294967296%Z.
  change (2 ^ Z.of_N 64)%Z with 18446744073709551616%Z.
  rewrite negb_true_iff, Z.eqb_neq.
  Z.to_euclidean_division_equations. lia.
Qed.

(** C10, the defect.  [OldLength] is an [int] copy of the length field, taken
    right before the comparison.  When the field holds a length that differs
    from its [int] copy, the guard fires although the length has not changed:
    the first call allocates the description and an image buffer of that
    length, and every later call frees the image buffer and allocates another
    one; the length field is the same throughout. *)
Theorem EnableImageStream_reallocates_unchanged_length (this : ptr)
    (bEnable : bool) (indeterminate : LEAP_IMAGE_FRAME_DESCRIPTION) (w : World)
    (o : FLeapWrapper) :
  wrappers w !! this = Some o → heap_ok w → ImageDescription o = nullptr →
  buffer_len_differs abi (buffer_len indeterminate)
    (to_int (buffer_len indeterminate)) = true →
  let len := buffer_len indeterminate in
  let d := brk w in
  ∃ w' o',
    EnableImageStream abi this bEnable indeterminate w = Some (tt, w') ∧
    wrappers w' !! this = Some o' ∧ ImageDescription o' = d ∧
    heap w' !! d =
      Some {| blk_size := sizeof_LEAP_IMAGE_FRAME_DESCRIPTION abi;
              blk_data := DImageDescription {| buffer_len := len;
                                               pBuffer := d + 1 |} |} ∧
    trace w' = trace w ++
      [EvMalloc d (sizeof_LEAP_IMAGE_FRAME_DESCRIPTION abi); EvMalloc (d + 1) len] ∧
    ∀ bEnable' indeterminate', ∃ w'',
      EnableImageStream abi this bEnable' indeterminate' w' = Some (tt, w'') ∧
      wrappers w'' !! this = Some o' ∧
      heap w'' !! d =
        Some {| blk_size := sizeof_LEAP_IMAGE_FRAME_DESCRIPTION abi;
                blk_data := DImageDescription {| buffer_len := len;
                                                 pBuffer := d + 2 |} |} ∧
      trace w'' = trace w' ++ [EvFree (d + 1); EvMalloc (d + 2) len].
Proof.
  intros Ho Hh Hnull Hdiff len d. pose proof Hh as [Hb _]. subst len d.
  unfold EnableImageStream. exec. rewrite Hdiff. exec.
  eexists _, _. split; [reflexivity|]. split; [exec; reflexivity|]. exec.
  split; [done|]. split; [reflexivity|].
  split; [rewrite <- !app_assoc; reflexivity|].
  intros bEnable' indeterminate'. exec. rewrite Hdiff. exec.
  eexists. split; [reflexivity|]. exec. split; [reflexivity|].
  replace (brk w + 1 + 1) with (brk w + 2) by lia.
  split; [reflexivity|]. cbn [trace]. by rewrite <- !app_assoc.
Qed.

(** C4, as amended.  [HandleTrackingEvent] copies the event struct into the
    [LatestFrame] buffer, which is allocated once, at the size of the struct,
    when there is none yet, and is kept as it is otherwise: the buffer never
    grows.  The [OnFrame] call is then made on the pump thread, when there
    is a callback sink, and nothing is posted to the game thread. *)
Theorem HandleTrackingEvent_fixed_size_copy (this : ptr)
    (TrackingEvent : LEAP_TRACKING_EVENT) (w : World) (o : FLeapWrapper) :
  wrappers w !! this = Some o → heap_ok w → lock_ok o w → frame_ok abi o w →
  ∃ w' o',
    HandleTrackingEvent abi this TrackingEvent w = Some (tt, w') ∧
    wrappers w' !! this = Some o' ∧
    heap w' !! LatestFrame o' =
      Some {| blk_size := sizeof_LEAP_TRACKING_EVENT abi;
              blk_data := DTrackingEvent TrackingEvent |} ∧
    (LatestFrame o ≠ nullptr → LatestFrame o' = LatestFrame o) ∧
    game_thread w' = game_thread w ∧
    trace w' =
      trace w ++ [EvLock (DataLock o)] ++
      (if is_null (LatestFrame o)
       then [EvMalloc (LatestFrame o') (sizeof_LEAP_TRACKING_EVENT abi)]
       else []) ++
      [EvUnlock (DataLock o)] ++
      (if is_null (CallbackDelegate o) then []
       else [EvCall PumpThread (CallbackDelegate o) (OnFrame TrackingEvent)]).
Proof.
  intros Ho Hh [sz Hl] Hf. unfold HandleTrackingEvent, SetFrame. exec.
  destruct (is_null_spec (LatestFrame o)) as [E|E]; exec.
  - destruct (is_null_spec (CallbackDelegate o)) as [Ec|Ec]; exec;
      (eexists _, _; split; [reflexivity|]; split; [exec; reflexivity|]; exec;
       split; [reflexivity|]; split; [done|]; split; [done|];
       cbn; rewrite <- ?app_assoc; reflexivity).
  - destruct Hf as [Hf|[e Hf]]; [done|]. exec.
    destruct (is_null_spec (CallbackDelegate o)) as [Ec|Ec]; exec;
      (eexists _, _; split; [reflexivity|]; split; [exec; reflexivity|]; exec;
       split; [reflexivity|]; split; [done|]; split; [done|];
       cbn; rewrite <- ?app_assoc; reflexivity).
Qed.

(** C1, the defect.  When the device opens, the first device-info query
    reports an insufficient buffer and the retry fails, [HandleDeviceEvent]
    frees each of its two serial buffers once and returns without closing the
    device it opened. *)
Theorem HandleDeviceEvent_retry_failure_keeps_device_open (this : ptr)
    (DeviceEvent : LEAP_DEVICE_EVENT) (svc : DeviceService) (w : World)
    (o : FLeapWrapper) :
  wrappers w !! this = Some o → brk w ≠ nullptr →
  open_device_result svc = eLeapRS_Success →
  info_result (first_info svc) = eLeapRS_InsufficientBuffer →
  info_result (second_info svc) ≠ eLeapRS_Success →
  ∃ w' h evs,
    HandleDeviceEvent abi this DeviceEvent svc w = Some (tt, w') ∧
    trace w' = trace w ++ evs ∧
    evs = [EvLeapOpenDevice (device DeviceEvent);
           EvMalloc (brk w) 64;
           EvLeapGetDeviceInfo h (brk w) 64;
           EvFree (brk w);
           EvMalloc (brk w + 1) (answered_length (first_info svc));
           EvLeapGetDeviceInfo h (brk w + 1) (answered_length (first_info svc));
           EvFree (brk w + 1)] ∧
    List.filter is_close_device evs = [].
Proof.
  intros Ho Hb Hopen H1 H2.
  assert (H2' : is_Success (info_result (second_info svc)) = false)
    by (by apply bool_decide_eq_false_2).
  assert (H1' : is_InsufficientBuffer (info_result (first_info svc)) = true)
    by (by rewrite H1).
  assert (Hopen' : is_Success (open_device_result svc) = true)
    by (by rewrite Hopen).
  unfold HandleDeviceEvent, LeapGetDeviceInfo.
  destruct (opened_device svc) as [h|]; exec;
    rewrite Hopen'; exec; rewrite H1'; exec; rewrite H2'; exec;
    (eexists _, _, _; split; [reflexivity|]; cbn [trace heap];
     split; [rewrite <- !app_assoc; reflexivity|]; split; reflexivity).
Qed.

(** C2, the defect.  When the device opens and the first device-info query
    returns anything but [eLeapRS_InsufficientBuffer], a failure included,
    [HandleDeviceEvent] makes no second query, stores what the query left in
    the struct as the current device and, when there is a callback sink,
    posts the [OnDeviceFound] delivery to the game thread. *)
Theorem HandleDeviceEvent_first_failure_is_delivered (this : ptr)
    (DeviceEvent : LEAP_DEVICE_EVENT) (svc : DeviceService) (w : World)
    (o : FLeapWrapper) :
  wrappers w !! this = Some o → heap_ok w → lock_ok o w → device_ok o w →
  open_device_result svc = eLeapRS_Success →
  info_result (first_info svc) ≠ eLeapRS_InsufficientBuffer →
  CallbackDelegate o ≠ nullptr →
  let DeviceProperties :=
    {| info_size := sizeof_LEAP_DEVICE_INFO abi;
       info_caps := answered_caps (first_info svc);
       serial_length := answered_length (first_info svc);
       serial := brk w |} in
  ∃ w' o' sz s evs,
    HandleDeviceEvent abi this DeviceEvent svc w = Some (tt, w') ∧
    wrappers w' !! this = Some o' ∧
    CurrentDeviceInfo o' ≠ nullptr ∧
    heap w' !! CurrentDeviceInfo o' =
      Some {| blk_size := sz;
              blk_data := DDeviceInfo (with_serial s DeviceProperties) |} ∧
    game_thread w' = game_thread w ++ [TaskDeviceFound this DeviceProperties] ∧
    trace w' = trace w ++ evs ∧
    length (List.filter is_get_device_info evs) = 1%nat ∧
    In (EvRunOnGameThread (TaskDeviceFound this DeviceProperties)) evs.
Proof.
  intros Ho Hh [lsz Hl] Hd Hopen H1 Hcb DeviceProperties.
  assert (H1' : is_InsufficientBuffer (info_result (first_info svc)) = false)
    by (by apply bool_decide_eq_false_2).
  assert (Hopen' : is_Success (open_device_result svc) = true)
    by (by rewrite Hopen).
  pose proof Hh as [Hb _].
  unfold HandleDeviceEvent, deliver_device, SetDevice, LeapGetDeviceInfo.
  destruct (opened_device svc) as [h|]; exec;
    rewrite Hopen'; exec; rewrite H1'; exec.
  all: destruct (is_null_spec (CurrentDeviceInfo o)) as [E|E]; exec.
  all: try (destruct Hd as [Hd|(sz' & d & Hd & Hs)]; [done|]; exec;
            destruct (is_null_spec (serial d)) as [E2|E2]; exec;
            [|destruct Hs as [Hs|[len Hs]]; [done|]; exec]).
  all: eexists _, _, _, _, _; split; [reflexivity|];
       split; [exec; reflexivity|]; exec;
       split; [ptr_neq|]; split; [reflexivity|]; split; [reflexivity|];
       split; [rewrite <- !app_assoc; reflexivity|];
       split; [reflexivity|]; cbn; tauto.
Qed.

End Claims.

(** ** The example worlds *)

Lemma heap_ok_decide (w : World) :
  bool_decide (brk w ≠ nullptr ∧ map_Forall (λ p _, p < brk w) (heap w)) = true →
  heap_ok w.
Proof.
  intros [Hb Hall]%bool_decide_eq_true. split; [done|].
  intros p Hp. destruct (heap w !! p) as [b|] eqn:E; [|done].
  apply Hall in E. lia.
Qed.

Ltac by_compute := vm_compute; reflexivity.

(** The example worlds are reached without a fault. *)
Lemma fresh_reached : FLeapWrapper_ctor x64 session zeroed boot = Some (tt, fresh).
Proof. by_compute. Qed.

Lemma running_reached :
  OpenConnection session sink service_up fresh =
  Some (AddressOf_ConnectionHandle session, running).
Proof. by_compute. Qed.

Lemma connected_reached :
  (HandleConnectionEvent session;;
   HandleDeviceEvent x64 session {| device := 1 |} device_up) running =
  Some (tt, connected).
Proof. by_compute. Qed.

Lemma tracked_reached :
  HandleTrackingEvent x64 session no_hands running = Some (tt, tracked).
Proof. by_compute. Qed.

Lemma in_use_reached :
  (game_thread_tick;;
   HandleTrackingEvent x64 session no_hands;;
   (GetInterpolatedFrameAtTime session 0 128 ≫= λ _, mret tt);;
   EnableImageStream x64 session true {| buffer_len := 0; pBuffer := 99 |})
    connected =
  Some (tt, in_use).
Proof. by_compute. Qed.

Lemma running_object : wrappers running !! session = Some (object_of session running).
Proof. by_compute. Qed.

Lemma running_heap_ok : heap_ok running.
Proof. apply heap_ok_decide. by_compute. Qed.

Lemma running_lock_ok : lock_ok (object_of session running) running.
Proof. eexists. by_compute. Qed.

Lemma running_frame_ok : frame_ok x64 (object_of session running) running.
Proof. left. by_compute. Qed.

Lemma running_device_ok : device_ok (object_of session running) running.
Proof. left. by_compute. Qed.

Lemma running_pump_ok : pump_ok x64 session running.
Proof.
  exists (object_of session running).
  split; [apply running_object|]. split; [apply running_heap_ok|].
  split; [apply running_lock_ok|]. split; [apply running_frame_ok|].
  apply running_device_ok.
Qed.

Lemma connected_object :
  wrappers connected !! session = Some (object_of session connected).
Proof. by_compute. Qed.

Lemma connected_device_ok : device_ok (object_of session connected) connected.
Proof.
  right. eexists _, _. split; [by_compute|]. right. eexists. by_compute.
Qed.

(** ** Witnesses, counterexamples and the defects at their inputs *)


(** C5 as stated fails: with a failing create call the wrapper is registered
    as the current context all the same, and the validity check accepts it,
    although it is not running and no pump was started. *)
Lemma OpenConnection_registers_despite_failure :
  ∃ w', OpenConnection session sink service_down fresh =
          Some (AddressOf_ConnectionHandle session, w') ∧
    is_Success (create_result service_down) = false ∧
    LeapContextAtomic fresh = nullptr ∧
    LeapContextAtomic w' = session ∧
    IsLeapContextValid session w' = Some (true, w') ∧
    bIsRunning (object_of session w') = false ∧
    added fresh w' = [EvDelegateStore session sink; EvContextStore session;
                      EvLeapCreateConnection].
Proof.
  eexists. split; [by_compute|]. repeat split; by_compute.
Qed.

(** C5, as amended, at the fresh example wrapper. *)
Lemma OpenConnection_registers_then_opens_witness :
  wrappers fresh !! session = Some (object_of session fresh) ∧
  ∃ w' o',
    OpenConnection session sink service_up fresh =
      Some (AddressOf_ConnectionHandle session, w') ∧
    wrappers w' !! session = Some o' ∧
    LeapContextAtomic w' = session ∧ CallbackDelegate o' = sink ∧
    heap w' = heap fresh ∧ game_thread w' = game_thread fresh ∧
    let both := is_Success (create_result service_up) &&
                is_Success (open_result service_up) in
    bIsRunning o' = both || bIsRunning (object_of session fresh) ∧
    ProducerLambdaFuture o' =
      both || ProducerLambdaFuture (object_of session fresh) ∧
    trace w' =
      trace fresh ++
      [EvDelegateStore session sink; EvContextStore session;
       EvLeapCreateConnection] ++
      (if is_Success (create_result service_up)
       then EvLeapOpenConnection (ConnectionHandle o') ::
            (if is_Success (open_result service_up)
             then [EvRunOnBackGroundThread session] else [])
       else []).
Proof.
  assert (H : wrappers fresh !! session = Some (object_of session fresh))
    by by_compute.
  split; [exact H|].
  apply (OpenConnection_registers_then_opens session sink service_up fresh
           (object_of session fresh) H).
Defined.

(** C4 as stated fails: a frame with two hands is larger than the buffer
    allocated for the first frame, and the buffer is neither reallocated nor
    grown. *)
Lemma HandleTrackingEvent_does_not_grow :
  ∃ w', HandleTrackingEvent x64 session two_hands tracked = Some (tt, w') ∧
    block_size tracked (LatestFrame (object_of session tracked)) = 56 ∧
    tracking_frame_size x64 two_hands = 968 ∧
    LatestFrame (object_of session w') = LatestFrame (object_of session tracked) ∧
    block_size w' (LatestFrame (object_of session w')) = 56 ∧
    mallocs (added tracked w') = [].
Proof.
  eexists. split; [by_compute|]. repeat split; by_compute.
Qed.

(** C4, as amended, at the running example wrapper. *)
Lemma HandleTrackingEvent_fixed_size_copy_witness :
  wrappers running !! session = Some (object_of session running) ∧
  heap_ok running ∧ lock_ok (object_of session running) running ∧
  frame_ok x64 (object_of session running) running ∧
  ∃ w' o',
    HandleTrackingEvent x64 session two_hands running = Some (tt, w') ∧
    wrappers w' !! session = Some o' ∧
    heap w' !! LatestFrame o' =
      Some {| blk_size := sizeof_LEAP_TRACKING_EVENT x64;
              blk_data := DTrackingEvent two_hands |} ∧
    (LatestFrame (object_of session running) ≠ nullptr →
     LatestFrame o' = LatestFrame (object_of session running)) ∧
    game_thread w' = game_thread running ∧
    trace w' =
      trace running ++ [EvLock (DataLock (object_of session running))] ++
      (if is_null (LatestFrame (object_of session running))
       then [EvMalloc (LatestFrame o') (sizeof_LEAP_TRACKING_EVENT x64)]
       else []) ++
      [EvUnlock (DataLock (object_of session running))] ++
      (if is_null (CallbackDelegate (object_of session running)) then []
       else [EvCall PumpThread (CallbackDelegate (object_of session running))
               (OnFrame two_hands)]).
Proof.
  split; [apply running_object|]. split; [apply running_heap_ok|].
  split; [apply running_lock_ok|]. split; [apply running_frame_ok|].
  apply (HandleTrackingEvent_fixed_size_copy x64 session two_hands running
           (object_of session running)).
  - apply running_object.
  - apply running_heap_ok.
  - apply running_lock_ok.
  - apply running_frame_ok.
Defined.

(** C1 at the running example wrapper: the retry fails and the device stays
    open. *)
Lemma HandleDeviceEvent_retry_failure_keeps_device_open_witness :
  wrappers running !! session = Some (object_of session running) ∧
  brk running ≠ nullptr ∧
  open_device_result device_retry_fails = eLeapRS_Success ∧
  info_result (first_info device_retry_fails) = eLeapRS_InsufficientBuffer ∧
  info_result (second_info device_retry_fails) ≠ eLeapRS_Success ∧
  ∃ w' h evs,
    HandleDeviceEvent x64 session {| device := 1 |} device_retry_fails running =
      Some (tt, w') ∧
    trace w' = trace running ++ evs ∧
    evs = [EvLeapOpenDevice (device {| device := 1 |});
           EvMalloc (brk running) 64;
           EvLeapGetDeviceInfo h (brk running) 64;
           EvFree (brk running);
           EvMalloc (brk running + 1)
             (answered_length (first_info device_retry_fails));
           EvLeapGetDeviceInfo h (brk running + 1)
             (answered_length (first_info device_retry_fails));
           EvFree (brk running + 1)] ∧
    List.filter is_close_device evs = [].
Proof.
  assert (H2 : brk running ≠ nullptr) by (vm_compute; discriminate).
  assert (H5 : info_result (second_info device_retry_fails) ≠ eLeapRS_Success)
    by (vm_compute; discriminate).
  split; [apply running_object|]. split; [exact H2|].
  split; [reflexivity|]. split; [reflexivity|]. split; [exact H5|].
  apply (HandleDeviceEvent_retry_failure_keeps_device_open x64 session
           {| device := 1 |} device_retry_fails running
           (object_of session running) running_object H2 eq_refl eq_refl H5).
Defined.

(** C2 at the running example wrapper: the first query fails with an unknown
    error and the device is cached and delivered all the same. *)
Lemma HandleDeviceEvent_first_failure_is_delivered_witness :
  wrappers running !! session = Some (object_of session running) ∧
  heap_ok running ∧ lock_ok (object_of session running) running ∧
  device_ok (object_of session running) running ∧
  open_device_result device_query_fails = eLeapRS_Success ∧
  info_result (first_info device_query_fails) ≠ eLeapRS_InsufficientBuffer ∧
  info_result (first_info device_query_fails) ≠ eLeapRS_Success ∧
  CallbackDelegate (object_of session running) ≠ nullptr ∧
  let DeviceProperties :=
    {| info_size := sizeof_LEAP_DEVICE_INFO x64;
       info_caps := answered_caps (first_info device_query_fails);
       serial_length := answered_length (first_info device_query_fails);
       serial := brk running |} in
  ∃ w' o' sz s evs,
    HandleDeviceEvent x64 session {| device := 1 |} device_query_fails running =
      Some (tt, w') ∧
    wrappers w' !! session = Some o' ∧
    CurrentDeviceInfo o' ≠ nullptr ∧
    heap w' !! CurrentDeviceInfo o' =
      Some {| blk_size := sz;
              blk_data := DDeviceInfo (with_serial s DeviceProperties) |} ∧
    game_thread w' = game_thread running ++ [TaskDeviceFound session DeviceProperties] ∧
    trace w' = trace running ++ evs ∧
    length (List.filter is_get_device_info evs) = 1%nat ∧
    In (EvRunOnGameThread (TaskDeviceFound session DeviceProperties)) evs.
Proof.
  assert (H6 : info_result (first_info device_query_fails) ≠
               eLeapRS_InsufficientBuffer) by (vm_compute; discriminate).
  assert (H7 : info_result (first_info device_query_fails) ≠ eLeapRS_Success)
    by (vm_compute; discriminate).
  assert (H8 : CallbackDelegate (object_of session running) ≠ nullptr)
    by (vm_compute; discriminate).
  split; [apply running_object|]. split; [apply running_heap_ok|].
  split; [apply running_lock_ok|]. split; [apply running_device_ok|].
  split; [reflexivity|]. split; [exact H6|]. split; [exact H7|].
  split; [exact H8|].
  apply (HandleDeviceEvent_first_failure_is_delivered x64 session
           {| device := 1 |} device_query_fails running
           (object_of session running) running_object running_heap_ok
           running_lock_ok running_device_ok eq_refl H6 H8).
Defined.

(** C3, the defect.  On the example wrapper in use, which is connected, the
    destructor deletes the lock before it clears the context pointer, closes
    the connection and frees the serial and the image description, and
    leaves the interpolated frame, the cached tracking frame and the device
    info struct allocated when the object is gone. *)
Theorem dtor_frees_lock_first_and_leaks_frames :
  ∃ w', FLeapWrapper_dtor session in_use = Some (tt, w') ∧
    bIsConnected (object_of session in_use) = true ∧
    DataLock (object_of session in_use) = 1 ∧
    added in_use w' =
      [EvFree 1; EvContextStore nullptr; EvDelegateStore session nullptr;
       EvFree 4; EvWaitFor 3; EvFutureReset; EvDelegateStore session nullptr;
       EvFree 7] ∧
    wrappers w' !! session = None ∧
    InterpolatedFrame (object_of session in_use) = 6 ∧
    heap w' !! 6 = Some {| blk_size := 128; blk_data := Uninit |} ∧
    LatestFrame (object_of session in_use) = 5 ∧
    heap w' !! 5 = Some {| blk_size := 56; blk_data := DTrackingEvent no_hands |} ∧
    CurrentDeviceInfo (object_of session in_use) = 3 ∧
    block_size w' 3 = 48.
Proof.
  eexists. split; [by_compute|]. repeat split; by_compute.
Qed.

(** * More properties of the wrapper *)

(** ** Result names *)

(** X1.  [ResultString] gives every enumerator a name of its own, and none of
    them the name it gives to values it does not know. *)
Theorem ResultString_names_apart (a b : eLeapRS) (raw : Z) :
  (ResultString (Enumerator a) = ResultString (Enumerator b) ↔ a = b) ∧
  ResultString (Enumerator a) ≠ ResultString (OtherValue raw).
Proof.
  split; [split; [|by intros ->]|].
  - destruct a, b; cbn; intros H; first [reflexivity | discriminate H].
  - destruct a; cbn; discriminate.
Qed.

(** ** The editor details panel *)

(** X2.  A click runs the auto mapping on exactly the selected objects that
    are still alive and are anim instances, and on none without an engine;
    the click is always reported as handled. *)
Theorem ClickedOnButton_maps_live_anim_instances (GEngine : bool)
    (SelectedObjects : list DetailsPanel.TWeakObjectPtr) (id : N) :
  snd (DetailsPanel.ClickedOnButton GEngine SelectedObjects) = DetailsPanel.Handled ∧
  (In id (fst (DetailsPanel.ClickedOnButton GEngine SelectedObjects)) ↔
   GEngine = true ∧
   ∃ obj, In (Some obj) SelectedObjects ∧
          DetailsPanel.object_class obj = DetailsPanel.UBodyStateAnimInstance ∧
          DetailsPanel.object_id obj = id).
Proof.
  split; [reflexivity|]. unfold DetailsPanel.ClickedOnButton. cbn [fst].
  destruct GEngine; [|cbn; intuition discriminate].
  induction SelectedObjects as [|[obj|] rest IH]; cbn.
  - split; [tauto|]. intros [_ (obj & [] & _)].
  - destruct obj as [i c]; cbn. destruct c; cbn.
    + rewrite IH. split.
      * intros [<-|[_ (obj & Hin & Hc & Hi)]].
        -- split; [done|]. eexists. split; [left; reflexivity|]. done.
        -- split; [done|]. exists obj. auto.
      * intros [_ (obj & [Heq|Hin] & Hc & Hi)].
        -- injection Heq as <-. left. exact Hi.
        -- right. split; [done|]. exists obj. auto.
    + rewrite IH. split.
      * intros [_ (obj & Hin & Hc & Hi)]. split; [done|]. exists obj. auto.
      * intros [_ (obj & [Heq|Hin] & Hc & Hi)].
        -- injection Heq as <-. discriminate Hc.
        -- split; [done|]. exists obj. auto.
  - rewrite IH. split.
    + intros [_ (obj & Hin & Hc & Hi)]. split; [done|]. exists obj. auto.
    + intros [_ (obj & [Heq|Hin] & Hc & Hi)]; [discriminate Heq|].
      split; [done|]. exists obj. auto.
Qed.

(** ** Closing, and the validity of the context *)

(** X3.  After the pump's lambda has run [CloseConnectionHandle], which
    clears both flags and destroys the connection, [CloseConnection] finds
    the wrapper not connected and does nothing: no wait, no release of the
    cached device, and the callback sink stays set. *)
Theorem CloseConnection_after_CloseConnectionHandle (this : ptr) (w : World)
    (o : FLeapWrapper) :
  wrappers w !! this = Some o →
  ∃ w', CloseConnectionHandle this (AddressOf_ConnectionHandle this) w = Some (tt, w') ∧
    wrappers w' !! this = Some (set_bIsConnected false (set_bIsRunning false o)) ∧
    trace w' = trace w ++ [EvLeapDestroyConnection (ConnectionHandle o)] ∧
    heap w' = heap w ∧
    CloseConnection this w' = Some (tt, w').
Proof.
  intros Ho. unfold CloseConnectionHandle, CloseConnection. exec.
  eexists. split; [reflexivity|]. exec. done.
Qed.

(** X4.  The context slot holds one wrapper: when a second wrapper sets its
    callback sink, the validity check fails for the first one, whose own
    sink is untouched, and holds for the second one exactly when the sink
    it set is not null. *)
Theorem SetCallbackDelegate_last_writer_wins (first second : ptr)
    (InCallbackDelegate : ptr) (w : World) (o1 o2 : FLeapWrapper) :
  first ≠ second →
  wrappers w !! first = Some o1 → wrappers w !! second = Some o2 →
  ∃ w', SetCallbackDelegate second InCallbackDelegate w = Some (tt, w') ∧
    wrappers w' !! first = Some o1 ∧
    IsLeapContextValid first w' = Some (false, w') ∧
    IsLeapContextValid second w' = Some (negb (is_null InCallbackDelegate), w').
Proof.
  intros Hne H1 H2. unfold SetCallbackDelegate, IsLeapContextValid. exec.
  eexists. split; [reflexivity|]. exec.
  rewrite N.eqb_refl. exec.
  destruct (N.eqb_spec first second) as [|_]; [done|]. done.
Qed.

(** The validity check reads the context slot and the wrapper only. *)
Lemma IsLeapContextValid_false_ext (c : ptr) (w w1 : World) :
  LeapContextAtomic w1 = LeapContextAtomic w → wrappers w1 = wrappers w →
  IsLeapContextValid c w = Some (false, w) →
  IsLeapContextValid c w1 = Some (false, w1).
Proof.
  intros Hc Hw. unfold IsLeapContextValid. exec. rewrite Hc.
  destruct (c =? LeapContextAtomic w); [|done]. rewrite Hw.
  destruct (wrappers w !! c) as [o|]; [|done].
  destruct (is_null (CallbackDelegate o)); cbn; [done|]. intros [=].
Qed.

Lemma free_all_effects (ps : list ptr) :
  ∀ w w', free_all ps w = Some (tt, w') →
    wrappers w' = wrappers w ∧ LeapContextAtomic w' = LeapContextAtomic w ∧
    game_thread w' = game_thread w ∧
    ∃ evs, trace w' = trace w ++ evs ∧ Forall (λ e, is_free e = true) evs.
Proof.
  induction ps as [|p ps IH]; intros w w'; cbn [free_all].
  - intros [= <-]. repeat split. exists []. by rewrite app_nil_r.
  - exec. destruct (is_null p).
    + intros H. by apply IH.
    + destruct (heap w !! p); [|done]. intros H.
      apply IH in H as (Hw & Hc & Hg & evs & Ht & Hf). cbn in *.
      repeat split; [done..|]. exists (EvFree p :: evs).
      split; [by rewrite Ht, <- app_assoc|]. by constructor.
Qed.

Lemma guarded_call_invalid (c : ptr) (cb : M Callback) (w : World) :
  IsLeapContextValid c w = Some (false, w) →
  guarded_call c cb w = Some (tt, w).
Proof. intros Hv. unfold guarded_call. by rewrite run_bind, Hv. Qed.

Lemma free_keeps_context (p : ptr) (w w1 : World) :
  free p w = Some (tt, w1) →
  LeapContextAtomic w1 = LeapContextAtomic w ∧ wrappers w1 = wrappers w.
Proof.
  exec. destruct (is_null p); [by intros [= <-]|].
  destruct (heap w !! p); [|done]. by intros [= <-].
Qed.

(** X5.  When the validity check fails for a context, running lambdas that
    captured it amounts to freeing the serial buffers of the pending
    [OnDeviceFound] lambdas and nothing else: no callback is made and the
    wrapper is not touched. *)
Theorem run_tasks_invalid_context (c : ptr) (ts : list Task) (w : World) :
  Forall (λ t, task_context t = c) ts →
  IsLeapContextValid c w = Some (false, w) →
  run_tasks ts w = free_all (pending_serials ts) w ∧
  ∀ w', run_tasks ts w = Some (tt, w') →
    wrappers w' = wrappers w ∧ game_thread w' = game_thread w ∧
    ∃ evs, trace w' = trace w ++ evs ∧ Forall (λ e, is_free e = true) evs.
Proof.
  intros Hts Hv.
  assert (Heq : run_tasks ts w = free_all (pending_serials ts) w).
  { revert w Hv. induction Hts as [|t ts Ht _ IH]; intros w Hv; [done|].
    destruct t; cbn in Ht; subst;
      cbn [run_tasks run_task pending_serials free_all];
      rewrite !run_bind, (guarded_call_invalid _ _ _ Hv); try by apply IH.
    destruct (free (serial DeviceProperties) w) as [[[] w1]|] eqn:Hf; [|done].
    apply IH. apply free_keeps_context in Hf as [Hc Hw].
    by apply (IsLeapContextValid_false_ext c w). }
  split; [exact Heq|]. intros w' Hrun. rewrite Heq in Hrun.
  apply free_all_effects in Hrun as (Hw & _ & Hg & Hev). done.
Qed.

(** X6.  [CloseConnection] on a connected wrapper makes the validity check
    fail for it; the lambdas already posted stay queued. *)
Theorem CloseConnection_invalidates_context (this : ptr) (w : World)
    (o : FLeapWrapper) :
  wrappers w !! this = Some o → device_ok o w → bIsConnected o = true →
  ∃ w', CloseConnection this w = Some (tt, w') ∧
    IsLeapContextValid this w' = Some (false, w') ∧
    game_thread w' = game_thread w.
Proof.
  intros Ho Hd Hc. unfold CloseConnection, CleanupLastDevice. exec.
  rewrite Hc. exec.
  destruct (is_null_spec (CurrentDeviceInfo o)) as [E|E]; exec.
  - eexists. split; [reflexivity|]. unfold IsLeapContextValid. exec.
    destruct (this =? LeapContextAtomic w); exec; done.
  - destruct Hd as [Hd|(sz & d & Hd & Hs)]; [done|]. exec.
    destruct (is_null_spec (serial d)) as [E2|E2]; exec.
    + eexists. split; [reflexivity|]. unfold IsLeapContextValid. exec.
      destruct (this =? LeapContextAtomic w); exec; done.
    + destruct Hs as [Hs|[len Hs]]; [done|]. exec.
      eexists. split; [reflexivity|]. unfold IsLeapContextValid. exec.
      destruct (this =? LeapContextAtomic w); exec; done.
Qed.

(** X7.  The destructor of a wrapper whose lock, cached device and image
    description are in order returns; afterwards the object is gone, the
    context slot is null, and the validity check for the wrapper's address
    fails without touching the dead object.  The lambdas already posted stay
    queued. *)
Theorem FLeapWrapper_dtor_invalidates_context (this : ptr) (w : World)
    (o : FLeapWrapper) :
  this ≠ nullptr →
  wrappers w !! this = Some o → lock_ok o w → device_ok o w →
  image_ok o w → image_apart o w →
  ∃ w', FLeapWrapper_dtor this w = Some (tt, w') ∧
    wrappers w' !! this = None ∧ LeapContextAtomic w' = nullptr ∧
    IsLeapContextValid this w' = Some (false, w') ∧
    game_thread w' = game_thread w.
Proof.
  intros Hthis Ho [lsz Hl] Hd Hi Hap.
  assert (Hfin : ∀ w', wrappers w' !! this = None →
            LeapContextAtomic w' = nullptr →
            IsLeapContextValid this w' = Some (false, w')).
  { intros w' Hw Hc. unfold IsLeapContextValid. exec. rewrite Hc.
    destruct (N.eqb_spec this nullptr); done. }
  unfold FLeapWrapper_dtor, CloseConnection, CleanupLastDevice, end_of_lifetime.
  unfold image_apart in Hap. exec.
  destruct (is_null_spec (DataLock o)) as [El|El]; exec.
  all: destruct (bIsConnected o) eqn:Hc; exec; rewrite ?Hc; exec.
  all: try (destruct (is_null_spec (CurrentDeviceInfo o)) as [E|E]; exec;
            [|destruct Hd as [Hd|(sz & d & Hd & Hs)]; [done|]; exec;
              destruct (is_null_spec (serial d)) as [E2|E2]; exec;
              [|destruct Hs as [Hs|[len Hs]]; [done|]; exec]]).
  all: destruct (is_null_spec (ImageDescription o)) as [Ei|Ei]; exec.
  all: try (destruct Hi as [Hi|(isz & id & Hi & Hb)]; [done|]; exec;
            destruct (is_null_spec (pBuffer id)) as [Eb|Eb]; exec;
            [|destruct Hb as [Hb|[blen Hb]]; [done|];
              try (pose proof (Hap _ _ _ _ Hi Hd Eb)); exec]).
  all: eexists; split; [reflexivity|]; cbn [wrappers LeapContextAtomic game_thread];
       split; [apply lookup_delete_eq|]; split; [reflexivity|];
       split; [apply Hfin; [apply lookup_delete_eq|reflexivity]|reflexivity].
Qed.

Section MoreProofs.

Context (abi : ABI).

(** X8.  The constructor, run with members whose frame and device pointers
    are null, leaves a wrapper that satisfies the invariants the pump and
    [GetInterpolatedFrameAtTime] rely on, has a null interpolation buffer of
    recorded size 0, is not running, and owns a lock that is a fresh block of
    the size of a critical section, the one block it allocates; blocks that
    were live stay as they are. *)
Theorem FLeapWrapper_ctor_establishes_invariants (this : ptr)
    (members : FLeapWrapper) (w : World) :
  heap_ok w →
  LatestFrame members = nullptr → CurrentDeviceInfo members = nullptr →
  ∃ w' o, FLeapWrapper_ctor abi this members w = Some (tt, w') ∧
    wrappers w' !! this = Some o ∧
    pump_ok abi this w' ∧ interpolation_ok o w' ∧
    bIsRunning o = false ∧ DataLock o = brk w ∧
    (∀ p b, heap w !! p = Some b → heap w' !! p = Some b) ∧
    LeapContextAtomic w' = LeapContextAtomic w ∧ game_thread w' = game_thread w ∧
    InterpolatedFrame o = nullptr ∧ InterpolatedFrameSize o = 0 ∧
    heap w' = <[brk w := {| blk_size := sizeof_FCriticalSection abi;
                            blk_data := DCriticalSection |}]> (heap w) ∧
    trace w' = trace w ++ [EvMalloc (brk w) (sizeof_FCriticalSection abi)].
Proof.
  intros Hh Hf Hd. unfold FLeapWrapper_ctor. exec.
  eexists _, _. split; [reflexivity|]. split; [exec; reflexivity|].
  split.
  { eexists. split; [exec; reflexivity|]. split; [heap_ok_tac|].
    split; [eexists; exec; reflexivity|]. split; left; exec; done. }
  split; [left; done|]. split; [done|]. split; [done|].
  split; [intros p b Hp; exec; done|]. do 4 (split; [done|]).
  split; [|done]. cbn [heap]. by rewrite insert_insert_eq.
Qed.

(** X9.  On a wrapper that satisfies the pump's invariants, the message loop
    never faults: whatever the polls return, whenever the flag is cleared
    and whatever the service answers to the device queries, as long as the
    serial lengths it answers fit the buffers, the loop handles the polls,
    makes no copy that leaves its buffers and re-establishes the
    invariants. *)
Theorem ServiceMessageLoop_never_faults (this : ptr) (polls : list Poll)
    (w : World) :
  pump_ok abi this w → Forall poll_fits polls →
  ∃ r w' evs, ServiceMessageLoop abi this polls w = Some (r, w') ∧
    pump_ok abi this w' ∧ trace w' = trace w ++ evs ∧ copies_within [] evs.
Proof.
  intros Hok Hfit. pose proof Hok as (o & Ho & _).
  unfold ServiceMessageLoop. rewrite run_bind. exec.
  by apply message_loop_copies.
Qed.

(** X10.  Polls that fail are never dispatched: over a run of failed polls
    with no stop request, the loop adds to the trace the polls themselves,
    each followed by a 100 ms sleep exactly when the wrapper is not
    connected, changes nothing else and stays in the loop. *)
Theorem ServiceMessageLoop_failed_polls (this : ptr) (polls : list Poll)
    (w : World) (o : FLeapWrapper) :
  wrappers w !! this = Some o → bIsRunning o = true →
  Forall (λ p, no_stop p ∧ poll_result p ≠ eLeapRS_Success) polls →
  ServiceMessageLoop abi this polls w =
  Some (LoopPolling,
        {| LeapContextAtomic := LeapContextAtomic w; wrappers := wrappers w;
           heap := heap w; brk := brk w; game_thread := game_thread w;
           trace := trace w ++
                    failed_poll_events (ConnectionHandle o) (bIsConnected o) polls |}).
Proof.
  intros Ho Hrun Hall. unfold ServiceMessageLoop. rewrite run_bind. exec.
  generalize (ConnectionHandle o) as Handle. intros Handle.
  assert (Hgen : ∀ tr,
    message_loop abi this Handle polls
      {| LeapContextAtomic := LeapContextAtomic w; wrappers := wrappers w;
         heap := heap w; brk := brk w; game_thread := game_thread w;
         trace := tr |} =
    Some (LoopPolling,
          {| LeapContextAtomic := LeapContextAtomic w; wrappers := wrappers w;
             heap := heap w; brk := brk w; game_thread := game_thread w;
             trace := tr ++ failed_poll_events Handle (bIsConnected o) polls |})).
  { induction Hall as [|p polls [[Hs1 Hs2] Hres] _ IH]; intros tr;
      cbn [message_loop failed_poll_events flat_map]; exec; rewrite Hrun; exec.
    - by rewrite app_nil_r.
    - assert (Hf : is_Success (poll_result p) = false)
        by (by apply bool_decide_eq_false_2).
      unfold LeapPollConnection. exec. rewrite Hf, Hs1. exec. rewrite Hrun. exec.
      destruct (bIsConnected o); exec; rewrite IH;
        unfold failed_poll_events; by rewrite <- !app_assoc. }
  destruct w as [c ws h b g tr]. apply Hgen.
Qed.

End MoreProofs.

(** ** The caches *)

Section Caches.

Context (abi : ABI).

(** X11.  After [SetDevice], [GetDeviceProperties] returns a struct that
    holds the given properties with a serial buffer of its own: a fresh block
    of the given length.  A struct that was there is reused, and its old
    serial buffer is no longer allocated. *)
Theorem SetDevice_then_GetDeviceProperties (this : ptr)
    (DeviceProps : LEAP_DEVICE_INFO) (w : World) (o : FLeapWrapper) :
  wrappers w !! this = Some o → heap_ok w → lock_ok o w → device_ok o w →
  ∃ w' p s sz,
    (SetDevice abi this DeviceProps;; GetDeviceProperties this) w = Some (p, w') ∧
    p ≠ nullptr ∧
    (CurrentDeviceInfo o ≠ nullptr → p = CurrentDeviceInfo o) ∧
    heap w' !! p =
      Some {| blk_size := sz;
              blk_data := DDeviceInfo (with_serial s DeviceProps) |} ∧
    heap w !! s = None ∧
    heap w' !! s =
      Some {| blk_size := serial_length DeviceProps; blk_data := Uninit |} ∧
    (∀ sz0 d, heap w !! CurrentDeviceInfo o =
                Some {| blk_size := sz0; blk_data := DDeviceInfo d |} →
              CurrentDeviceInfo o ≠ nullptr → serial d ≠ nullptr →
              heap w' !! serial d = None).
Proof.
  intros Ho Hh [lsz Hl] Hd. pose proof Hh as [Hb Hfresh].
  unfold SetDevice, GetDeviceProperties. exec.
  destruct (is_null_spec (CurrentDeviceInfo o)) as [E|E]; exec.
  - eexists _, _, _, _. split; [reflexivity|].
    split; [ptr_neq|]. split; [done|]. split; [exec; reflexivity|].
    split; [apply Hfresh; lia|]. split; [exec; reflexivity|].
    intros ? ? _ ?. done.
  - destruct Hd as [Hd|(sz' & d & Hd & Hs)]; [done|]. exec.
    destruct (is_null_spec (serial d)) as [E2|E2]; exec.
    + eexists _, _, _, _. split; [reflexivity|].
      split; [done|]. split; [done|]. split; [exec; reflexivity|].
      split; [apply Hfresh; lia|]. split; [exec; reflexivity|].
      intros ? ? [= <- <-] _ ?. done.
    + destruct Hs as [Hs|[len Hs]]; [done|]. exec.
      eexists _, _, _, _. split; [reflexivity|].
      split; [done|]. split; [done|]. split; [exec; reflexivity|].
      split; [apply Hfresh; lia|]. split; [exec; reflexivity|].
      intros ? ? [= <- <-] _ _. exec. done.
Qed.

(** X12.  After a connection-lost event, the wrapper is not connected and
    [GetDeviceProperties] returns null.  The serial buffer of the device that
    was cached is freed; the struct itself stays allocated. *)
Theorem HandleConnectionLostEvent_forgets_device (this : ptr) (w : World)
    (o : FLeapWrapper) :
  wrappers w !! this = Some o → lock_ok o w → device_ok o w →
  ∃ w' o',
    (HandleConnectionLostEvent this;; GetDeviceProperties this) w =
      Some (nullptr, w') ∧
    wrappers w' !! this = Some o' ∧ bIsConnected o' = false ∧
    CurrentDeviceInfo o' = nullptr ∧
    (∀ sz d, heap w !! CurrentDeviceInfo o =
               Some {| blk_size := sz; blk_data := DDeviceInfo d |} →
             CurrentDeviceInfo o ≠ nullptr →
             heap w' !! CurrentDeviceInfo o =
               Some {| blk_size := sz; blk_data := DDeviceInfo d |} ∧
             (serial d ≠ nullptr → heap w' !! serial d = None)).
Proof.
  intros Ho [lsz Hl] Hd.
  unfold HandleConnectionLostEvent, CleanupLastDevice, GetDeviceProperties. exec.
  destruct (is_null_spec (CurrentDeviceInfo o)) as [E|E]; exec.
  - destruct (is_null_spec (CallbackDelegate o)); exec;
      (eexists _, _; split; [reflexivity|]; split; [exec; reflexivity|];
       repeat split; done).
  - destruct Hd as [Hd|(sz' & d & Hd & Hs)]; [done|]. exec.
    destruct (is_null_spec (serial d)) as [E2|E2]; exec.
    + destruct (is_null_spec (CallbackDelegate o)); exec;
        (eexists _, _; split; [reflexivity|]; split; [exec; reflexivity|];
         split; [done|]; split; [done|]; intros ? ? [= <- <-] _; exec; done).
    + destruct Hs as [Hs|[len Hs]]; [done|]. exec.
      destruct (is_null_spec (CallbackDelegate o)); exec;
        (eexists _, _; split; [reflexivity|]; split; [exec; reflexivity|];
         split; [done|]; split; [done|]; intros ? ? [= <- <-] _; exec; done).
Qed.

(** X13.  [GetFrame] returns the buffer that holds the latest tracking
    event.  A second event is written into the same buffer: the pointer
    returned before still is the one returned after, and now holds the second
    event. *)
Theorem GetFrame_after_tracking_events (this : ptr)
    (e1 e2 : LEAP_TRACKING_EVENT) (w : World) (o : FLeapWrapper) :
  wrappers w !! this = Some o → heap_ok w → lock_ok o w → frame_ok abi o w →
  ∃ p w1 w1' w2,
    HandleTrackingEvent abi this e1 w = Some (tt, w1) ∧
    GetFrame this w1 = Some (p, w1') ∧
    heap w1' !! p =
      Some {| blk_size := sizeof_LEAP_TRACKING_EVENT abi;
              blk_data := DTrackingEvent e1 |} ∧
    (HandleTrackingEvent abi this e2;; GetFrame this) w1' = Some (p, w2) ∧
    heap w2 !! p =
      Some {| blk_size := sizeof_LEAP_TRACKING_EVENT abi;
              blk_data := DTrackingEvent e2 |} ∧
    p ≠ nullptr.
Proof.
  intros Ho Hh [lsz Hl] Hf. pose proof Hh as [Hb _].
  unfold HandleTrackingEvent, SetFrame, GetFrame. exec.
  destruct (is_null_spec (LatestFrame o)) as [E|E]; exec.
  - destruct (is_null_spec (CallbackDelegate o)); exec;
      (eexists _, _, _, _; split; [reflexivity|]; exec;
       split; [reflexivity|]; exec; split; [reflexivity|];
       split; [reflexivity|]; exec; split; [reflexivity|]; ptr_neq).
  - destruct Hf as [Hf|[e Hf]]; [done|]. exec.
    destruct (is_null_spec (CallbackDelegate o)); exec;
      (eexists _, _, _, _; split; [reflexivity|]; exec;
       split; [reflexivity|]; exec; split; [reflexivity|];
       split; [reflexivity|]; exec; split; [reflexivity|]; done).
Qed.

(** X14.  When it reallocates, [GetInterpolatedFrameAtTime] frees the
    buffer it had: the heap afterwards is the old one without the previous
    buffer and with the new one, a fresh block of the reported size. *)
Theorem GetInterpolatedFrameAtTime_frees_previous (this : ptr) (w : World)
    (o : FLeapWrapper) (TimeStamp : Z) (FrameSize : N) :
  wrappers w !! this = Some o → heap_ok w → interpolation_ok o w →
  InterpolatedFrame o ≠ nullptr →
  0 < FrameSize → FrameSize ≠ InterpolatedFrameSize o →
  ∃ w', GetInterpolatedFrameAtTime this TimeStamp FrameSize w =
          Some (brk w, w') ∧
    heap w' = <[brk w := {| blk_size := FrameSize; blk_data := Uninit |}]>
                (delete (InterpolatedFrame o) (heap w)) ∧
    heap w !! brk w = None ∧
    heap w' !! InterpolatedFrame o = None.
Proof.
  intros Ho Hh Hi Hn Hpos Hne. pose proof Hh as [Hb Hfresh].
  unfold GetInterpolatedFrameAtTime. exec.
  destruct (N.ltb_spec 0 FrameSize) as [_|]; [|lia]. exec.
  destruct (N.eqb_spec FrameSize (InterpolatedFrameSize o)) as [|_]; [done|]. exec.
  destruct Hi as [[Hz _]|(b & Hbk & Hsz)]; [done|]. exec.
  eexists. split; [reflexivity|]. exec. split; [reflexivity|].
  split; [apply Hfresh; lia|]. done.
Qed.

End Caches.

(** ** Delivery *)

Section Delivery.

Context (abi : ABI).

(** X15.  When the device cannot be opened, [HandleDeviceEvent] drops the
    event: beyond the open call (and the handle it may have written) it
    allocates nothing, leaves the cached device as it is and posts nothing. *)
Theorem HandleDeviceEvent_open_failure_drops (this : ptr)
    (DeviceEvent : LEAP_DEVICE_EVENT) (svc : DeviceService) (w : World)
    (o : FLeapWrapper) :
  wrappers w !! this = Some o →
  open_device_result svc ≠ eLeapRS_Success →
  ∃ w' o', HandleDeviceEvent abi this DeviceEvent svc w = Some (tt, w') ∧
    wrappers w' !! this = Some o' ∧
    CurrentDeviceInfo o' = CurrentDeviceInfo o ∧
    heap w' = heap w ∧ brk w' = brk w ∧ game_thread w' = game_thread w ∧
    trace w' = trace w ++ [EvLeapOpenDevice (device DeviceEvent)].
Proof.
  intros Ho Hopen.
  assert (Hf : is_Success (open_device_result svc) = false)
    by (by apply bool_decide_eq_false_2).
  unfold HandleDeviceEvent.
  destruct (opened_device svc) as [h|]; exec; rewrite Hf; exec;
    (eexists _, _; split; [reflexivity|]; split; [exec; reflexivity|]; done).
Qed.

(** X16.  When the query reaches delivery and the context is valid,
    [HandleDeviceEvent] followed by a tick of the game thread closes the
    device once, delivers [OnDeviceFound] once, on the game thread, and
    frees the serial buffer it queried into, which is not the buffer of the
    cached copy: the cache invariants hold afterwards. *)
Theorem HandleDeviceEvent_then_tick_delivers (this : ptr)
    (DeviceEvent : LEAP_DEVICE_EVENT) (svc : DeviceService) (w : World)
    (o : FLeapWrapper) :
  wrappers w !! this = Some o → heap_ok w → lock_ok o w →
  frame_ok abi o w → device_ok o w →
  CallbackDelegate o ≠ nullptr → LeapContextAtomic w = this →
  game_thread w = [] →
  open_device_result svc = eLeapRS_Success →
  reaches_delivery svc = true →
  ∃ w' o' evs buf props,
    (HandleDeviceEvent abi this DeviceEvent svc;; game_thread_tick) w =
      Some (tt, w') ∧
    wrappers w' !! this = Some o' ∧
    pump_ok abi this w' ∧ game_thread w' = [] ∧
    trace w' = trace w ++ evs ∧
    List.filter is_close_device evs = [EvLeapCloseDevice (DeviceHandle o')] ∧
    List.filter is_delivery evs =
      [EvRunOnGameThread (TaskDeviceFound this props);
       EvCall GameThread (CallbackDelegate o) (OnDeviceFound props)] ∧
    serial props = buf ∧ In (EvFree buf) evs ∧ heap w' !! buf = None ∧
    CurrentDeviceInfo o' ≠ nullptr.
Proof.
  intros Ho Hh [lsz Hl] Hf Hd Hcb Hctx Hq Hopen Hreach.
  assert (Hopen' : is_Success (open_device_result svc) = true)
    by (by rewrite Hopen).
  pose proof Hh as [Hb _]. unfold reaches_delivery in Hreach.
  unfold HandleDeviceEvent, deliver_device, SetDevice, LeapGetDeviceInfo,
    game_thread_tick.
  destruct (opened_device svc) as [h|]; exec; rewrite Hopen'; exec.
  all: destruct (is_InsufficientBuffer (info_result (first_info svc))); exec.
  all: try (destruct (is_Success (info_result (second_info svc))); [|done]; exec).
  all: destruct (is_null_spec (CurrentDeviceInfo o)) as [E|E]; exec.
  all: try (destruct Hd as [Hd|(sz' & d & Hd & Hs)]; [done|]; exec;
            destruct (is_null_spec (serial d)) as [E2|E2]; exec;
            [|destruct Hs as [Hs|[len Hs]]; [done|]; exec]).
  all: rewrite Hq; cbn [app run_tasks run_task];
       unfold guarded_call, IsLeapContextValid; exec;
       rewrite Hctx, N.eqb_refl; exec.
  all: eexists _, _, _, _, _; split; [reflexivity|];
       split; [exec; reflexivity|];
       split; [eexists; split; [exec; reflexivity|];
               split; [heap_ok_tac|]; split; [inv_solve|]; split; inv_solve|];
       split; [reflexivity|];
       split; [cbn [trace]; rewrite <- !app_assoc; reflexivity|];
       split; [reflexivity|]; split; [reflexivity|]; split; [reflexivity|];
       split; [cbn; tauto|]; split; [exec; reflexivity|]; exec; ptr_neq.
Qed.

(** X17.  Run with a valid context and a cached device, the lambda of a
    device-lost event calls [OnDeviceLost] with the serial of the cached
    device, on the game thread, and changes nothing else. *)
Theorem TaskDeviceLost_reads_cached_serial (this : ptr) (w : World)
    (o : FLeapWrapper) (sz : N) (d : LEAP_DEVICE_INFO) :
  wrappers w !! this = Some o → LeapContextAtomic w = this →
  CallbackDelegate o ≠ nullptr →
  heap w !! CurrentDeviceInfo o =
    Some {| blk_size := sz; blk_data := DDeviceInfo d |} →
  run_task (TaskDeviceLost this) w =
  Some (tt, {| LeapContextAtomic := LeapContextAtomic w; wrappers := wrappers w;
               heap := heap w; brk := brk w; game_thread := game_thread w;
               trace := trace w ++
                 [EvCall GameThread (CallbackDelegate o) (OnDeviceLost (serial d))] |}).
Proof.
  intros Ho Hctx Hcb Hd. subst this. cbn [run_task].
  unfold guarded_call, IsLeapContextValid.
  exec. rewrite N.eqb_refl. exec. done.
Qed.

(** X18.  Run with a valid context while no device is cached, the lambda of
    a device-lost event reads the serial through the null
    [CurrentDeviceInfo]: a fault. *)
Theorem TaskDeviceLost_without_device_faults (this : ptr) (w : World)
    (o : FLeapWrapper) :
  wrappers w !! this = Some o → LeapContextAtomic w = this →
  CallbackDelegate o ≠ nullptr →
  CurrentDeviceInfo o = nullptr → heap w !! nullptr = None →
  run_task (TaskDeviceLost this) w = None.
Proof.
  intros Ho Hctx Hcb Hd Hnull. cbn [run_task].
  unfold guarded_call, IsLeapContextValid.
  exec. rewrite Hctx, N.eqb_refl. exec. rewrite Hd, Hnull. done.
Qed.

(** X19.  For a device-failure, log, policy, tracking-mode, config-change
    or config-response message, with a callback sink set, dispatch posts one
    lambda and does nothing else.  Run later with a valid context, the lambda
    makes one call, on the game thread: with the value the handler copied,
    for a policy or tracking-mode message; with the fields that the event
    pointer reads at that time, for the others, and it faults when the
    pointer no longer leads to such an event.  A tick of the game thread
    right after dispatch delivers what the event memory holds then. *)
Theorem dispatch_then_tick_defers (this : ptr) (Msg : LEAP_CONNECTION_MESSAGE)
    (svc : DeviceService) (t : Task) (w : World) (o : FLeapWrapper) :
  deferred_task this Msg = Some t →
  wrappers w !! this = Some o → CallbackDelegate o ≠ nullptr →
  dispatch abi this Msg svc w =
    Some (tt, {| LeapContextAtomic := LeapContextAtomic w; wrappers := wrappers w;
                 heap := heap w; brk := brk w; game_thread := game_thread w ++ [t];
                 trace := trace w ++ [EvRunOnGameThread t] |}) ∧
  task_context t = this ∧
  (∀ w1 o1, wrappers w1 !! this = Some o1 → CallbackDelegate o1 ≠ nullptr →
     LeapContextAtomic w1 = this →
     run_task t w1 =
     match deferred_callback Msg (heap w1) with
     | Some cb =>
         Some (tt, {| LeapContextAtomic := LeapContextAtomic w1;
                      wrappers := wrappers w1; heap := heap w1; brk := brk w1;
                      game_thread := game_thread w1;
                      trace := trace w1 ++
                               [EvCall GameThread (CallbackDelegate o1) cb] |})
     | None => None
     end) ∧
  (LeapContextAtomic w = this → game_thread w = [] →
   (dispatch abi this Msg svc;; game_thread_tick) w =
   match deferred_callback Msg (heap w) with
   | Some cb =>
       Some (tt, {| LeapContextAtomic := LeapContextAtomic w; wrappers := wrappers w;
                    heap := heap w; brk := brk w; game_thread := [];
                    trace := trace w ++
                      [EvRunOnGameThread t;
                       EvCall GameThread (CallbackDelegate o) cb] |})
   | None => None
   end).
Proof.
  intros Ht Ho Hd.
  assert (Hrun : ∀ w1 o1, wrappers w1 !! this = Some o1 →
     CallbackDelegate o1 ≠ nullptr → LeapContextAtomic w1 = this →
     run_task t w1 =
     match deferred_callback Msg (heap w1) with
     | Some cb =>
         Some (tt, {| LeapContextAtomic := LeapContextAtomic w1;
                      wrappers := wrappers w1; heap := heap w1; brk := brk w1;
                      game_thread := game_thread w1;
                      trace := trace w1 ++
                               [EvCall GameThread (CallbackDelegate o1) cb] |})
     | None => None
     end).
  { intros w1 o1 Ho1 Hd1 Hctx. subst this.
    destruct Msg; cbn in Ht; try discriminate; injection Ht as <-;
      cbn [run_task deferred_callback]; unfold guarded_call, IsLeapContextValid,
        data_at; exec; rewrite N.eqb_refl; exec; try done.
    all: match goal with
         | |- context [heap ?w0 !! ?p] =>
             destruct (heap w0 !! p) as [[sz []]|]; cbn; done
         end. }
  assert (Hpost : dispatch abi this Msg svc w =
    Some (tt, {| LeapContextAtomic := LeapContextAtomic w; wrappers := wrappers w;
                 heap := heap w; brk := brk w; game_thread := game_thread w ++ [t];
                 trace := trace w ++ [EvRunOnGameThread t] |})).
  { destruct Msg; cbn in Ht; try discriminate; injection Ht as <-;
      cbn [dispatch];
      unfold HandleDeviceFailureEvent, HandleLogEvent, HandlePolicyEvent,
        HandleTrackingModeEvent, HandleConfigChangeEvent,
        HandleConfigResponseEvent; exec; done. }
  split; [exact Hpost|]. split.
  { destruct Msg; cbn in Ht; try discriminate; by injection Ht as <-. }
  split; [exact Hrun|].
  intros Hctx Hq. rewrite run_bind, Hpost. unfold game_thread_tick.
  cbn [game_thread LeapContextAtomic wrappers heap brk trace]. rewrite Hq.
  cbn [app run_tasks]. rewrite run_bind.
  rewrite (Hrun _ o); [|done..]. cbn [heap].
  destruct (deferred_callback Msg (heap w)); [|done].
  cbn. by rewrite <- app_assoc.
Qed.

(** X20.  For a connection, connection-lost, tracking or image message, with
    a callback sink set, dispatch makes exactly one delivery: the call, on
    the pump thread, with the event; nothing is posted to the game thread. *)
Theorem dispatch_calls_directly (this : ptr) (Msg : LEAP_CONNECTION_MESSAGE)
    (svc : DeviceService) (cb : Callback) (w : World) (o : FLeapWrapper) :
  direct_callback Msg = Some cb →
  wrappers w !! this = Some o → heap_ok w → lock_ok o w →
  frame_ok abi o w → device_ok o w → CallbackDelegate o ≠ nullptr →
  ∃ w' evs, dispatch abi this Msg svc w = Some (tt, w') ∧
    trace w' = trace w ++ evs ∧
    List.filter is_delivery evs = [EvCall PumpThread (CallbackDelegate o) cb] ∧
    game_thread w' = game_thread w.
Proof.
  intros Hcb Ho Hh [lsz Hl] Hf Hd Hcd.
  destruct Msg; cbn in Hcb; try discriminate; injection Hcb as <-;
    cbn [dispatch];
    unfold HandleConnectionEvent, HandleConnectionLostEvent, CleanupLastDevice,
      HandleTrackingEvent, SetFrame, HandleImageEvent; exec.
  - eexists _, _. split; [reflexivity|]. cbn [trace game_thread].
    split; [reflexivity|]. done.
  - destruct (is_null_spec (CurrentDeviceInfo o)) as [E|E]; exec;
      [|destruct Hd as [Hd|(sz' & d & Hd & Hs)]; [done|]; exec;
        destruct (is_null_spec (serial d)) as [E2|E2]; exec;
        [|destruct Hs as [Hs|[len Hs]]; [done|]; exec]].
    all: eexists _, _; split; [reflexivity|]; cbn [trace game_thread];
         split; [rewrite <- ?app_assoc; reflexivity|]; done.
  - destruct (is_null_spec (LatestFrame o)) as [E|E]; exec;
      [|destruct Hf as [Hf|[e Hf]]; [done|]; exec].
    all: eexists _, _; split; [reflexivity|]; cbn [trace game_thread];
         split; [rewrite <- ?app_assoc; reflexivity|]; done.
  - eexists _, _. split; [reflexivity|]. cbn [trace game_thread].
    split; [reflexivity|]. done.
Qed.

(** X21.  Without a callback sink nothing is delivered: whatever the
    message and the answers of the service, dispatch returns, makes no call
    and posts no lambda. *)
Theorem dispatch_without_delegate_is_silent (this : ptr)
    (Msg : LEAP_CONNECTION_MESSAGE) (svc : DeviceService) (w : World)
    (o : FLeapWrapper) :
  wrappers w !! this = Some o → heap_ok w → lock_ok o w →
  frame_ok abi o w → device_ok o w → CallbackDelegate o = nullptr →
  ∃ w' evs, dispatch abi this Msg svc w = Some (tt, w') ∧
    trace w' = trace w ++ evs ∧
    List.filter is_delivery evs = [] ∧
    game_thread w' = game_thread w.
Proof.
  intros Ho Hh [lsz Hl] Hf Hd Hcd. pose proof Hh as [Hb _].
  destruct Msg; cbn [dispatch];
    unfold HandleConnectionEvent, HandleConnectionLostEvent, CleanupLastDevice,
      HandleTrackingEvent, SetFrame, HandleImageEvent,
      HandleDeviceLostEvent, HandleDeviceFailureEvent, HandleLogEvent,
      HandlePolicyEvent, HandleTrackingModeEvent, HandleConfigChangeEvent,
      HandleConfigResponseEvent,
      HandleDeviceEvent, deliver_device, SetDevice, LeapGetDeviceInfo; exec.
  3:{ destruct (opened_device svc) as [h|]; exec;
      (destruct (is_Success (open_device_result svc)); exec;
       [destruct (is_InsufficientBuffer (info_result (first_info svc))); exec;
        try (destruct (is_Success (info_result (second_info svc))); exec)|]).
      all: try (destruct (is_null_spec (CurrentDeviceInfo o)) as [E|E]; exec;
                [|destruct Hd as [Hd|(sz' & d & Hd & Hs)]; [done|]; exec;
                  destruct (is_null_spec (serial d)) as [E2|E2]; exec;
                  [|destruct Hs as [Hs|[len Hs]]; [done|]; exec]]).
      all: eexists _, _; split; [reflexivity|]; cbn [trace game_thread];
           split; [first [symmetry; apply app_nil_r | rewrite <- ?app_assoc; reflexivity]|]; done. }
  2:{ destruct (is_null_spec (CurrentDeviceInfo o)) as [E|E]; exec;
        [|destruct Hd as [Hd|(sz' & d & Hd & Hs)]; [done|]; exec;
          destruct (is_null_spec (serial d)) as [E2|E2]; exec;
          [|destruct Hs as [Hs|[len Hs]]; [done|]; exec]].
      all: eexists _, _; split; [reflexivity|]; cbn [trace game_thread];
           split; [first [symmetry; apply app_nil_r | rewrite <- ?app_assoc; reflexivity]|]; done. }
  4:{ destruct (is_null_spec (LatestFrame o)) as [E|E]; exec;
        [|destruct Hf as [Hf|[e Hf]]; [done|]; exec].
      all: eexists _, _; split; [reflexivity|]; cbn [trace game_thread];
           split; [first [symmetry; apply app_nil_r | rewrite <- ?app_assoc; reflexivity]|]; done. }
  all: eexists _, []; split; [reflexivity|]; cbn [trace game_thread];
       rewrite ?app_nil_r; done.
Qed.

(** X25.  The lambda of a log message reads the event when it runs, not when
    it is posted.  When two polls bring log events that the service keeps at
    the same address and the game thread ticks after both, both [OnLog] calls
    carry the second event; the first event is not delivered. *)
Theorem log_lambdas_read_the_latest_event (this LogEvent : ptr)
    (e0 e1 e2 : LEAP_LOG_EVENT) (sz : N) (w : World) (o : FLeapWrapper) :
  wrappers w !! this = Some o → bIsRunning o = true →
  CallbackDelegate o ≠ nullptr → LeapContextAtomic w = this →
  game_thread w = [] →
  heap w !! LogEvent = Some {| blk_size := sz; blk_data := DLogEvent e0 |} →
  (ServiceMessageLoop abi this [log_poll LogEvent e1; log_poll LogEvent e2]
     ≫= λ _, game_thread_tick) w =
  Some (tt,
        {| LeapContextAtomic := LeapContextAtomic w; wrappers := wrappers w;
           heap := <[LogEvent := {| blk_size := sz; blk_data := DLogEvent e2 |}]>
                     (heap w);
           brk := brk w; game_thread := [];
           trace := trace w ++
             [EvLeapPollConnection (ConnectionHandle o) Timeout;
              EvRunOnGameThread (TaskLog this LogEvent);
              EvLeapPollConnection (ConnectionHandle o) Timeout;
              EvRunOnGameThread (TaskLog this LogEvent);
              EvCall GameThread (CallbackDelegate o)
                (OnLog (severity e2) (timestamp e2) (message e2));
              EvCall GameThread (CallbackDelegate o)
                (OnLog (severity e2) (timestamp e2) (message e2))] |}).
Proof.
  intros Ho Hrun Hcb Hctx Hq Hev. subst this.
  unfold ServiceMessageLoop, game_thread_tick, log_poll.
  cbn [message_loop dispatch poll_result poll_msg poll_event stop_during_poll
       stop_during_dispatch event_pointer].
  unfold HandleLogEvent, LeapPollConnection, service_store.
  cbn [poll_result poll_msg poll_event event_pointer].
  change (is_Success eLeapRS_Success) with true.
  exec. rewrite Hrun. exec. cbn [is_event andb]. exec.
  rewrite Hrun. exec. rewrite Hrun. exec. cbn [is_event andb]. exec.
  rewrite Hrun. exec. rewrite Hrun, Hq. exec.
  cbn [app run_tasks run_task]. unfold guarded_call, IsLeapContextValid. exec.
  rewrite N.eqb_refl. exec. rewrite ?N.eqb_refl. exec.
  rewrite insert_insert_eq, <- !app_assoc. reflexivity.
Qed.

(** X26.  When the device opens and the query reaches delivery,
    [HandleDeviceEvent] makes one copy: [SetDevice] copies as many bytes as
    the struct gives as serial length, out of the buffer the last query was
    given, into a fresh block of that length.  The copy stays within the
    queried buffer exactly when the answered length fits it; a first query
    that fails and leaves a longer length makes the copy read past the
    64 bytes of the buffer. *)
Theorem HandleDeviceEvent_copy_and_buffer (this : ptr)
    (DeviceEvent : LEAP_DEVICE_EVENT) (svc : DeviceService) (w : World)
    (o : FLeapWrapper) :
  wrappers w !! this = Some o → heap_ok w → lock_ok o w → device_ok o w →
  open_device_result svc = eLeapRS_Success →
  reaches_delivery svc = true →
  ∃ w' h evs dst buf size len,
    HandleDeviceEvent abi this DeviceEvent svc w = Some (tt, w') ∧
    trace w' = trace w ++ evs ∧
    List.filter is_memcpy evs = [EvMemcpy dst buf len] ∧
    last (List.filter is_get_device_info evs) =
      Some (EvLeapGetDeviceInfo h buf size) ∧
    In (EvMalloc buf size) evs ∧ In (EvMalloc dst len) evs ∧
    (len ≤ size ↔ serial_fits svc = true).
Proof.
  intros Ho Hh [lsz Hl] Hd Hopen Hreach.
  assert (Hopen' : is_Success (open_device_result svc) = true)
    by (by rewrite Hopen).
  pose proof Hh as [Hb _]. unfold reaches_delivery in Hreach.
  unfold serial_fits.
  unfold HandleDeviceEvent, deliver_device, SetDevice, LeapGetDeviceInfo.
  destruct (opened_device svc) as [h|]; exec; rewrite Hopen'; exec.
  all: destruct (is_InsufficientBuffer (info_result (first_info svc))); exec.
  all: try (destruct (is_Success (info_result (second_info svc))); [|done]; exec).
  all: destruct (is_null_spec (CurrentDeviceInfo o)) as [E|E]; exec.
  all: try (destruct Hd as [Hd|(sz' & d & Hd & Hs)]; [done|]; exec;
            destruct (is_null_spec (serial d)) as [E2|E2]; exec;
            [|destruct Hs as [Hs|[len Hs]]; [done|]; exec]).
  all: destruct (is_null_spec (CallbackDelegate o)) as [Ec|Ec]; exec.
  all: eexists _, _, _, _, _, _, _; split; [reflexivity|]; cbn [trace];
       split; [rewrite <- !app_assoc; reflexivity|];
       split; [reflexivity|]; split; [reflexivity|];
       split; [cbn; tauto|]; split; [cbn; tauto|];
       rewrite N.leb_le; reflexivity.
Qed.

End Delivery.

(** ** From construction to the pump *)

Section FromConstruction.

Context (abi : ABI).

Lemma FLeapWrapper_ctor_pump_ok (this : ptr) (members : FLeapWrapper) (w : World) :
  heap_ok w →
  LatestFrame members = nullptr → CurrentDeviceInfo members = nullptr →
  ∃ w' evs, FLeapWrapper_ctor abi this members w = Some (tt, w') ∧
    pump_ok abi this w' ∧ trace w' = trace w ++ evs ∧ copies_within [] evs.
Proof.
  intros Hh Hf Hd. unfold FLeapWrapper_ctor. exec.
  eexists _, _. split; [reflexivity|]. split.
  - eexists. split; [exec; reflexivity|]. split; [heap_ok_tac|].
    split; [eexists; exec; reflexivity|]. split; left; exec; done.
  - split; [reflexivity|]. cbn. done.
Qed.

Lemma OpenConnection_pump_ok (this : ptr) (InCallbackDelegate : ptr)
    (svc : ConnectionService) (w : World) :
  pump_ok abi this w →
  ∃ a w' evs, OpenConnection this InCallbackDelegate svc w = Some (a, w') ∧
    pump_ok abi this w' ∧ trace w' = trace w ++ evs ∧ copies_within [] evs.
Proof.
  intros (o & Ho & Hh & Hl & Hf & Hd). unfold OpenConnection, SetCallbackDelegate.
  exec.
  destruct (created_handle svc) as [h|]; exec;
    destruct (is_Success (create_result svc)); exec;
    try destruct (is_Success (open_result svc)); exec;
    (eexists _, _, _; split; [reflexivity|];
     split; [eexists; split; [exec; reflexivity|]; done|];
     split; [cbn [trace]; rewrite <- ?app_assoc; reflexivity|cbn; done]).
Qed.

(** X22.  A wrapper constructed with null frame and device pointers, then
    opened, runs its message loop without a fault over any sequence of polls
    in which the serial lengths answered to device queries fit the buffers,
    whatever the service answers otherwise; no copy of the run leaves its
    buffers, and the run ends in a state that satisfies the pump's
    invariants. *)
Theorem pump_from_construction_never_faults (this : ptr)
    (members : FLeapWrapper) (InCallbackDelegate : ptr)
    (svc : ConnectionService) (polls : list Poll) (w : World) :
  heap_ok w →
  LatestFrame members = nullptr → CurrentDeviceInfo members = nullptr →
  Forall poll_fits polls →
  ∃ r w' evs,
    (FLeapWrapper_ctor abi this members;;
     OpenConnection this InCallbackDelegate svc;;
     ServiceMessageLoop abi this polls) w = Some (r, w') ∧
    pump_ok abi this w' ∧ trace w' = trace w ++ evs ∧ copies_within [] evs.
Proof.
  intros Hh Hf Hd Hfit.
  destruct (FLeapWrapper_ctor_pump_ok this members w Hh Hf Hd)
    as (w1 & evs1 & H1 & Hok1 & Ht1 & Hc1).
  destruct (OpenConnection_pump_ok this InCallbackDelegate svc w1 Hok1)
    as (a & w2 & evs2 & H2 & Hok2 & Ht2 & Hc2).
  pose proof Hok2 as (o2 & Ho2 & _).
  destruct (message_loop_copies abi this (ConnectionHandle o2) polls Hfit w2 Hok2)
    as (r & w3 & evs3 & H3 & Hok3 & Ht3 & Hc3).
  exists r, w3, (evs1 ++ evs2 ++ evs3). split.
  { rewrite !run_bind, H1, run_bind, H2. unfold ServiceMessageLoop.
    rewrite run_bind. exec. exact H3. }
  split; [done|]. split; [by rewrite Ht3, Ht2, Ht1, <- !app_assoc|].
  apply copies_within_app; [done|]. by apply copies_within_app.
Qed.

End FromConstruction.

(** X23.  When the service reports no frame size, [GetInterpolatedFrameAtTime]
    asks for no interpolation and returns the buffer it had, which is null
    before the first successful call; nothing but the size query happens. *)
Theorem GetInterpolatedFrameAtTime_without_size (this : ptr) (w : World)
    (o : FLeapWrapper) (TimeStamp : Z) :
  wrappers w !! this = Some o →
  GetInterpolatedFrameAtTime this TimeStamp 0 w =
  Some (InterpolatedFrame o,
        {| LeapContextAtomic := LeapContextAtomic w; wrappers := wrappers w;
           heap := heap w; brk := brk w; game_thread := game_thread w;
           trace := trace w ++ [EvLeapGetFrameSize (ConnectionHandle o) TimeStamp] |}).
Proof.
  intros Ho. unfold GetInterpolatedFrameAtTime. exec.
  change (0 <? 0) with false. exec. done.
Qed.

(** ** The image stream *)

Section ImageStream.

Context (abi : ABI).

(** X24.  When the buffer-length field compares equal to its [int] copy, as
    every length below 2^31 does, [EnableImageStream] allocates no image
    buffer: on a wrapper without description it allocates the description,
    with a null [pBuffer], and nothing else; on a wrapper with a description
    it changes nothing; and every later call changes nothing. *)
Theorem EnableImageStream_allocates_no_buffer (this : ptr) (bEnable : bool)
    (indeterminate : LEAP_IMAGE_FRAME_DESCRIPTION) (w : World) (o : FLeapWrapper) :
  wrappers w !! this = Some o → brk w ≠ nullptr →
  description_converts abi o w indeterminate →
  ∃ w' o' sz d,
    EnableImageStream abi this bEnable indeterminate w = Some (tt, w') ∧
    wrappers w' !! this = Some o' ∧ ImageDescription o' ≠ nullptr ∧
    heap w' !! ImageDescription o' =
      Some {| blk_size := sz; blk_data := DImageDescription d |} ∧
    (ImageDescription o = nullptr →
       pBuffer d = nullptr ∧
       trace w' = trace w ++ [EvMalloc (ImageDescription o')
                                (sizeof_LEAP_IMAGE_FRAME_DESCRIPTION abi)]) ∧
    (ImageDescription o ≠ nullptr → w' = w) ∧
    ∀ bEnable' indeterminate',
      EnableImageStream abi this bEnable' indeterminate' w' = Some (tt, w').
Proof.
  intros Ho Hb Hfit. unfold description_converts in Hfit.
  unfold EnableImageStream. exec.
  destruct (is_null_spec (ImageDescription o)) as [E|E]; exec.
  - rewrite Hfit.
    eexists _, _, _, _. split; [reflexivity|].
    split; [exec; reflexivity|]. exec. split; [done|].
    split; [reflexivity|]. split; [done|]. split; [done|].
    intros b' i'. exec. by rewrite Hfit.
  - destruct Hfit as (sz & d & Hd & Hlen). exec.
    rewrite Hlen.
    eexists _, _, _, _. split; [reflexivity|].
    split; [exact Ho|]. split; [done|]. split; [exact Hd|].
    split; [done|]. split; [done|].
    intros b' i'. exec. by rewrite Hlen.
Qed.

End ImageStream.

(** ** Further witnesses *)

(** Discharging a hypothesis at a concrete world, by evaluation. *)
Ltac hyp_base :=
  first
    [ by_compute
    | vm_compute; exact I
    | vm_compute; discriminate
    | apply heap_ok_decide; by_compute
    | eexists; by_compute
    | left; by_compute
    | left; split; by_compute
    | right; eexists; by_compute
    | right; eexists; split; by_compute
    | right; eexists _, _; split; [by_compute|];
      first [ left; by_compute | right; eexists; by_compute ] ].

Ltac hyp_apart :=
  let H1 := fresh in let H2 := fresh in let H3 := fresh in
  intros ? ? ? ? H1 H2 H3; vm_compute in H1, H2;
  injection H1 as <- <-; injection H2 as <- <-;
  first [ vm_compute; discriminate | exfalso; apply H3; by_compute ].

Ltac hyp_solve :=
  first
    [ hyp_base
    | hyp_apart
    | eexists; split; [by_compute|]; split; [apply heap_ok_decide; by_compute|];
      split; [hyp_base|]; split; hyp_base
    | repeat (constructor; [cbn beta; first [hyp_base | split; [split; by_compute|hyp_base]]|]);
      constructor ].

(** C6 at the example wrapper in use, whose buffer has the 128 bytes the call
    reports again. *)
Lemma GetInterpolatedFrameAtTime_reuses_buffer_witness :
  (wrappers in_use !! session = Some (object_of session in_use)
   ∧ interpolation_ok (object_of session in_use) in_use
     ∧ ∃ (p : ptr) (w' : World) (o' : FLeapWrapper) (evs : list Event),
         GetInterpolatedFrameAtTime session 0 128 in_use = Some (p, w')
         ∧ wrappers w' !! session = Some o'
           ∧ InterpolatedFrame o' = p
             ∧ interpolation_ok o' w'
               ∧ trace w' = trace in_use ++ evs
                 ∧ (mallocs evs ≠ []
                    ↔ 0 < 128 ∧ 128 ≠ InterpolatedFrameSize (object_of session in_use))
                   ∧ (128 = InterpolatedFrameSize (object_of session in_use) ∨ 128 = 0
                      → heap w' = heap in_use
                        ∧ p = InterpolatedFrame (object_of session in_use))
                     ∧ 128 ≤ block_size w' p
                       ∧ InterpolatedFrameSize o' =
                         (if 0 <? 128
                          then 128
                          else InterpolatedFrameSize (object_of session in_use))
                         ∧ (p ≠ nullptr → block_size w' p = InterpolatedFrameSize o')
                           ∧ ∀ TimeStamp' : Z,
                               ∃ (w'' : World) (evs' : list Event),
                                 GetInterpolatedFrameAtTime session TimeStamp' 128 w' =
                                 Some (p, w'')
                                 ∧ wrappers w'' !! session = Some o'
                                   ∧ heap w'' = heap w'
                                     ∧ trace w'' = trace w' ++ evs' ∧ mallocs evs' = []).
Proof.
  do 2 (split; [hyp_solve|]).
  apply (GetInterpolatedFrameAtTime_reuses_buffer session in_use (object_of session in_use) 0%Z 128);
    hyp_solve.
Defined.


(** C8 at the running example wrapper. *)
Lemma ServiceMessageLoop_leaves_only_on_stop_witness :
  (pump_ok x64 session running
   ∧ wrappers running !! session = Some (object_of session running)
     ∧ bIsRunning (object_of session running) = true
       ∧ (∀ polls : list Poll,
            Forall no_stop polls
            → Forall poll_fits polls
              → ∃ (w' : World) (o' : FLeapWrapper) (evs : list Event),
                  ServiceMessageLoop x64 session polls running = Some (LoopPolling, w')
                  ∧ wrappers w' !! session = Some o'
                    ∧ bIsRunning o' = true
                      ∧ trace w' = trace running ++ evs ∧ copies_within [] evs)
         ∧ (∀ (pre : list Poll) (p : Poll) (post : list Poll),
              Forall no_stop pre
              → Forall poll_fits pre
                → stop_during_poll p = true
                  → ∃ (w1 : World) (o1 : FLeapWrapper) (w2 : World),
                      ServiceMessageLoop x64 session pre running =
                      Some (LoopPolling, w1)
                      ∧ wrappers w1 !! session = Some o1
                        ∧ LeapPollConnection
                            (ConnectionHandle (object_of session running)) Timeout p w1 =
                          Some ((), w2)
                          ∧ LeapContextAtomic w2 = LeapContextAtomic w1
                            ∧ wrappers w2 = wrappers w1
                              ∧ brk w2 = brk w1
                                ∧ game_thread w2 = game_thread w1
                                  ∧ trace w2 =
                                    trace w1 ++
                                    [EvLeapPollConnection
                                       (ConnectionHandle (object_of session running))
                                       Timeout]
                                    ∧ (∀ q : ptr,
                                         event_pointer (poll_msg p) ≠ Some q
                                         → heap w2 !! q = heap w1 !! q)
                                      ∧ ServiceMessageLoop x64 session
                                          (pre ++ p :: post) running =
                                        Some
                                          (LoopLeft post,
                                           {|
                                             LeapContextAtomic := LeapContextAtomic w2;
                                             wrappers :=
                                               <[session:=set_bIsRunning false o1]>
                                                 (wrappers w2);
                                             heap := heap w2;
                                             brk := brk w2;
                                             game_thread := game_thread w2;
                                             trace := trace w2
                                           |}))
           ∧ ∀ (polls rest : list Poll) (w' : World),
               ServiceMessageLoop x64 session polls running = Some (LoopLeft rest, w')
               → Exists
                   (λ p : Poll,
                      stop_during_poll p = true ∨ stop_during_dispatch p = true)
                   polls).
Proof.
  do 3 (split; [hyp_solve|]).
  apply (ServiceMessageLoop_leaves_only_on_stop x64 session running (object_of session running));
    hyp_solve.
Defined.

(** C10 at the fresh example wrapper on a 64-bit target, with an indeterminate
    length of 2^32, whose [int] copy is 0. *)
Lemma EnableImageStream_reallocates_unchanged_length_witness :
  (wrappers fresh !! session = Some (object_of session fresh)
   ∧ heap_ok fresh
     ∧ ImageDescription (object_of session fresh) = nullptr
       ∧ buffer_len_differs x64 (buffer_len garbage) (to_int (buffer_len garbage)) =
         true
         ∧ (let len := buffer_len garbage in
            let d := brk fresh in
            ∃ (w' : World) (o' : FLeapWrapper),
              EnableImageStream x64 session true garbage fresh = Some ((), w')
              ∧ wrappers w' !! session = Some o'
                ∧ ImageDescription o' = d
                  ∧ heap w' !! d =
                    Some
                      {|
                        blk_size := sizeof_LEAP_IMAGE_FRAME_DESCRIPTION x64;
                        blk_data :=
                          DImageDescription {| buffer_len := len; pBuffer := d + 1 |}
                      |}
                    ∧ trace w' =
                      trace fresh ++
                      [EvMalloc d (sizeof_LEAP_IMAGE_FRAME_DESCRIPTION x64);
                       EvMalloc (d + 1) len]
                      ∧ ∀ (bEnable' : bool) (indeterminate' : LEAP_IMAGE_FRAME_DESCRIPTION),
                          ∃ w'' : World,
                            EnableImageStream x64 session bEnable' indeterminate' w' =
                            Some ((), w'')
                            ∧ wrappers w'' !! session = Some o'
                              ∧ heap w'' !! d =
                                Some
                                  {|
                                    blk_size := sizeof_LEAP_IMAGE_FRAME_DESCRIPTION x64;
                                    blk_data :=
                                      DImageDescription
                                        {| buffer_len := len; pBuffer := d + 2 |}
                                  |}
                                ∧ trace w'' =
                                  trace w' ++ [EvFree (d + 1); EvMalloc (d + 2) len])).
Proof.
  do 4 (split; [hyp_solve|]).
  apply (EnableImageStream_reallocates_unchanged_length x64 session true garbage fresh (object_of session fresh));
    hyp_solve.
Defined.

(** X3 at the connected example wrapper. *)
Lemma CloseConnection_after_CloseConnectionHandle_witness :
  wrappers connected !! session = Some (object_of session connected)
  ∧ ∃ w' : World,
      CloseConnectionHandle session (AddressOf_ConnectionHandle session) connected =
      Some ((), w')
      ∧ wrappers w' !! session =
        Some
          (set_bIsConnected false (set_bIsRunning false (object_of session connected)))
        ∧ trace w' =
          trace connected ++
          [EvLeapDestroyConnection (ConnectionHandle (object_of session connected))]
          ∧ heap w' = heap connected ∧ CloseConnection session w' = Some ((), w').
Proof.
  do 1 (split; [hyp_solve|]).
  apply (CloseConnection_after_CloseConnectionHandle session connected
           (object_of session connected));
    hyp_solve.
Defined.

(** X4 at the running example wrapper and a second wrapper beside it. *)
Lemma SetCallbackDelegate_last_writer_wins_witness :
  session ≠ second_session
  ∧ wrappers two_wrappers !! session = Some (object_of session two_wrappers)
    ∧ wrappers two_wrappers !! second_session =
      Some (object_of second_session two_wrappers)
      ∧ ∃ w' : World,
          SetCallbackDelegate second_session sink two_wrappers = Some ((), w')
          ∧ wrappers w' !! session = Some (object_of session two_wrappers)
            ∧ IsLeapContextValid session w' = Some (false, w')
              ∧ IsLeapContextValid second_session w' = Some (negb (is_null sink), w').
Proof.
  do 3 (split; [hyp_solve|]).
  apply (SetCallbackDelegate_last_writer_wins session second_session sink two_wrappers
           (object_of session two_wrappers) (object_of second_session two_wrappers));
    hyp_solve.
Defined.

(** X5 at the closed example wrapper and three lambdas. *)
Lemma run_tasks_invalid_context_witness :
  Forall (λ t : Task, task_context t = session) orphan_tasks
  ∧ IsLeapContextValid session closed = Some (false, closed)
    ∧ run_tasks orphan_tasks closed = free_all (pending_serials orphan_tasks) closed
      ∧ ∀ w' : World,
          run_tasks orphan_tasks closed = Some ((), w')
          → wrappers w' = wrappers closed
            ∧ game_thread w' = game_thread closed
              ∧ ∃ evs : list Event,
                  trace w' = trace closed ++ evs
                  ∧ Forall (λ e : Event, is_free e = true) evs.
Proof.
  do 2 (split; [hyp_solve|]).
  apply (run_tasks_invalid_context session orphan_tasks closed);
    hyp_solve.
Defined.

(** X6 at the connected example wrapper. *)
Lemma CloseConnection_invalidates_context_witness :
  wrappers connected !! session = Some (object_of session connected)
  ∧ device_ok (object_of session connected) connected
    ∧ bIsConnected (object_of session connected) = true
      ∧ ∃ w' : World,
          CloseConnection session connected = Some ((), w')
          ∧ IsLeapContextValid session w' = Some (false, w')
            ∧ game_thread w' = game_thread connected.
Proof.
  do 3 (split; [hyp_solve|]).
  apply (CloseConnection_invalidates_context session connected
           (object_of session connected));
    hyp_solve.
Defined.

(** X7 at the example wrapper in use. *)
Lemma FLeapWrapper_dtor_invalidates_context_witness :
  session ≠ nullptr
  ∧ wrappers in_use !! session = Some (object_of session in_use)
    ∧ lock_ok (object_of session in_use) in_use
      ∧ device_ok (object_of session in_use) in_use
        ∧ image_ok (object_of session in_use) in_use
          ∧ image_apart (object_of session in_use) in_use
            ∧ ∃ w' : World,
                FLeapWrapper_dtor session in_use = Some ((), w')
                ∧ wrappers w' !! session = None
                  ∧ LeapContextAtomic w' = nullptr
                    ∧ IsLeapContextValid session w' = Some (false, w')
                      ∧ game_thread w' = game_thread in_use.
Proof.
  do 6 (split; [hyp_solve|]).
  apply (FLeapWrapper_dtor_invalidates_context session in_use
           (object_of session in_use));
    hyp_solve.
Defined.

(** X8 at the empty world. *)
Lemma FLeapWrapper_ctor_establishes_invariants_witness :
  (heap_ok boot
   ∧ LatestFrame zeroed = nullptr
     ∧ CurrentDeviceInfo zeroed = nullptr
       ∧ ∃ (w' : World) (o : FLeapWrapper),
           FLeapWrapper_ctor x64 session zeroed boot = Some ((), w')
           ∧ wrappers w' !! session = Some o
             ∧ pump_ok x64 session w'
               ∧ interpolation_ok o w'
                 ∧ bIsRunning o = false
                   ∧ DataLock o = brk boot
                     ∧ (∀ (p : ptr) (b : Block),
                          heap boot !! p = Some b → heap w' !! p = Some b)
                       ∧ LeapContextAtomic w' = LeapContextAtomic boot
                         ∧ game_thread w' = game_thread boot
                           ∧ InterpolatedFrame o = nullptr
                             ∧ InterpolatedFrameSize o = 0
                               ∧ heap w' =
                                 <[brk boot:={|
                                               blk_size := sizeof_FCriticalSection x64;
                                               blk_data := DCriticalSection
                                             |}]>
                                   (heap boot)
                                 ∧ trace w' =
                                   trace boot ++
                                   [EvMalloc (brk boot) (sizeof_FCriticalSection x64)]).
Proof.
  do 3 (split; [hyp_solve|]).
  apply (FLeapWrapper_ctor_establishes_invariants x64 session zeroed boot);
    hyp_solve.
Defined.

(** X9 at the running example wrapper beside service memory, and five polls. *)
Lemma ServiceMessageLoop_never_faults_witness :
  (pump_ok x64 session logging
   ∧ Forall poll_fits
       [timeout_poll; tracking_poll; device_poll; log_poll 2 second_log; tracking_poll]
     ∧ ∃ (r : LoopEnd) (w' : World) (evs : list Event),
         ServiceMessageLoop x64 session
           [timeout_poll; tracking_poll; device_poll; log_poll 2 second_log;
            tracking_poll]
           logging =
         Some (r, w')
         ∧ pump_ok x64 session w'
           ∧ trace w' = trace logging ++ evs ∧ copies_within [] evs).
Proof.
  do 2 (split; [hyp_solve|]).
  apply (ServiceMessageLoop_never_faults x64 session [timeout_poll; tracking_poll; device_poll; log_poll 2 second_log; tracking_poll] logging);
    hyp_solve.
Defined.

(** X10 at the running example wrapper, not yet connected, and two timeouts. *)
Lemma ServiceMessageLoop_failed_polls_witness :
  wrappers running !! session = Some (object_of session running)
  ∧ bIsRunning (object_of session running) = true
    ∧ Forall (λ p : Poll, no_stop p ∧ poll_result p ≠ eLeapRS_Success)
        [timeout_poll; timeout_poll]
      ∧ ServiceMessageLoop x64 session [timeout_poll; timeout_poll] running =
        Some
          (LoopPolling,
           {|
             LeapContextAtomic := LeapContextAtomic running;
             wrappers := wrappers running;
             heap := heap running;
             brk := brk running;
             game_thread := game_thread running;
             trace :=
               trace running ++
               failed_poll_events (ConnectionHandle (object_of session running))
                 (bIsConnected (object_of session running))
                 [timeout_poll; timeout_poll]
           |}).
Proof.
  do 3 (split; [hyp_solve|]).
  apply (ServiceMessageLoop_failed_polls x64 session [timeout_poll; timeout_poll]
           running (object_of session running));
    hyp_solve.
Defined.

(** X11 at the connected example wrapper, which caches a device. *)
Lemma SetDevice_then_GetDeviceProperties_witness :
  wrappers connected !! session = Some (object_of session connected)
  ∧ heap_ok connected
    ∧ lock_ok (object_of session connected) connected
      ∧ device_ok (object_of session connected) connected
        ∧ ∃ (w' : World) (p s sz : ptr),
            (SetDevice x64 session sample_props
             ≫= λ _ : (), GetDeviceProperties session) connected =
            Some (p, w')
            ∧ p ≠ nullptr
              ∧ (CurrentDeviceInfo (object_of session connected) ≠ nullptr
                 → p = CurrentDeviceInfo (object_of session connected))
                ∧ heap w' !! p =
                  Some
                    {|
                      blk_size := sz;
                      blk_data := DDeviceInfo (with_serial s sample_props)
                    |}
                  ∧ heap connected !! s = None
                    ∧ heap w' !! s =
                      Some
                        {|
                          blk_size := serial_length sample_props; blk_data := Uninit
                        |}
                      ∧ ∀ (sz0 : ptr) (d : LEAP_DEVICE_INFO),
                          heap connected
                          !! CurrentDeviceInfo (object_of session connected) =
                          Some {| blk_size := sz0; blk_data := DDeviceInfo d |}
                          → CurrentDeviceInfo (object_of session connected) ≠ nullptr
                            → serial d ≠ nullptr → heap w' !! serial d = None.
Proof.
  do 4 (split; [hyp_solve|]).
  apply (SetDevice_then_GetDeviceProperties x64 session sample_props connected
           (object_of session connected));
    hyp_solve.
Defined.

(** X12 at the connected example wrapper. *)
Lemma HandleConnectionLostEvent_forgets_device_witness :
  wrappers connected !! session = Some (object_of session connected)
  ∧ lock_ok (object_of session connected) connected
    ∧ device_ok (object_of session connected) connected
      ∧ ∃ (w' : World) (o' : FLeapWrapper),
          (HandleConnectionLostEvent session ≫= λ _ : (), GetDeviceProperties session)
            connected =
          Some (nullptr, w')
          ∧ wrappers w' !! session = Some o'
            ∧ bIsConnected o' = false
              ∧ CurrentDeviceInfo o' = nullptr
                ∧ ∀ (sz : ptr) (d : LEAP_DEVICE_INFO),
                    heap connected !! CurrentDeviceInfo (object_of session connected) =
                    Some {| blk_size := sz; blk_data := DDeviceInfo d |}
                    → CurrentDeviceInfo (object_of session connected) ≠ nullptr
                      → heap w' !! CurrentDeviceInfo (object_of session connected) =
                        Some {| blk_size := sz; blk_data := DDeviceInfo d |}
                        ∧ (serial d ≠ nullptr → heap w' !! serial d = None).
Proof.
  do 3 (split; [hyp_solve|]).
  apply (HandleConnectionLostEvent_forgets_device session connected
           (object_of session connected));
    hyp_solve.
Defined.

(** X13 at the running example wrapper. *)
Lemma GetFrame_after_tracking_events_witness :
  wrappers running !! session = Some (object_of session running)
  ∧ heap_ok running
    ∧ lock_ok (object_of session running) running
      ∧ frame_ok x64 (object_of session running) running
        ∧ ∃ (p : ptr) (w1 w1' w2 : World),
            HandleTrackingEvent x64 session no_hands running = Some ((), w1)
            ∧ GetFrame session w1 = Some (p, w1')
              ∧ heap w1' !! p =
                Some
                  {|
                    blk_size := sizeof_LEAP_TRACKING_EVENT x64;
                    blk_data := DTrackingEvent no_hands
                  |}
                ∧ (HandleTrackingEvent x64 session two_hands
                   ≫= λ _ : (), GetFrame session) w1' =
                  Some (p, w2)
                  ∧ heap w2 !! p =
                    Some
                      {|
                        blk_size := sizeof_LEAP_TRACKING_EVENT x64;
                        blk_data := DTrackingEvent two_hands
                      |}
                    ∧ p ≠ nullptr.
Proof.
  do 4 (split; [hyp_solve|]).
  apply (GetFrame_after_tracking_events x64 session no_hands two_hands running
           (object_of session running));
    hyp_solve.
Defined.

(** X14 at the example wrapper in use, whose buffer has 128 bytes, for a
    reported size of 256. *)
Lemma GetInterpolatedFrameAtTime_frees_previous_witness :
  wrappers in_use !! session = Some (object_of session in_use)
  ∧ heap_ok in_use
    ∧ interpolation_ok (object_of session in_use) in_use
      ∧ InterpolatedFrame (object_of session in_use) ≠ nullptr
        ∧ 0 < 256
          ∧ 256 ≠ InterpolatedFrameSize (object_of session in_use)
            ∧ ∃ w' : World,
                GetInterpolatedFrameAtTime session 0 256 in_use =
                Some (brk in_use, w')
                ∧ heap w' =
                  <[brk in_use:={| blk_size := 256; blk_data := Uninit |}]>
                    (delete (InterpolatedFrame (object_of session in_use))
                       (heap in_use))
                  ∧ heap in_use !! brk in_use = None
                    ∧ heap w' !! InterpolatedFrame (object_of session in_use) = None.
Proof.
  do 6 (split; [hyp_solve|]).
  apply (GetInterpolatedFrameAtTime_frees_previous session in_use
           (object_of session in_use) 0%Z 256);
    hyp_solve.
Defined.

(** X15 at the running example wrapper. *)
Lemma HandleDeviceEvent_open_failure_drops_witness :
  wrappers running !! session = Some (object_of session running)
  ∧ open_device_result device_closed ≠ eLeapRS_Success
    ∧ ∃ (w' : World) (o' : FLeapWrapper),
        HandleDeviceEvent x64 session {| device := 1 |} device_closed running =
        Some ((), w')
        ∧ wrappers w' !! session = Some o'
          ∧ CurrentDeviceInfo o' = CurrentDeviceInfo (object_of session running)
            ∧ heap w' = heap running
              ∧ brk w' = brk running
                ∧ game_thread w' = game_thread running
                  ∧ trace w' =
                    trace running ++ [EvLeapOpenDevice (device {| device := 1 |})].
Proof.
  do 2 (split; [hyp_solve|]).
  apply (HandleDeviceEvent_open_failure_drops x64 session {| device := 1 |}
           device_closed running (object_of session running));
    hyp_solve.
Defined.

(** X16 at the running example wrapper. *)
Lemma HandleDeviceEvent_then_tick_delivers_witness :
  wrappers running !! session = Some (object_of session running)
  ∧ heap_ok running
    ∧ lock_ok (object_of session running) running
      ∧ frame_ok x64 (object_of session running) running
        ∧ device_ok (object_of session running) running
          ∧ CallbackDelegate (object_of session running) ≠ nullptr
            ∧ LeapContextAtomic running = session
              ∧ game_thread running = []
                ∧ open_device_result device_up = eLeapRS_Success
                  ∧ reaches_delivery device_up = true
                    ∧ ∃ (w' : World) (o' : FLeapWrapper) (evs : list Event) 
                        (buf : ptr) (props : LEAP_DEVICE_INFO),
                        (HandleDeviceEvent x64 session {| device := 1 |} device_up
                         ≫= λ _ : (), game_thread_tick) running =
                        Some ((), w')
                        ∧ wrappers w' !! session = Some o'
                          ∧ pump_ok x64 session w'
                            ∧ game_thread w' = []
                              ∧ trace w' = trace running ++ evs
                                ∧ List.filter is_close_device evs =
                                  [EvLeapCloseDevice (DeviceHandle o')]
                                  ∧ List.filter is_delivery evs =
                                    [EvRunOnGameThread (TaskDeviceFound session props);
                                     EvCall GameThread
                                       (CallbackDelegate (object_of session running))
                                       (OnDeviceFound props)]
                                    ∧ serial props = buf
                                      ∧ In (EvFree buf) evs
                                        ∧ heap w' !! buf = None
                                          ∧ CurrentDeviceInfo o' ≠ nullptr.
Proof.
  do 10 (split; [hyp_solve|]).
  apply (HandleDeviceEvent_then_tick_delivers x64 session {| device := 1 |} device_up
           running (object_of session running));
    hyp_solve.
Defined.

(** X17 at the example wrapper in use. *)
Lemma TaskDeviceLost_reads_cached_serial_witness :
  wrappers in_use !! session = Some (object_of session in_use)
  ∧ LeapContextAtomic in_use = session
    ∧ CallbackDelegate (object_of session in_use) ≠ nullptr
      ∧ heap in_use !! CurrentDeviceInfo (object_of session in_use) =
        Some
          {|
            blk_size := 48;
            blk_data :=
              DDeviceInfo
                {|
                  info_size := 48; info_caps := 5; serial_length := 12; serial := 4
                |}
          |}
        ∧ run_task (TaskDeviceLost session) in_use =
          Some
            ((),
             {|
               LeapContextAtomic := LeapContextAtomic in_use;
               wrappers := wrappers in_use;
               heap := heap in_use;
               brk := brk in_use;
               game_thread := game_thread in_use;
               trace :=
                 trace in_use ++
                 [EvCall GameThread (CallbackDelegate (object_of session in_use))
                    (OnDeviceLost
                       (serial
                          {|
                            info_size := 48;
                            info_caps := 5;
                            serial_length := 12;
                            serial := 4
                          |}))]
             |}).
Proof.
  do 4 (split; [hyp_solve|]).
  apply (TaskDeviceLost_reads_cached_serial session in_use (object_of session in_use)
           48 {| info_size := 48; info_caps := 5; serial_length := 12; serial := 4 |});
    hyp_solve.
Defined.

(** X18 at the running example wrapper, which caches no device. *)
Lemma TaskDeviceLost_without_device_faults_witness :
  wrappers running !! session = Some (object_of session running)
  ∧ LeapContextAtomic running = session
    ∧ CallbackDelegate (object_of session running) ≠ nullptr
      ∧ CurrentDeviceInfo (object_of session running) = nullptr
        ∧ heap running !! nullptr = None
          ∧ run_task (TaskDeviceLost session) running = None.
Proof.
  do 5 (split; [hyp_solve|]).
  apply (TaskDeviceLost_without_device_faults session running
           (object_of session running));
    hyp_solve.
Defined.

(** X19 at the running example wrapper beside service memory, for a log
    message. *)
Lemma dispatch_then_tick_defers_witness :
  (deferred_task session (Msg_LogEvent 2) = Some (TaskLog session 2)
   ∧ wrappers logging !! session = Some (object_of session logging)
     ∧ CallbackDelegate (object_of session logging) ≠ nullptr
       ∧ dispatch x64 session (Msg_LogEvent 2) device_up logging =
         Some
           ((),
            {|
              LeapContextAtomic := LeapContextAtomic logging;
              wrappers := wrappers logging;
              heap := heap logging;
              brk := brk logging;
              game_thread := game_thread logging ++ [TaskLog session 2];
              trace := trace logging ++ [EvRunOnGameThread (TaskLog session 2)]
            |})
         ∧ task_context (TaskLog session 2) = session
           ∧ (∀ (w1 : World) (o1 : FLeapWrapper),
                wrappers w1 !! session = Some o1
                → CallbackDelegate o1 ≠ nullptr
                  → LeapContextAtomic w1 = session
                    → run_task (TaskLog session 2) w1 =
                      match deferred_callback (Msg_LogEvent 2) (heap w1) with
                      | Some cb =>
                          Some
                            ((),
                             {|
                               LeapContextAtomic := LeapContextAtomic w1;
                               wrappers := wrappers w1;
                               heap := heap w1;
                               brk := brk w1;
                               game_thread := game_thread w1;
                               trace :=
                                 trace w1 ++
                                 [EvCall GameThread (CallbackDelegate o1) cb]
                             |})
                      | None => None
                      end)
             ∧ (LeapContextAtomic logging = session
                → game_thread logging = []
                  → (dispatch x64 session (Msg_LogEvent 2) device_up
                     ≫= λ _ : (), game_thread_tick) logging =
                    match deferred_callback (Msg_LogEvent 2) (heap logging) with
                    | Some cb =>
                        Some
                          ((),
                           {|
                             LeapContextAtomic := LeapContextAtomic logging;
                             wrappers := wrappers logging;
                             heap := heap logging;
                             brk := brk logging;
                             game_thread := [];
                             trace :=
                               trace logging ++
                               [EvRunOnGameThread (TaskLog session 2);
                                EvCall GameThread
                                  (CallbackDelegate (object_of session logging)) cb]
                           |})
                    | None => None
                    end)).
Proof.
  do 3 (split; [hyp_solve|]).
  apply (dispatch_then_tick_defers x64 session (Msg_LogEvent 2) device_up (TaskLog session 2) logging (object_of session logging));
    hyp_solve.
Defined.

(** X20 at the running example wrapper, for a tracking message. *)
Lemma dispatch_calls_directly_witness :
  direct_callback (Msg_Tracking two_hands) = Some (OnFrame two_hands)
  ∧ wrappers running !! session = Some (object_of session running)
    ∧ heap_ok running
      ∧ lock_ok (object_of session running) running
        ∧ frame_ok x64 (object_of session running) running
          ∧ device_ok (object_of session running) running
            ∧ CallbackDelegate (object_of session running) ≠ nullptr
              ∧ ∃ (w' : World) (evs : list Event),
                  dispatch x64 session (Msg_Tracking two_hands) device_up running =
                  Some ((), w')
                  ∧ trace w' = trace running ++ evs
                    ∧ List.filter is_delivery evs =
                      [EvCall PumpThread
                         (CallbackDelegate (object_of session running))
                         (OnFrame two_hands)]
                      ∧ game_thread w' = game_thread running.
Proof.
  do 7 (split; [hyp_solve|]).
  apply (dispatch_calls_directly x64 session (Msg_Tracking two_hands) device_up
           (OnFrame two_hands) running (object_of session running));
    hyp_solve.
Defined.

(** X21 at the fresh example wrapper, which has no callback sink, for a
    device message. *)
Lemma dispatch_without_delegate_is_silent_witness :
  wrappers fresh !! session = Some (object_of session fresh)
  ∧ heap_ok fresh
    ∧ lock_ok (object_of session fresh) fresh
      ∧ frame_ok x64 (object_of session fresh) fresh
        ∧ device_ok (object_of session fresh) fresh
          ∧ CallbackDelegate (object_of session fresh) = nullptr
            ∧ ∃ (w' : World) (evs : list Event),
                dispatch x64 session (Msg_Device {| device := 1 |}) device_up fresh =
                Some ((), w')
                ∧ trace w' = trace fresh ++ evs
                  ∧ List.filter is_delivery evs = []
                    ∧ game_thread w' = game_thread fresh.
Proof.
  do 6 (split; [hyp_solve|]).
  apply (dispatch_without_delegate_is_silent x64 session (Msg_Device {| device := 1 |})
           device_up fresh (object_of session fresh));
    hyp_solve.
Defined.

(** X22 at the empty world and three polls. *)
Lemma pump_from_construction_never_faults_witness :
  (heap_ok boot
   ∧ LatestFrame zeroed = nullptr
     ∧ CurrentDeviceInfo zeroed = nullptr
       ∧ Forall poll_fits [timeout_poll; tracking_poll; device_poll]
         ∧ ∃ (r : LoopEnd) (w' : World) (evs : list Event),
             (FLeapWrapper_ctor x64 session zeroed
              ≫= λ _ : (),
                   OpenConnection session sink service_up
                   ≫= λ _ : member_address,
                        ServiceMessageLoop x64 session
                          [timeout_poll; tracking_poll; device_poll])
               boot =
             Some (r, w')
             ∧ pump_ok x64 session w'
               ∧ trace w' = trace boot ++ evs ∧ copies_within [] evs).
Proof.
  do 4 (split; [hyp_solve|]).
  apply (pump_from_construction_never_faults x64 session zeroed sink service_up [timeout_poll; tracking_poll; device_poll] boot);
    hyp_solve.
Defined.

(** X23 at the example wrapper in use. *)
Lemma GetInterpolatedFrameAtTime_without_size_witness :
  wrappers in_use !! session = Some (object_of session in_use)
  ∧ GetInterpolatedFrameAtTime session 0 0 in_use =
    Some
      (InterpolatedFrame (object_of session in_use),
       {|
         LeapContextAtomic := LeapContextAtomic in_use;
         wrappers := wrappers in_use;
         heap := heap in_use;
         brk := brk in_use;
         game_thread := game_thread in_use;
         trace :=
           trace in_use ++
           [EvLeapGetFrameSize (ConnectionHandle (object_of session in_use)) 0]
       |}).
Proof.
  do 1 (split; [hyp_solve|]).
  apply (GetInterpolatedFrameAtTime_without_size session in_use
           (object_of session in_use) 0%Z);
    hyp_solve.
Defined.

(** X24 at the fresh example wrapper, with an indeterminate length of 640. *)
Lemma EnableImageStream_allocates_no_buffer_witness :
  (wrappers fresh !! session = Some (object_of session fresh)
   ∧ brk fresh ≠ nullptr
     ∧ description_converts x64 (object_of session fresh) fresh
         {| buffer_len := 640; pBuffer := 99 |}
       ∧ ∃ (w' : World) (o' : FLeapWrapper) (sz : ptr) (d : LEAP_IMAGE_FRAME_DESCRIPTION),
           EnableImageStream x64 session true {| buffer_len := 640; pBuffer := 99 |}
             fresh =
           Some ((), w')
           ∧ wrappers w' !! session = Some o'
             ∧ ImageDescription o' ≠ nullptr
               ∧ heap w' !! ImageDescription o' =
                 Some {| blk_size := sz; blk_data := DImageDescription d |}
                 ∧ (ImageDescription (object_of session fresh) = nullptr
                    → pBuffer d = nullptr
                      ∧ trace w' =
                        trace fresh ++
                        [EvMalloc (ImageDescription o')
                           (sizeof_LEAP_IMAGE_FRAME_DESCRIPTION x64)])
                   ∧ (ImageDescription (object_of session fresh) ≠ nullptr → w' = fresh)
                     ∧ ∀ (bEnable' : bool) (indeterminate' : LEAP_IMAGE_FRAME_DESCRIPTION),
                         EnableImageStream x64 session bEnable' indeterminate' w' =
                         Some ((), w')).
Proof.
  do 3 (split; [hyp_solve|]).
  apply (EnableImageStream_allocates_no_buffer x64 session true {| buffer_len := 640; pBuffer := 99 |} fresh (object_of session fresh));
    hyp_solve.
Defined.

(** X25 at the running example wrapper beside service memory. *)
Lemma log_lambdas_read_the_latest_event_witness :
  (wrappers logging !! session = Some (object_of session logging)
   ∧ bIsRunning (object_of session logging) = true
     ∧ CallbackDelegate (object_of session logging) ≠ nullptr
       ∧ LeapContextAtomic logging = session
         ∧ game_thread logging = []
           ∧ heap logging !! 2 =
             Some {| blk_size := 24; blk_data := DLogEvent first_log |}
             ∧ (ServiceMessageLoop x64 session
                  [log_poll 2 second_log; log_poll 2 third_log]
                ≫= λ _ : LoopEnd, game_thread_tick) logging =
               Some
                 ((),
                  {|
                    LeapContextAtomic := LeapContextAtomic logging;
                    wrappers := wrappers logging;
                    heap :=
                      <[2:={| blk_size := 24; blk_data := DLogEvent third_log |}]>
                        (heap logging);
                    brk := brk logging;
                    game_thread := [];
                    trace :=
                      trace logging ++
                      [EvLeapPollConnection
                         (ConnectionHandle (object_of session logging)) Timeout;
                       EvRunOnGameThread (TaskLog session 2);
                       EvLeapPollConnection
                         (ConnectionHandle (object_of session logging)) Timeout;
                       EvRunOnGameThread (TaskLog session 2);
                       EvCall GameThread (CallbackDelegate (object_of session logging))
                         (OnLog (severity third_log) (timestamp third_log)
                            (message third_log));
                       EvCall GameThread (CallbackDelegate (object_of session logging))
                         (OnLog (severity third_log) (timestamp third_log)
                            (message third_log))]
                  |})).
Proof.
  do 6 (split; [hyp_solve|]).
  apply (log_lambdas_read_the_latest_event x64 session 2 first_log second_log third_log 24 logging (object_of session logging));
    hyp_solve.
Defined.

(** X26 at the running example wrapper, for a device whose first query fails
    and leaves a length of 100: the copy reads past the 64 bytes. *)
Lemma HandleDeviceEvent_copy_and_buffer_witness :
  (wrappers running !! session = Some (object_of session running)
   ∧ heap_ok running
     ∧ lock_ok (object_of session running) running
       ∧ device_ok (object_of session running) running
         ∧ open_device_result device_query_overlong = eLeapRS_Success
           ∧ reaches_delivery device_query_overlong = true
             ∧ ∃ (w' : World) (h : ptr) (evs : list Event) (dst buf size len : ptr),
                 HandleDeviceEvent x64 session {| device := 1 |} device_query_overlong
                   running =
                 Some ((), w')
                 ∧ trace w' = trace running ++ evs
                   ∧ List.filter is_memcpy evs = [EvMemcpy dst buf len]
                     ∧ last (List.filter is_get_device_info evs) =
                       Some (EvLeapGetDeviceInfo h buf size)
                       ∧ In (EvMalloc buf size) evs
                         ∧ In (EvMalloc dst len) evs
                           ∧ (len ≤ size ↔ serial_fits device_query_overlong = true)).
Proof.
  do 6 (split; [hyp_solve|]).
  apply (HandleDeviceEvent_copy_and_buffer x64 session {| device := 1 |} device_query_overlong running (object_of session running));
    hyp_solve.
Defined.
